(** * Zero1 dialect chat demo: relays and chat page

  A shallow embedding of the two Next.js route handlers
  ([app/api/chat/route.ts], [app/api/asr/route.ts]) and of the logic of
  the chat page ([app/page.tsx]), with the properties the specification
  states about them.

  JavaScript values are modelled as they exist at run time: strings are
  sequences of UTF-16 code units, JSON data is a tree of [jsval], numbers
  are binary64 floats.  Asynchronous functions are programs of a small
  free monad whose [Await] nodes are the suspension points of the
  source ([await fetch(...)], [await getUserMedia(...)]). *)

From Stdlib Require Import List Arith NArith Bool String Ascii Lia.
From Stdlib Require Import PrimFloat.
Import ListNotations.

Set Implicit Arguments.

(** ** JavaScript strings *)

Module JsString.

(** A string is its sequence of UTF-16 code units. *)
Definition jsstring := list N.

(** Source literals are UTF-8 text; [utf16_of_utf8] re-encodes them. *)
Fixpoint utf16_of_utf8 (bs : list N) : jsstring :=
  match bs with
  | [] => []
  | b :: r =>
      if (b <? 128)%N then b :: utf16_of_utf8 r
      else if (b <? 224)%N then
        match r with
        | c1 :: r' => ((b - 192) * 64 + (c1 - 128))%N :: utf16_of_utf8 r'
        | _ => []
        end
      else if (b <? 240)%N then
        match r with
        | c1 :: c2 :: r' =>
            ((b - 224) * 4096 + (c1 - 128) * 64 + (c2 - 128))%N
              :: utf16_of_utf8 r'
        | _ => []
        end
      else
        match r with
        | c1 :: c2 :: c3 :: r' =>
            let cp := ((b - 240) * 262144 + (c1 - 128) * 4096
                       + (c2 - 128) * 64 + (c3 - 128))%N in
            let v := (cp - 65536)%N in
            (55296 + v / 1024)%N :: (56320 + v mod 1024)%N
              :: utf16_of_utf8 r'
        | _ => []
        end
  end.

Definition js (s : string) : jsstring :=
  utf16_of_utf8 (map N_of_ascii (list_ascii_of_string s)).

Arguments js : simpl never.

(** The double quote, which a literal cannot hold. *)
Definition dq : jsstring := [34%N].
Definition quoted (s : string) : jsstring := dq ++ js s ++ dq.
Definition nl : jsstring := [10%N].

Fixpoint str_eqb (a b : jsstring) : bool :=
  match a, b with
  | [], [] => true
  | x :: a', y :: b' => (x =? y)%N && str_eqb a' b'
  | _, _ => false
  end.

Definition is_empty (s : jsstring) : bool :=
  match s with [] => true | _ => false end.

(** ECMAScript WhiteSpace and LineTerminator code points, the set that
    [String.prototype.trim] strips. *)
Definition is_white_space (c : N) : bool :=
  ((c =? 9) || (c =? 10) || (c =? 11) || (c =? 12) || (c =? 13)
   || (c =? 32) || (c =? 160) || (c =? 5760)
   || ((8192 <=? c) && (c <=? 8202))
   || (c =? 8232) || (c =? 8233) || (c =? 8239) || (c =? 8287)
   || (c =? 12288) || (c =? 65279))%N.

Fixpoint trimStart (s : jsstring) : jsstring :=
  match s with
  | [] => []
  | c :: r => if is_white_space c then trimStart r else s
  end.

Definition trimEnd (s : jsstring) : jsstring := rev (trimStart (rev s)).

Definition trim (s : jsstring) : jsstring := trimEnd (trimStart s).

(** A string that does not begin with white space. *)
Definition no_leading_space (s : jsstring) : Prop :=
  match s with [] => True | c :: _ => is_white_space c = false end.

(** A string that does not end with white space. *)
Definition no_trailing_space (s : jsstring) : Prop := no_leading_space (rev s).


(** [join sep parts]: [parts.join(sep)]. *)
Fixpoint join (sep : jsstring) (parts : list jsstring) : jsstring :=
  match parts with
  | [] => []
  | [p] => p
  | p :: rest => p ++ sep ++ join sep rest
  end.

End JsString.
Export JsString.

(** ** JavaScript values *)

Module JsValue.

#[local] Set Warnings "-register-all".

Inductive jsval : Type :=
| JUndefined
| JNull
| JBool (b : bool)
| JNum (x : float)
| JStr (s : jsstring)
| JArr (items : list jsval)
| JObj (fields : list (jsstring * jsval)).

(** ToBoolean. *)
Definition truthy (v : jsval) : bool :=
  match v with
  | JUndefined | JNull => false
  | JBool b => b
  | JNum x => negb (PrimFloat.eqb x 0%float || PrimFloat.is_nan x)
  | JStr s => negb (is_empty s)
  | JArr _ | JObj _ => true
  end.

(** [typeof v === "string"]. *)
Definition is_string (v : jsval) : bool :=
  match v with JStr _ => true | _ => false end.

Definition is_nullish (v : jsval) : bool :=
  match v with JUndefined | JNull => true | _ => false end.

Fixpoint assoc (k : jsstring) (fs : list (jsstring * jsval)) : option jsval :=
  match fs with
  | [] => None
  | (k', v) :: r => if str_eqb k k' then Some v else assoc k r
  end.

(** [v.k] on a value that is neither null nor undefined, for the keys
    this program reads ([message], [language], [content], [text],
    [error], [reply]): none of them is defined by a built-in prototype,
    so only an own property of an object yields a value. *)
Definition get (v : jsval) (k : jsstring) : jsval :=
  match v with
  | JObj fs => match assoc k fs with Some x => x | None => JUndefined end
  | _ => JUndefined
  end.

(** [v?.k]. *)
Definition get_opt (v : jsval) (k : jsstring) : jsval :=
  if is_nullish v then JUndefined else get v k.

(** [a || b] and [a ?? b]. *)
Definition or_else (a b : jsval) : jsval := if truthy a then a else b.
Definition coalesce (a b : jsval) : jsval := if is_nullish a then b else a.

End JsValue.
Export JsValue.

(** ** Exceptions, HTTP and browser objects *)

Module Platform.

(** A thrown value: an [Error] with its [name] and [message]. *)
Record exn : Type := mkExn { exn_name : jsstring; exn_message : jsstring }.

Definition TypeError (msg : string) : exn := mkExn (js "TypeError") (js msg).
Definition SyntaxError (msg : string) : exn := mkExn (js "SyntaxError") (js msg).
Definition Error (msg : string) : exn := mkExn (js "Error") (js msg).

(** A [Blob]: its bytes and media type. *)
Record Blob : Type := mkBlob { blob_bytes : list N; blob_type : jsstring }.

(** A [FormData] entry value is text or a file (a blob with a name). *)
Inductive FormDataEntryValue : Type :=
| FText (s : jsstring)
| FFile (b : Blob) (filename : jsstring).

Definition FormData := list (jsstring * FormDataEntryValue).

(** [form.get(name)]: the first value under [name], or null. *)
Fixpoint form_get (name : jsstring) (f : FormData) : option FormDataEntryValue :=
  match f with
  | [] => None
  | (k, v) :: r => if str_eqb name k then Some v else form_get name r
  end.

(** The body handed to [fetch]: [JSON.stringify(v)], kept as the value
    that is serialised, or a multipart form. *)
Inductive Body : Type :=
| BodyJSON (v : jsval)
| BodyForm (f : FormData).

Record RequestInit : Type := mkInit {
  init_method : jsstring;
  init_headers : list (jsstring * jsstring);
  init_body : Body
}.

(** A [Response].  [res_text] is what [res.text()] resolves to and
    [res_json] what [res.json()] resolves to; [None] is a rejection
    (unreadable body, body that is not JSON). *)
Record Response : Type := mkResponse {
  res_status : N;
  res_text : option jsstring;
  res_json : option jsval
}.

(** [res.ok]: the status is in the range 200-299. *)
Definition res_ok (r : Response) : bool :=
  ((200 <=? res_status r) && (res_status r <=? 299))%N.

(** A [MediaStream] handed out by the browser. *)
Record MediaStream : Type := mkStream { stream_id : nat }.

(** The operations an async function suspends on. *)
Inductive request : Type :=
| Fetch (url : jsstring) (init : RequestInit)
| GetUserMedia.

Definition result_of (r : request) : Type :=
  match r with
  | Fetch _ _ => Response
  | GetUserMedia => MediaStream
  end.

(** How a promise settles: rejected with an exception, or fulfilled. *)
Definition settled (r : request) : Type := (exn + result_of r)%type.

(** An incoming request of a route handler, by what its body holds. *)
Inductive NextRequest : Type :=
| ReqJSON (v : jsval)
| ReqForm (f : FormData)
| ReqOther.

(** What a route handler answers: [NextResponse.json(body, { status })]. *)
Record NextResponse : Type := mkNextResponse {
  status : N;
  payload : jsval
}.

Definition NextResponse_json (body : jsval) (st : N) : NextResponse :=
  mkNextResponse st body.

End Platform.
Export Platform.

(** ** Async programs *)

Module Async.

Section Prog.

(** The mutable state a program works on. *)
Variable W : Type.

Inductive prog (A : Type) : Type :=
| Ret (a : A)
| Throw (e : exn)
| Update (f : W -> W) (k : prog A)
| Read (k : W -> prog A)
| Await (r : request) (k : settled r -> prog A).

Arguments Ret {A} a.
Arguments Throw {A} e.
Arguments Update {A} f k.
Arguments Read {A} k.
Arguments Await {A} r k.

Fixpoint bind {A B : Type} (p : prog A) (f : A -> prog B) : prog B :=
  match p with
  | Ret a => f a
  | Throw e => Throw e
  | Update g k => Update g (bind k f)
  | Read k => Read (fun w => bind (k w) f)
  | Await r k => Await r (fun o => bind (k o) f)
  end.

(** [try { p } catch (err) { h err }]. *)
Fixpoint try_catch {A : Type} (p : prog A) (h : exn -> prog A) : prog A :=
  match p with
  | Ret a => Ret a
  | Throw e => h e
  | Update g k => Update g (try_catch k h)
  | Read k => Read (fun w => try_catch (k w) h)
  | Await r k => Await r (fun o => try_catch (k o) h)
  end.

(** [try { p } finally { f }]: [f] runs on every exit of [p], and the
    outcome of [p] stands unless [f] itself throws. *)
Fixpoint try_finally {A : Type} (p : prog A) (f : prog unit) : prog A :=
  match p with
  | Ret a => bind f (fun _ => Ret a)
  | Throw e => bind f (fun _ => Throw e)
  | Update g k => Update g (try_finally k f)
  | Read k => Read (fun w => try_finally (k w) f)
  | Await r k => Await r (fun o => try_finally (k o) f)
  end.

(** [await] of one request: a rejection is thrown at the await. *)
Definition await (r : request) : prog (result_of r) :=
  Await r (fun o => match o with inl e => Throw e | inr v => Ret v end).

(** A state setter. *)
Definition update (f : W -> W) : prog unit := Update f (Ret tt).

(** A promise that is already settled, as [res.text()] and [res.json()]
    are once the response has arrived. *)
Definition settle {A : Type} (o : option A) (e : exn) : prog A :=
  match o with Some a => Ret a | None => Throw e end.

(** The environment answers each request, knowing the requests made
    before it. *)
Definition oracle : Type := forall r : request, list request -> settled r.

(** Running a program to completion: every await is answered at once.
    The result is the outcome, the final state and the requests made, in
    order. *)
Fixpoint run {A : Type} (env : oracle) (p : prog A) (w : W) (log : list request)
  : (exn + A) * W * list request :=
  match p with
  | Ret a => (inr a, w, log)
  | Throw e => (inl e, w, log)
  | Update g k => run env k (g w) log
  | Read k => run env (k w) w log
  | Await r k => run env (k (env r log)) w (log ++ [r])
  end.

Definition outcome_of {A : Type} (r : (exn + A) * W * list request) : exn + A :=
  fst (fst r).
Definition final_state {A : Type} (r : (exn + A) * W * list request) : W :=
  snd (fst r).
Definition requests_of {A : Type} (r : (exn + A) * W * list request)
  : list request := snd r.

(** An environment that settles every fetch and every microphone request
    the same way. *)
Definition always (res : exn + Response) (media : exn + MediaStream) : oracle :=
  fun r _ =>
    match r as r0 return settled r0 with
    | Fetch _ _ => res
    | GetUserMedia => media
    end.

End Prog.

Arguments Ret {W A} a.
Arguments Throw {W A} e.
Arguments Update {W A} f k.
Arguments Read {W A} k.
Arguments Await {W A} r k.
Arguments await {W} r.
Arguments update {W} f.
Arguments settle {W A} o e.
Arguments outcome_of {W A} r.
Arguments final_state {W A} r.
Arguments requests_of {W A} r.

(** [v.trim()]: the method exists on strings only. *)
Definition call_trim {W : Type} (v : jsval) : prog W jsstring :=
  match v with
  | JStr t => Ret (trim t)
  | _ => Throw (TypeError "trim is not a function")
  end.

Declare Scope prog_scope.
Delimit Scope prog_scope with prog.
Notation "x <- p ;; q" := (bind p (fun x => q))
  (at level 61, p at next level, right associativity) : prog_scope.
Notation "p ;; q" := (bind p (fun _ => q))
  (at level 61, right associativity) : prog_scope.

End Async.
Export Async.
Open Scope prog_scope.

(** ** The Chat Relay: [app/api/chat/route.ts] *)

Module ChatRelay.

(** The environment variables the handler reads. *)
Record Env : Type := mkEnv {
  LLM_SERVER_URL : option jsstring;
  LLM_MODEL_NAME : option jsstring
}.

(** The persona prompt: the template literal of the source, which opens
    and closes with a line break. *)
Definition SYSTEM_PROMPT : jsstring :=
  nl ++ join nl [
    js "You are " ++ quoted "ZeroOne Dialect AI" ++ js " — a multilingual customer service agent for the Singapore telco Zero1.";
    [];
    js "Your job:";
    js "- Understand and reply in the SAME language or dialect the user uses.";
    js "- Supported languages and dialects: English, Singlish, Mandarin, Hokkien, Cantonese, Teochew.";
    js "- If the user mixes languages (very common in Singapore), reply naturally in mixed language too.";
    [];
    js "Singlish style (very important):";
    js "- Use natural Singapore Singlish, not American or Jamaican slang.";
    js "- Do NOT use words like " ++ quoted "yuh" ++ js ", " ++ quoted "ya mon" ++ js ", " ++ quoted "mate" ++ js ", or Caribbean-style English.";
    js "- Use common Singlish particles like " ++ quoted "lah" ++ js ", " ++ quoted "lor" ++ js ", " ++ quoted "leh" ++ js ", " ++ quoted "mah" ++ js ", " ++ quoted "meh" ++ js ", " ++ quoted "ah" ++ js ", " ++ quoted "hor" ++ js " in a natural way.";
    js "- Use " ++ quoted "you" ++ js " or " ++ quoted "u" ++ js " (not " ++ quoted "yuh" ++ js "), and simple short sentences.";
    js "- " ++ quoted "meh" ++ js " is usually used at the END of a question, not at the beginning of a sentence.";
    js "- Overall tone should feel like a friendly Singapore CS agent chatting with a customer.";
    [];
    js "Tone:";
    js "- Friendly, concise, helpful.";
    js "- Sound like a real Singapore telco customer service agent.";
    js "- Keep answers short and practical (2–4 short sentences usually enough).";
    [];
    js "Rules:";
    js "- Do not hallucinate technical info.";
    js "- If unsure, give the safest, standard telco explanation.";
    js "- Always match the user’s language, dialect, and tone.";
    [];
    js "Common telco topics you should handle:";
    js "- Bill suddenly higher than usual";
    js "- Data usage exceeded";
    js "- Roaming charges";
    js "- Plan upgrade or downgrade";
    js "- Contract / SIM card / activation issues";
    js "- Slow network or poor coverage";
    js "- Payment method / invoice questions";
    [];
    js "Dialect behaviour:";
    js "- For Hokkien: use simple vocabulary, Singapore-style expressions (e.g. " ++ quoted "bo lah" ++ js ", " ++ quoted "jialat" ++ js ", " ++ quoted "kan cheong" ++ js ").";
    js "- For Cantonese: Hong Kong / Singapore mix is OK, but keep it simple.";
    js "- For Teochew: simple Teochew phrases mixed with Mandarin is OK.";
    js "- For Singlish: natural, short, casual, like how people talk in Singapore.";
    [];
    js "If the user says: " ++ quoted "explain in Hokkien / Cantonese / Teochew" ++ js ", follow their request.";
    [];
    js "If the user speaks English or Mandarin, reply in the same language unless they request otherwise."
  ] ++ nl.

Definition chat_message (role content : jsstring) : jsval :=
  JObj [(js "role", JStr role); (js "content", JStr content)].

(** Few-shot examples to steer Singlish and telco tone. *)
Definition fewShotMessages : list jsval := [
  chat_message (js "user") (js "Why my bill so high one?");
  chat_message (js "assistant")
    (js "This month your usage a bit higher lah. You used more data and a few extra calls, so the bill go up. You can check the itemised bill to see which part increase the most.");
  chat_message (js "user") (js "Eh my data finish so fast, what happen ah?");
  chat_message (js "assistant")
    (js "Maybe got more video or hotspot this month lor. Once you pass the bundle, extra data will charge by rate. Next time can consider bigger plan or set data alert, so you know before it burst.");
  chat_message (js "user") (js "Can explain to me in Singlish, not so formal?");
  chat_message (js "assistant")
    (js "Can lah. I just explain properly but still in Singlish style. Main thing is you understand what happen to your bill and data usage, okay?")
].

Definition AUTO_DETECT_HINT : jsstring :=
  js "User language may change; auto-detect and match the user.".

Definition selected_hint (language : jsstring) : jsstring :=
  js "User selected language/dialect: " ++ language
    ++ js ". Reply in this language or dialect if possible.".

Definition FALLBACK_REPLY : jsstring :=
  js "Sorry, I am temporarily unable to respond. Please try again later.".

Definition error_body (msg : string) : jsval :=
  JObj [(js "error", JStr (js msg))].

Section Handler.

(** ECMAScript ToString on a value that is not a string, as a template
    literal applies it.  It is left open here: it formats numbers, joins
    arrays, and throws on an object whose [toString] and [valueOf] do not
    yield a primitive. *)
Variable ToString_nonstring : jsval -> exn + jsstring.

(** [`${v}`]. *)
Definition template_string (v : jsval) : exn + jsstring :=
  match v with
  | JStr s => inr s
  | _ => ToString_nonstring v
  end.

(** Extra hint for the model based on selected language. *)
Definition languageHint (language : jsval) : exn + jsstring :=
  if truthy language then
    match template_string language with
    | inl e => inl e
    | inr s => inr (selected_hint s)
    end
  else inr AUTO_DETECT_HINT.

(** [process.env.LLM_MODEL_NAME || "qwen2.5:7b"]. *)
Definition model_name (env : Env) : jsstring :=
  match LLM_MODEL_NAME env with
  | Some (c :: r) => c :: r
  | _ => js "qwen2.5:7b"
  end.

Definition chat_payload (modelName : jsstring) (hint : jsstring) (message : jsval)
  : jsval :=
  JObj [
    (js "model", JStr modelName);
    (js "stream", JBool false);
    (js "messages",
      JArr ([JObj [(js "role", JStr (js "system"));
                   (js "content", JStr (SYSTEM_PROMPT ++ nl ++ nl ++ hint))]]
            ++ fewShotMessages
            ++ [JObj [(js "role", JStr (js "user"));
                      (js "content", message)]]))
  ].

Definition chat_request (llmBaseUrl : jsstring) (body : jsval) : request :=
  Fetch (llmBaseUrl ++ js "/api/chat")
    (mkInit (js "POST") [(js "Content-Type", js "application/json")]
       (BodyJSON body)).

Definition POST (env : Env) (req : NextRequest) : prog unit NextResponse :=
  try_catch
    (body <- match req with
             | ReqJSON v => Ret v
             | _ => Throw (SyntaxError "Unexpected token")
             end ;;
     (* const { message, language } = body *)
     if is_nullish body then
       Throw (TypeError "Cannot destructure property of body")
     else
     let message := get body (js "message") in
     let language := get body (js "language") in
     if negb (truthy message) || negb (is_string message) then
       Ret (NextResponse_json (error_body "Missing message") 400)
     else
     let llmBaseUrl := LLM_SERVER_URL env in
     let modelName := model_name env in
     match llmBaseUrl with
     | None | Some [] =>
         Ret (NextResponse_json (error_body "LLM_SERVER_URL is not configured") 500)
     | Some url =>
         hint <- match languageHint language with
                 | inl e => Throw e
                 | inr h => Ret h
                 end ;;
         res <- await (chat_request url (chat_payload modelName hint message)) ;;
         if negb (res_ok res) then
           text <- settle (res_text res) (TypeError "body stream is not readable") ;;
           Ret (NextResponse_json
                  (JObj [(js "error", JStr (js "LLM server error"));
                         (js "detail", JStr text)]) 502)
         else
           data <- settle (res_json res) (SyntaxError "Unexpected token") ;;
           let reply :=
             coalesce (get_opt (get_opt data (js "message")) (js "content"))
                      (JStr FALLBACK_REPLY) in
           Ret (NextResponse_json (JObj [(js "reply", reply)]) 200)
     end)
    (fun err => Ret (NextResponse_json (error_body "Internal server error") 500)).

(** The handler is stateless: it runs on the unit state. *)
Definition handle (world : oracle) (env : Env) (req : NextRequest)
  : (exn + NextResponse) * list request :=
  let '(out, _, log) := run world (POST env req) tt [] in (out, log).

End Handler.

End ChatRelay.

(** ** The Transcription Relay: [app/api/asr/route.ts] *)

Module AsrRelay.

Record Env : Type := mkEnv { ASR_SERVER_URL : option jsstring }.

Fixpoint float_of_pos (p : positive) : float :=
  match p with
  | xH => 1%float
  | xO q => (2 * float_of_pos q)%float
  | xI q => (2 * float_of_pos q + 1)%float
  end.

(** An HTTP status as a JavaScript number. *)
Definition number_of_N (n : N) : float :=
  match n with N0 => 0%float | Npos p => float_of_pos p end.

(** [form.append(name, value, filename)].  With three arguments only the
    overload [append(name, blobValue, filename)] applies: a value that is
    not a [Blob] is a [TypeError]. *)
Definition append_file (form : FormData) (name : jsstring)
  (value : FormDataEntryValue) (filename : jsstring) : exn + FormData :=
  match value with
  | FFile b _ => inr (form ++ [(name, FFile b filename)])
  | FText _ =>
      inl (TypeError "Failed to execute 'append' on 'FormData': parameter 2 is not of type 'Blob'")
  end.

Definition error_body (msg : string) : jsval :=
  JObj [(js "error", JStr (js msg))].

Definition asr_request (url : jsstring) (form : FormData) : request :=
  Fetch url (mkInit (js "POST") [] (BodyForm form)).

Definition POST (env : Env) (req : NextRequest) : prog unit NextResponse :=
  try_catch
    (match ASR_SERVER_URL env with
     | None | Some [] =>
         Ret (NextResponse_json (error_body "ASR_SERVER_URL is not configured") 500)
     | Some ASR_URL =>
         formData <- match req with
                     | ReqForm f => Ret f
                     | _ => Throw (TypeError "Content-Type was not multipart/form-data")
                     end ;;
         match form_get (js "audio") formData with
         | None | Some (FText []) =>
             (* !audio *)
             Ret (NextResponse_json (error_body "Missing audio file") 400)
         | Some audio =>
             forwardForm <- match append_file [] (js "file") audio (js "input.webm") with
                            | inl e => Throw e
                            | inr f => Ret f
                            end ;;
             res <- await (asr_request ASR_URL forwardForm) ;;
             if negb (res_ok res) then
               let errorText := match res_text res with Some t => t | None => [] end in
               Ret (NextResponse_json
                      (JObj [(js "error", JStr (js "ASR backend error"));
                             (js "backendStatus", JNum (number_of_N (res_status res)));
                             (js "backendDetail", JStr errorText)]) 500)
             else
               let data := match res_json res with Some d => d | None => JNull end in
               if negb (truthy data) || negb (is_string (get data (js "text"))) then
                 Ret (NextResponse_json
                        (error_body "Invalid response from ASR backend") 500)
               else
                 text <- call_trim (get data (js "text")) ;;
                 Ret (NextResponse_json (JObj [(js "text", JStr text)]) 200)
         end
     end)
    (fun err =>
       Ret (NextResponse_json (error_body "Internal server error in /api/asr") 500)).

Definition handle (world : oracle) (env : Env) (req : NextRequest)
  : (exn + NextResponse) * list request :=
  let '(out, _, log) := run world (POST env req) tt [] in (out, log).

End AsrRelay.

(** ** The second copy of the Transcription Relay

    The repository holds a second copy of [app/api/asr/route.ts]: it reads
    the upload from the field [file], tests that it is a [Blob], and
    relays the text of the backend as it comes. *)

Module AsrRelayFile.
Import AsrRelay.

Definition POST (env : Env) (req : NextRequest) : prog unit NextResponse :=
  try_catch
    (match ASR_SERVER_URL env with
     | None | Some [] =>
         Ret (NextResponse_json (error_body "ASR_SERVER_URL is not configured") 500)
     | Some asrServerUrl =>
         incomingForm <- match req with
                         | ReqForm f => Ret f
                         | _ => Throw (TypeError "Content-Type was not multipart/form-data")
                         end ;;
         match form_get (js "file") incomingForm with
         | Some (FFile b name) =>
             forwardForm <- match append_file [] (js "file") (FFile b name)
                                    (js "audio.webm") with
                            | inl e => Throw e
                            | inr f => Ret f
                            end ;;
             res <- await (asr_request asrServerUrl forwardForm) ;;
             if negb (res_ok res) then
               let text := match res_text res with Some t => t | None => [] end in
               Ret (NextResponse_json
                      (JObj [(js "error", JStr (js "ASR backend error"));
                             (js "detail",
                              match text with [] => JUndefined | _ => JStr text end)])
                      502)
             else
               let data := match res_json res with Some d => d | None => JNull end in
               if negb (truthy data) || negb (is_string (get data (js "text"))) then
                 Ret (NextResponse_json (error_body "Invalid ASR response format") 502)
               else
                 Ret (NextResponse_json (JObj [(js "text", get data (js "text"))]) 200)
         | _ =>
             (* !file || !(file instanceof Blob) *)
             Ret (NextResponse_json
                    (error_body "Missing audio file in 'file' field") 400)
         end
     end)
    (fun err =>
       Ret (NextResponse_json (error_body "Internal server error in /api/asr") 500)).

Definition handle (world : oracle) (env : Env) (req : NextRequest)
  : (exn + NextResponse) * list request :=
  let '(out, _, log) := run world (POST env req) tt [] in (out, log).

End AsrRelayFile.

(** ** The chat page: [app/page.tsx] *)

Module ChatPage.

Inductive Role : Type := user | assistant.

Record ChatMessage : Type := mkMessage { role : Role; content : jsval }.

Definition languageOptions : list (jsstring * jsstring) := [
  (js "auto", js "Auto detect");
  (js "english", js "English / Singlish");
  (js "mandarin", js "Mandarin");
  (js "cantonese", js "Cantonese");
  (js "hokkien", js "Hokkien");
  (js "teochew", js "Teochew")
].

Definition ASR_ROUTE : jsstring := js "/api/asr".

(** The values of the [useState] hooks.  A render hands its values to the
    closures it creates: a handler reads the [State] of the render that
    made it, and writes through the setters. *)
Record State : Type := mkState {
  messages : list ChatMessage;
  input : jsstring;
  language : jsstring;
  loading : bool;
  errorText : jsval;
  isRecording : bool;
  isTranscribing : bool;
  recordingError : jsstring;
  volumeLevel : float
}.

Definition initial_state : State :=
  mkState [] [] (js "auto") false (JStr []) false false [] 0%float.

Definition set_messages (f : list ChatMessage -> list ChatMessage) (s : State) : State :=
  mkState (f (messages s)) (input s) (language s) (loading s) (errorText s)
    (isRecording s) (isTranscribing s) (recordingError s) (volumeLevel s).
Definition set_input (v : jsstring) (s : State) : State :=
  mkState (messages s) v (language s) (loading s) (errorText s)
    (isRecording s) (isTranscribing s) (recordingError s) (volumeLevel s).
Definition set_language (v : jsstring) (s : State) : State :=
  mkState (messages s) (input s) v (loading s) (errorText s)
    (isRecording s) (isTranscribing s) (recordingError s) (volumeLevel s).
Definition set_loading (v : bool) (s : State) : State :=
  mkState (messages s) (input s) (language s) v (errorText s)
    (isRecording s) (isTranscribing s) (recordingError s) (volumeLevel s).
Definition set_errorText (v : jsval) (s : State) : State :=
  mkState (messages s) (input s) (language s) (loading s) v
    (isRecording s) (isTranscribing s) (recordingError s) (volumeLevel s).
Definition set_isRecording (v : bool) (s : State) : State :=
  mkState (messages s) (input s) (language s) (loading s) (errorText s)
    v (isTranscribing s) (recordingError s) (volumeLevel s).
Definition set_isTranscribing (v : bool) (s : State) : State :=
  mkState (messages s) (input s) (language s) (loading s) (errorText s)
    (isRecording s) v (recordingError s) (volumeLevel s).
Definition set_recordingError (v : jsstring) (s : State) : State :=
  mkState (messages s) (input s) (language s) (loading s) (errorText s)
    (isRecording s) (isTranscribing s) v (volumeLevel s).
Definition set_volumeLevel (v : float) (s : State) : State :=
  mkState (messages s) (input s) (language s) (loading s) (errorText s)
    (isRecording s) (isTranscribing s) (recordingError s) v.

(** A [MediaRecorder] of the browser.  [rec_render] is the render whose
    [startRecording] created it: its [onstop] handler is a closure of that
    render.  [rec_stop_queued] holds between [stop()] and the delivery of
    the [dataavailable] and [stop] events. *)
Inductive RecordingState : Type := inactive | recording.

Record MediaRecorder : Type := mkRecorder {
  rec_stream : MediaStream;
  rec_state : RecordingState;
  rec_stop_queued : bool;
  rec_render : State
}.

(** What the page can observe of the browser.  [MediaRecorder_throws]
    is what [new MediaRecorder(stream)] throws, if it throws (a
    ReferenceError where the class does not exist, a NotSupportedError
    for a stream it cannot record); [start_throws] is what
    [recorder.start()] throws, if it throws. *)
Record Browser : Type := mkBrowser {
  isSecureContext : bool;
  hasGetUserMedia : bool;
  hasAudioContext : bool;
  MediaRecorder_throws : option exn;
  start_throws : option exn;
  analyser_level : float;
  recorders : list MediaRecorder;
  ended_streams : list nat;
  next_frame : nat
}.

(** The live state: the React state, the [useRef] cells and the browser. *)
Record World : Type := mkWorld {
  ui : State;
  mediaRecorderRef : option nat;
  mediaStreamRef : option MediaStream;
  audioChunksRef : list Blob;
  audioContextRef : option MediaStream;
  analyserRef : option MediaStream;
  animationFrameRef : option nat;
  browser : Browser
}.

Definition with_ui (f : State -> State) (w : World) : World :=
  mkWorld (f (ui w)) (mediaRecorderRef w) (mediaStreamRef w) (audioChunksRef w)
    (audioContextRef w) (analyserRef w) (animationFrameRef w) (browser w).
Definition set_mediaRecorderRef (v : option nat) (w : World) : World :=
  mkWorld (ui w) v (mediaStreamRef w) (audioChunksRef w)
    (audioContextRef w) (analyserRef w) (animationFrameRef w) (browser w).
Definition set_mediaStreamRef (v : option MediaStream) (w : World) : World :=
  mkWorld (ui w) (mediaRecorderRef w) v (audioChunksRef w)
    (audioContextRef w) (analyserRef w) (animationFrameRef w) (browser w).
Definition set_audioChunksRef (v : list Blob) (w : World) : World :=
  mkWorld (ui w) (mediaRecorderRef w) (mediaStreamRef w) v
    (audioContextRef w) (analyserRef w) (animationFrameRef w) (browser w).
Definition set_audioContextRef (v : option MediaStream) (w : World) : World :=
  mkWorld (ui w) (mediaRecorderRef w) (mediaStreamRef w) (audioChunksRef w)
    v (analyserRef w) (animationFrameRef w) (browser w).
Definition set_analyserRef (v : option MediaStream) (w : World) : World :=
  mkWorld (ui w) (mediaRecorderRef w) (mediaStreamRef w) (audioChunksRef w)
    (audioContextRef w) v (animationFrameRef w) (browser w).
Definition set_animationFrameRef (v : option nat) (w : World) : World :=
  mkWorld (ui w) (mediaRecorderRef w) (mediaStreamRef w) (audioChunksRef w)
    (audioContextRef w) (analyserRef w) v (browser w).
Definition with_browser (f : Browser -> Browser) (w : World) : World :=
  mkWorld (ui w) (mediaRecorderRef w) (mediaStreamRef w) (audioChunksRef w)
    (audioContextRef w) (analyserRef w) (animationFrameRef w) (f (browser w)).

Definition set_recorders (v : list MediaRecorder) (b : Browser) : Browser :=
  mkBrowser (isSecureContext b) (hasGetUserMedia b) (hasAudioContext b)
    (MediaRecorder_throws b) (start_throws b) (analyser_level b) v (ended_streams b) (next_frame b).
Definition set_ended_streams (v : list nat) (b : Browser) : Browser :=
  mkBrowser (isSecureContext b) (hasGetUserMedia b) (hasAudioContext b)
    (MediaRecorder_throws b) (start_throws b) (analyser_level b) (recorders b) v (next_frame b).
Definition set_next_frame (v : nat) (b : Browser) : Browser :=
  mkBrowser (isSecureContext b) (hasGetUserMedia b) (hasAudioContext b)
    (MediaRecorder_throws b) (start_throws b) (analyser_level b) (recorders b) (ended_streams b) v.

(** The state setters of the hooks. *)
Definition setMessages (f : list ChatMessage -> list ChatMessage) : prog World unit :=
  update (with_ui (set_messages f)).
Definition setInput (v : jsstring) : prog World unit := update (with_ui (set_input v)).
Definition setLanguage (v : jsstring) : prog World unit := update (with_ui (set_language v)).
Definition setLoading (v : bool) : prog World unit := update (with_ui (set_loading v)).
Definition setErrorText (v : jsval) : prog World unit := update (with_ui (set_errorText v)).
Definition setIsRecording (v : bool) : prog World unit := update (with_ui (set_isRecording v)).
Definition setIsTranscribing (v : bool) : prog World unit :=
  update (with_ui (set_isTranscribing v)).
Definition setRecordingError (v : jsstring) : prog World unit :=
  update (with_ui (set_recordingError v)).
Definition setVolumeLevel (v : float) : prog World unit :=
  update (with_ui (set_volumeLevel v)).

Definition SERVER_BUSY : jsstring := js "Server is busy. Please try again later.".
Definition NETWORK_FAILED : jsstring :=
  js "Network request failed. Please check your connection or try again.".
Definition FALLBACK_REPLY : jsstring :=
  js "Sorry, I am temporarily unable to respond. Please try again later.".
Definition VOICE_FAILED : jsstring :=
  js "Voice recognition failed. Please try again or type your message.".

Definition chat_request (content : jsstring) (lang : jsstring) : request :=
  Fetch (js "/api/chat")
    (mkInit (js "POST") [(js "Content-Type", js "application/json")]
       (BodyJSON (JObj [
          (js "message", JStr content);
          (js "language", if str_eqb lang (js "auto") then JUndefined else JStr lang)
        ]))).

(** [overrideText ?? input]. *)
Definition submitted (render : State) (overrideText : option jsstring) : jsstring :=
  match overrideText with Some t => t | None => input render end.

(** Send message to backend API.  [render] is the render whose closure is
    called; [overrideText] is the optional argument. *)
Definition sendMessage (render : State) (overrideText : option jsstring)
  : prog World unit :=
  let content := trim (submitted render overrideText) in
  if is_empty content || loading render then Ret tt
  else
    let userMessage := mkMessage user (JStr content) in
    (* Optimistically add user message to chat list *)
    setMessages (fun prev => prev ++ [userMessage]) ;;
    match overrideText with
    | Some (_ :: _) => Ret tt
    | _ => setInput []
    end ;;
    setErrorText (JStr []) ;;
    setLoading true ;;
    try_finally
      (try_catch
         (res <- await (chat_request content (language render)) ;;
          if negb (res_ok res) then
            let data := match res_json res with Some d => d | None => JObj [] end in
            setErrorText (or_else (get_opt data (js "error")) (JStr SERVER_BUSY)) ;;
            setLoading false ;;
            Ret tt
          else
            data <- settle (res_json res) (SyntaxError "Unexpected token") ;;
            reply <- (if is_nullish data
                      then Throw (TypeError "Cannot read properties of null")
                      else Ret (get data (js "reply"))) ;;
            let replyText := or_else reply (JStr FALLBACK_REPLY) in
            let assistantMessage := mkMessage assistant replyText in
            setMessages (fun prev => prev ++ [assistantMessage]))
         (fun err => setErrorText (JStr NETWORK_FAILED)))
      (setLoading false).

Definition asr_request (blob : Blob) : request :=
  Fetch ASR_ROUTE
    (mkInit (js "POST") [] (BodyForm [(js "audio", FFile blob (js "audio.webm"))])).

(** Call ASR backend with an audio blob and return the transcribed text. *)
Definition transcribeAudio (blob : Blob) : prog World jsstring :=
  setRecordingError [] ;;
  setIsTranscribing true ;;
  try_finally
    (try_catch
       (res <- await (asr_request blob) ;;
        if negb (res_ok res) then
          Throw (Error "ASR request failed")
        else
          data <- settle (res_json res) (SyntaxError "Unexpected token") ;;
          (* data.text?.trim() || "" *)
          text <- (if is_nullish data
                   then Throw (TypeError "Cannot read properties of null")
                   else if is_nullish (get data (js "text")) then Ret []
                   else call_trim (get data (js "text"))) ;;
          if is_empty text then Throw (Error "Empty transcription")
          else Ret text)
       (fun err => setRecordingError VOICE_FAILED ;; Ret []))
    (setIsTranscribing false).

(** Handle the final audio blob after recording stops. *)
Definition handleAudioBlob (render : State) (blob : Blob) : prog World unit :=
  text <- transcribeAudio blob ;;
  if is_empty text then Ret tt
  else
    (* Automatically send transcribed text as a user message *)
    sendMessage render (Some text).

(** Start visual volume analysis using Web Audio API.  The body is one
    [try]: without an [AudioContext] class the construction throws and
    nothing is set up.  The first call of [update] publishes the level
    the analyser measures and requests the next animation frame; the
    later frames are not modelled. *)
Definition startVolumeVisualization (stream : MediaStream) : prog World unit :=
  try_catch
    (Read (fun w =>
       if negb (hasAudioContext (browser w))
       then Throw (TypeError "AudioContextClass is not a constructor")
       else
         update (set_audioContextRef (Some stream)) ;;
         update (set_analyserRef (Some stream)) ;;
         (* update() *)
         Read (fun w1 =>
           match analyserRef w1 with
           | None => Ret tt
           | Some _ =>
               setVolumeLevel (analyser_level (browser w1)) ;;
               update (fun w2 =>
                 with_browser (set_next_frame (S (next_frame (browser w2))))
                   (set_animationFrameRef (Some (next_frame (browser w2))) w2))
           end)))
    (fun err => Ret tt).

(** Stop the volume visualization. *)
Definition stopVolumeVisualization : prog World unit :=
  Read (fun w =>
    match animationFrameRef w with
    | Some _ => update (set_animationFrameRef None)
    | None => Ret tt
    end) ;;
  Read (fun w =>
    match audioContextRef w with
    | Some _ => update (set_audioContextRef None)
    | None => Ret tt
    end) ;;
  update (set_analyserRef None) ;;
  setVolumeLevel 0%float.

(** [recorders[id] = f(recorders[id])]. *)
Fixpoint update_nth {A : Type} (n : nat) (f : A -> A) (l : list A) : list A :=
  match l, n with
  | [], _ => []
  | x :: r, O => f x :: r
  | x :: r, S m => x :: update_nth m f r
  end.

Definition set_rec_state (st : RecordingState) (queued : bool) (r : MediaRecorder)
  : MediaRecorder :=
  mkRecorder (rec_stream r) st queued (rec_render r).

(** [recorder.onstop] of a recorder created by [render]. *)
Definition onstop (render : State) : prog World unit :=
  (* Stop all tracks to release the microphone *)
  Read (fun w =>
    match mediaStreamRef w with
    | Some stream =>
        update (with_browser (fun b =>
                  set_ended_streams (stream_id stream :: ended_streams b) b)) ;;
        update (set_mediaStreamRef None)
    | None => Ret tt
    end) ;;
  stopVolumeVisualization ;;
  Read (fun w =>
    let audioBlob :=
      mkBlob (List.concat (map blob_bytes (audioChunksRef w))) (js "audio/webm") in
    update (set_audioChunksRef []) ;;
    handleAudioBlob render audioBlob).

(** [recorder.ondataavailable]. *)
Definition ondataavailable (data : Blob) : prog World unit :=
  match blob_bytes data with
  | [] => Ret tt
  | _ :: _ => update (fun w => set_audioChunksRef (audioChunksRef w ++ [data]) w)
  end.

Definition microphone_error (name : jsstring) : jsstring :=
  js "Could not access microphone ("
    ++ (match name with [] => js "error" | _ => name end)
    ++ js "). Please check permissions and try again.".

(** Start recording from the microphone. *)
Definition startRecording (render : State) : prog World unit :=
  try_catch
    (setRecordingError [] ;;
     Read (fun w =>
       (* Check if the page is in a secure context *)
       if negb (isSecureContext (browser w)) then
         setRecordingError
           (js "Browser requires HTTPS or localhost for microphone access. Please open this demo on http://localhost:3000 or via HTTPS.")
       else if negb (hasGetUserMedia (browser w)) then
         setRecordingError (js "Microphone is not supported in this browser.")
       else
         stream <- await GetUserMedia ;;
         update (set_mediaStreamRef (Some stream)) ;;
         (* Start volume visualization *)
         startVolumeVisualization stream ;;
         (* Reset chunks *)
         update (set_audioChunksRef []) ;;
         (* new MediaRecorder(stream), with its two handlers *)
         Read (fun w1 =>
           match MediaRecorder_throws (browser w1) with
           | Some e => Throw e
           | None =>
               let id := List.length (recorders (browser w1)) in
               update (with_browser (fun b =>
                         set_recorders
                           (recorders b ++ [mkRecorder stream inactive false render]) b)) ;;
               update (set_mediaRecorderRef (Some id)) ;;
               (* recorder.start() *)
               match start_throws (browser w1) with
               | Some e => Throw e
               | None =>
                   update (with_browser (fun b =>
                             set_recorders
                               (update_nth id (set_rec_state recording false)
                                  (recorders b)) b)) ;;
                   setIsRecording true
               end
           end)))
    (fun err => setRecordingError (microphone_error (exn_name err))).

(** Stop recording if currently active. *)
Definition stopRecording : prog World unit :=
  Read (fun w =>
    match mediaRecorderRef w with
    | Some id =>
        match nth_error (recorders (browser w)) id with
        | Some r =>
            match rec_state r with
            | recording =>
                (* recorder.stop() *)
                update (with_browser (fun b =>
                          set_recorders
                            (update_nth id (set_rec_state inactive true) (recorders b)) b))
            | inactive => Ret tt
            end
        | None => Ret tt
        end
    | None => Ret tt
    end) ;;
  setIsRecording false.

(** Toggle recording state when the microphone button is clicked. *)
Definition handleToggleRecording (render : State) : prog World unit :=
  if isRecording render then stopRecording
  else startRecording render.

(** The [disabled] attribute of the microphone button. *)
Definition mic_disabled (render : State) : bool :=
  loading render || isTranscribing render.

(** The [disabled] attribute of the send button. *)
Definition send_disabled (render : State) : bool :=
  loading render || is_empty (trim (input render)).

(** *** Rendering

    The page renders [{msg.content}] of every entry of the history and
    [{errorText}] as React children.  A string or a number is shown; a
    boolean, null and undefined show nothing; an array shows its items.
    Any other object makes the render throw ("Objects are not valid as a
    React child"): the page has no error boundary, so it is unmounted. *)

Fixpoint react_child (v : jsval) : bool :=
  match v with
  | JArr items => forallb react_child items
  | JObj _ => false
  | _ => true
  end.

(** The render of the page with state [s] succeeds.  Where [errorText]
    is falsy, [errorText && ...] is that falsy value, which is a child
    as well. *)
Definition renders (s : State) : bool :=
  forallb (fun m => react_child (content m)) (messages s)
  && react_child (errorText s).

(** *** The event loop

    An async function runs until its next [await]; what remains waits in
    [pending] until the browser settles the awaited promise.  Between two
    events the page is rendered, so a handler sees the React state of the
    moment the event is dispatched.  When the render throws the page is
    unmounted: from then on there is nothing to click or to type in, and
    React drops the state updates of the functions still running, so the
    React state stays the one whose render threw.  The references, the
    browser and the requests of those functions go on as before. *)

Record Task : Type := mkTask {
  task_request : request;
  task_resume : settled task_request -> prog World unit
}.

Arguments mkTask : clear implicits.

Record System : Type := mkSystem { world : World; pending : list Task }.

Fixpoint advance (p : prog World unit) (w : World) : World * option Task :=
  match p with
  | Ret _ | Throw _ => (w, None)
  | Update f k => advance k (f w)
  | Read k => advance (k w) w
  | Await r k => (w, Some (mkTask r k))
  end.

(** The state after a function has run from [w] to [w']: its state
    updates count only if the page was mounted. *)
Definition commit (w w' : World) : World :=
  if renders (ui w) then w' else with_ui (fun _ => ui w) w'.

Definition spawn (p : prog World unit) (w : World) (rest : list Task) : System :=
  match advance p w with
  | (w', Some t) => mkSystem (commit w w') (rest ++ [t])
  | (w', None) => mkSystem (commit w w') rest
  end.

(** How the browser settles a pending promise. *)
Inductive answer : Type :=
| MediaAnswer (o : exn + MediaStream)
| FetchAnswer (o : exn + Response).

Definition resume (t : Task) (a : answer) : option (prog World unit) :=
  match t with
  | mkTask r k =>
      match r as r0 return (settled r0 -> prog World unit) -> option (prog World unit) with
      | GetUserMedia => fun k0 =>
          match a with MediaAnswer o => Some (k0 o) | FetchAnswer _ => None end
      | Fetch _ _ => fun k0 =>
          match a with FetchAnswer o => Some (k0 o) | MediaAnswer _ => None end
      end k
  end.

Inductive event : Type :=
| ClickMic
| ClickSend
| PressEnter
| TypeInput (text : jsstring)
| SelectLanguage (lang : jsstring)
| Settled (i : nat) (a : answer)
| RecorderStopped (id : nat) (data : Blob).

(** The page is on screen: no render has thrown. *)
Definition mounted (sys : System) : bool := renders (ui (world sys)).

(** What the user sees of the state. *)
Definition shown (sys : System) : option State :=
  if mounted sys then Some (ui (world sys)) else None.

(** The events of the user reach a mounted page only. *)
Definition user_event (ev : event) : bool :=
  match ev with
  | ClickMic | ClickSend | PressEnter | TypeInput _ | SelectLanguage _ => true
  | Settled _ _ | RecorderStopped _ _ => false
  end.

Definition step (sys : System) (ev : event) : System :=
  let w := world sys in
  if user_event ev && negb (mounted sys) then sys else
  match ev with
  | ClickMic =>
      if mic_disabled (ui w) then sys
      else spawn (handleToggleRecording (ui w)) w (pending sys)
  | ClickSend =>
      if send_disabled (ui w) then sys
      else spawn (sendMessage (ui w) None) w (pending sys)
  | PressEnter =>
      (* handleKeyDown: Enter without Shift *)
      spawn (sendMessage (ui w) None) w (pending sys)
  | TypeInput text => mkSystem (with_ui (set_input text) w) (pending sys)
  | SelectLanguage lang => mkSystem (with_ui (set_language lang) w) (pending sys)
  | Settled i a =>
      match nth_error (pending sys) i with
      | Some t =>
          match resume t a with
          | Some p => spawn p w (firstn i (pending sys) ++ skipn (S i) (pending sys))
          | None => sys
          end
      | None => sys
      end
  | RecorderStopped id data =>
      match nth_error (recorders (browser w)) id with
      | Some r =>
          if rec_stop_queued r then
            let w1 := with_browser (fun b =>
                        set_recorders
                          (update_nth id (set_rec_state inactive false) (recorders b)) b) w in
            spawn (ondataavailable data ;; onstop (rec_render r)) w1 (pending sys)
          else sys
      | None => sys
      end
  end.

Definition run_events (sys : System) (evs : list event) : System :=
  fold_left step evs sys.

(** The capture sessions that are active: the recorders in state
    [recording]. *)
Definition is_recording (r : MediaRecorder) : bool :=
  match rec_state r with recording => true | inactive => false end.

Definition active_sessions (w : World) : nat :=
  List.length (filter is_recording (recorders (browser w))).

Definition initial_browser : Browser :=
  mkBrowser true true true None None 0%float [] [] 0.

Definition initial_world : World :=
  mkWorld initial_state None None [] None None None initial_browser.

Definition initial_system : System := mkSystem initial_world [].

End ChatPage.


(** ** The recording discipline

    The predicates in which the mutual exclusion of recordings is stated:
    what a program may touch, what a pending task may still do, and what
    holds of the page between two events. *)

Module Recording.
Import ChatPage.

(** What the recording guard depends on. *)
Definition same_recording (w' w : World) : Prop :=
  recorders (browser w') = recorders (browser w)
  /\ mediaRecorderRef w' = mediaRecorderRef w
  /\ isRecording (ui w') = isRecording (ui w).

(** A program that leaves the recorders, [mediaRecorderRef] and
    [isRecording] alone and never asks for the microphone. *)
Inductive quiet {A : Type} : prog World A -> Prop :=
| quiet_Ret (a : A) : quiet (Ret a)
| quiet_Throw (e : exn) : quiet (Throw e)
| quiet_Update (f : World -> World) (k : prog World A) :
    (forall w, same_recording (f w) w) -> quiet k -> quiet (Update f k)
| quiet_Read (k : World -> prog World A) :
    (forall w, quiet (k w)) -> quiet (Read k)
| quiet_Await (url : jsstring) (init : RequestInit)
    (k : settled (Fetch url init) -> prog World A) :
    (forall o, quiet (k o)) -> quiet (Await (Fetch url init) k).

(** [startRecording] has put a recorder to work. *)
Definition granted (w' w : World) : Prop :=
  exists r,
    recorders (browser w') = recorders (browser w) ++ [r]
    /\ rec_state r = recording
    /\ mediaRecorderRef w' = Some (List.length (recorders (browser w)))
    /\ isRecording (ui w') = true.

(** [startRecording] has created a recorder that could not be started:
    it stays inactive, [mediaRecorderRef] holds it and the recording flag
    is as it was. *)
Definition stillborn (w' w : World) : Prop :=
  exists r,
    recorders (browser w') = recorders (browser w) ++ [r]
    /\ rec_state r = inactive
    /\ mediaRecorderRef w' = Some (List.length (recorders (browser w)))
    /\ isRecording (ui w') = isRecording (ui w).

Definition is_media_task (t : Task) : bool :=
  match task_request t with GetUserMedia => true | Fetch _ _ => false end.

Definition media_pending (sys : System) : nat :=
  List.length (filter is_media_task (pending sys)).

(** A pending fetch whose continuation is quiet, or a pending microphone
    request whose continuation ends at once: with nothing changed of the
    recording, with a new recorder at work, or with a new recorder that
    did not start. *)
Definition well_behaved (t : Task) : Prop :=
  match t with
  | mkTask r k =>
      match r as r0 return (settled r0 -> prog World unit) -> Prop with
      | Fetch _ _ => fun k0 => forall o, quiet (k0 o)
      | GetUserMedia => fun k0 =>
          forall o w, exists w',
            advance (k0 o) w = (w', None)
            /\ (same_recording w' w \/ granted w' w \/ stillborn w' w)
      end k
  end.

Record recording_invariant (sys : System) : Prop := mkInv {
  inv_tasks : Forall well_behaved (pending sys);
  inv_one : media_pending sys + active_sessions (world sys) <= 1;
  inv_ref : forall i r,
    nth_error (recorders (browser (world sys))) i = Some r ->
    rec_state r = recording ->
    mediaRecorderRef (world sys) = Some i
    /\ (mounted sys = true -> isRecording (ui (world sys)) = true)
}.

(** What [startRecording] leaves when the microphone is granted, by what
    the browser makes of [new MediaRecorder(stream)] and of
    [recorder.start()]. *)
Definition after_grant (render : State) (stream : MediaStream) (w' w0 : World)
  : Prop :=
  mediaStreamRef w' = Some stream
  /\ audioChunksRef w' = []
  /\ ended_streams (browser w') = ended_streams (browser w0)
  /\ messages (ui w') = messages (ui w0)
  /\ errorText (ui w') = errorText (ui w0)
  /\ match MediaRecorder_throws (browser w0), start_throws (browser w0) with
     | None, None =>
         recorders (browser w')
         = recorders (browser w0) ++ [mkRecorder stream recording false render]
         /\ mediaRecorderRef w' = Some (List.length (recorders (browser w0)))
         /\ isRecording (ui w') = true
         /\ recordingError (ui w') = recordingError (ui w0)
     | None, Some e =>
         recorders (browser w')
         = recorders (browser w0) ++ [mkRecorder stream inactive false render]
         /\ mediaRecorderRef w' = Some (List.length (recorders (browser w0)))
         /\ isRecording (ui w') = isRecording (ui w0)
         /\ recordingError (ui w') = microphone_error (exn_name e)
     | Some e, _ =>
         same_recording w' w0
         /\ recordingError (ui w') = microphone_error (exn_name e)
     end.

(** Every click on the microphone button comes when no microphone
    request is pending. *)
Fixpoint patient (sys : System) (evs : list event) : Prop :=
  match evs with
  | [] => True
  | ev :: rest =>
      (ev = ClickMic -> media_pending sys = 0) /\ patient (step sys ev) rest
  end.

End Recording.

(** ** Scenarios

    Concrete environments and requests on which the handlers and the page
    are run. *)

Module Scenarios.

(** A chat backend that answers every request with
    [{ message: { content } }]. *)
Definition replying (content : string) : oracle :=
  always
    (inr (mkResponse 200 None
            (Some (JObj [(js "message", JObj [(js "content", JStr (js content))])]))))
    (inl (Error "no microphone")).

(** A speech backend that answers every request with [{ text }]. *)
Definition transcribing_backend (text : string) : oracle :=
  always (inr (mkResponse 200 None (Some (JObj [(js "text", JStr (js text))]))))
         (inl (Error "no microphone")).

(** A network on which every fetch is rejected. *)
Definition offline : oracle :=
  always (inl (TypeError "Failed to fetch")) (inl (Error "no microphone")).

(** A server that answers every fetch with status [st] and body [body]. *)
Definition answering (st : N) (body : jsval) : oracle :=
  always (inr (mkResponse st None (Some body))) (inl (Error "no microphone")).

(** A ToString that throws on everything but strings. *)
Definition no_ToString (v : jsval) : exn + jsstring :=
  inl (TypeError "Cannot convert object to primitive value").

Definition chat_env : ChatRelay.Env :=
  ChatRelay.mkEnv (Some (js "http://localhost:11434")) None.

Definition asr_env : AsrRelay.Env :=
  AsrRelay.mkEnv (Some (js "http://localhost:9000/transcribe")).

Definition clip : Blob := mkBlob [26; 69; 223; 163]%N (js "audio/webm").

(** The first render of the page with [text] typed in the text box. *)
Definition typing (text : string) : ChatPage.State :=
  ChatPage.set_input (js text) ChatPage.initial_state.

End Scenarios.

(** ** The keyboard and the indicators of the page *)

Module Keyboard.
Import ChatPage.

(** [handleKeyDown]: use Enter to send, Shift + Enter for a new line.
    The first component tells whether [e.preventDefault()] was called,
    the second is what the handler starts ([sendMessage()] is not
    awaited). *)
Definition handleKeyDown (render : State) (key : jsstring) (shiftKey : bool)
  : bool * prog World unit :=
  if str_eqb key (js "Enter") && negb shiftKey
  then (true, sendMessage render None)
  else (false, Ret tt).

(** A key pressed in the text box, as an event of the page: there is a
    text box on a mounted page only. *)
Definition keydown (sys : System) (key : jsstring) (shiftKey : bool) : System :=
  if mounted sys
  then spawn (snd (handleKeyDown (ui (world sys)) key shiftKey))
         (world sys) (pending sys)
  else sys.

(** [showThinking]. *)
Definition showThinking (render : State) : bool :=
  loading render || isTranscribing render.

End Keyboard.

(** ** The page of the second copy

    The copy of [app/page.tsx] that goes with the second copy of the
    Transcription Relay uploads the clip under the field [file]. *)

Module ChatPageFile.
Import ChatPage.

Definition asr_request (blob : Blob) : request :=
  Fetch ASR_ROUTE
    (mkInit (js "POST") [] (BodyForm [(js "file", FFile blob (js "audio.webm"))])).

Definition transcribeAudio (blob : Blob) : prog World jsstring :=
  setRecordingError [] ;;
  setIsTranscribing true ;;
  try_finally
    (try_catch
       (res <- await (asr_request blob) ;;
        if negb (res_ok res) then
          Throw (Error "ASR request failed")
        else
          data <- settle (res_json res) (SyntaxError "Unexpected token") ;;
          text <- (if is_nullish data
                   then Throw (TypeError "Cannot read properties of null")
                   else if is_nullish (get data (js "text")) then Ret []
                   else call_trim (get data (js "text"))) ;;
          if is_empty text then Throw (Error "Empty transcription")
          else Ret text)
       (fun err => setRecordingError VOICE_FAILED ;; Ret []))
    (setIsTranscribing false).

End ChatPageFile.

(** ** From the page to the relays

    What a route handler receives of a request the page makes.  A form
    arrives as it was built.  A JSON body is [JSON.stringify] of an
    object; for an object whose properties hold strings or undefined,
    parsing it back gives the object without its undefined properties. *)

Module Wire.

Definition is_undefined (v : jsval) : bool :=
  match v with JUndefined => true | _ => false end.

Definition drop_undefined (fs : list (jsstring * jsval)) : list (jsstring * jsval) :=
  filter (fun kv => negb (is_undefined (snd kv))) fs.

Definition flat (fs : list (jsstring * jsval)) : bool :=
  forallb (fun kv => match snd kv with JStr _ | JUndefined => true | _ => false end) fs.

Definition received (r : request) : option NextRequest :=
  match r with
  | Fetch _ init =>
      match init_body init with
      | BodyForm f => Some (ReqForm f)
      | BodyJSON (JObj fs) =>
          if flat fs then Some (ReqJSON (JObj (drop_undefined fs))) else None
      | BodyJSON _ => None
      end
  | GetUserMedia => None
  end.

(** The response the page gets carries what the handler answered: its
    status, and its payload as the JSON of the body. *)
Definition carries (res : Response) (answer : NextResponse) : Prop :=
  res_status res = status answer /\ res_json res = Some (payload answer).

End Wire.

(** ** The conversation history

    The predicates in which the shape of the history is stated. *)

Module History.
Import ChatPage.

(** The content of an entry is truthy; a user entry holds a string that
    is not empty and has no white space at its ends.  (An assistant entry
    holds whatever truthy value the reply was: a string as a rule, but a
    number, [true] or an array all the same.) *)
Definition well_formed (m : ChatMessage) : Prop :=
  truthy (content m) = true
  /\ (role m = user ->
      exists s, content m = JStr s /\ s <> [] /\ trim s = s).

(** The history of [w'] is the history of [w] with well-formed entries
    after it. *)
Definition grows (w' w : World) : Prop :=
  exists rest,
    messages (ui w') = messages (ui w) ++ rest /\ Forall well_formed rest.

(** A program all of whose state updates are in relation [R] with the
    state they start from. *)
Inductive steady (R : World -> World -> Prop) {A : Type} : prog World A -> Prop :=
| steady_Ret (a : A) : steady R (Ret a)
| steady_Throw (e : exn) : steady R (Throw e)
| steady_Update (f : World -> World) (k : prog World A) :
    (forall w, R (f w) w) -> steady R k -> steady R (Update f k)
| steady_Read (k : World -> prog World A) :
    (forall w, steady R (k w)) -> steady R (Read k)
| steady_Await (r : request) (k : settled r -> prog World A) :
    (forall o, steady R (k o)) -> steady R (Await r k).

Definition steady_task (R : World -> World -> Prop) (t : Task) : Prop :=
  forall o, steady R (task_resume t o).

(** Every pending task keeps the history growing. *)
Definition steady_system (sys : System) : Prop :=
  Forall (steady_task grows) (pending sys).



End History.

(** ** More scenarios *)

Module MoreScenarios.

Definition hello_body : jsval := JObj [(js "message", JStr (js "hello"))].

(** A server whose answers carry a text body and no JSON. *)
Definition answering_text (st : N) (text : string) : oracle :=
  always (inr (mkResponse st (Some (js text)) None)) (inl (Error "no microphone")).

(** A server that answers within 200-299 with a body that is not JSON. *)
Definition garbled : oracle :=
  always (inr (mkResponse 200 (Some (js "<html>")) None)) (inl (Error "no microphone")).

(** The first render of the page on an origin that is not secure. *)
Definition insecure_world : ChatPage.World :=
  ChatPage.with_browser
    (fun b => ChatPage.mkBrowser false (ChatPage.hasGetUserMedia b)
                (ChatPage.hasAudioContext b) (ChatPage.MediaRecorder_throws b)
                (ChatPage.start_throws b) (ChatPage.analyser_level b)
                (ChatPage.recorders b) (ChatPage.ended_streams b)
                (ChatPage.next_frame b))
    ChatPage.initial_world.

End MoreScenarios.

(** * Properties *)

(** ** Trimming *)

Module JsStringFacts.

Lemma trimStart_split (s : jsstring) :
  exists pre, s = pre ++ trimStart s /\ forallb is_white_space pre = true.
Proof.
  induction s as [|c r IH]; simpl.
  - exists []. split; reflexivity.
  - destruct (is_white_space c) eqn:Hc.
    + destruct IH as [pre [Heq Hws]].
      exists (c :: pre). simpl. rewrite Hc, Hws. split; [congruence | reflexivity].
    + exists []. split; reflexivity.
Qed.

Lemma trimStart_no_leading (s : jsstring) : no_leading_space (trimStart s).
Proof.
  induction s as [|c r IH]; simpl; [exact I|].
  destruct (is_white_space c) eqn:Hc; [exact IH | simpl; exact Hc].
Qed.

Lemma trimStart_fixed (s : jsstring) : no_leading_space s -> trimStart s = s.
Proof.
  destruct s as [|c r]; simpl; [reflexivity|]. intros ->. reflexivity.
Qed.

Lemma trimEnd_split (s : jsstring) :
  exists post, s = trimEnd s ++ post /\ forallb is_white_space post = true.
Proof.
  unfold trimEnd. destruct (trimStart_split (rev s)) as [pre [Heq Hws]].
  exists (rev pre). split.
  - rewrite <- rev_app_distr, <- Heq, rev_involutive. reflexivity.
  - rewrite forallb_forall in *. intros x Hx. apply Hws, in_rev, Hx.
Qed.

Lemma trimEnd_no_trailing (s : jsstring) : no_trailing_space (trimEnd s).
Proof.
  unfold no_trailing_space, trimEnd. rewrite rev_involutive.
  apply trimStart_no_leading.
Qed.

Lemma trimEnd_keeps_head (s : jsstring) :
  no_leading_space s -> no_leading_space (trimEnd s).
Proof.
  intros Hs. destruct (trimEnd_split s) as [post [Heq _]].
  destruct (trimEnd s) as [|c r]; [exact I|].
  rewrite Heq in Hs. exact Hs.
Qed.

Lemma trimEnd_fixed (s : jsstring) : no_trailing_space s -> trimEnd s = s.
Proof.
  unfold no_trailing_space, trimEnd. intros H.
  rewrite (trimStart_fixed _ H). apply rev_involutive.
Qed.

(** What [trim] removes is white space, and nothing but white space is
    left at either end. *)
Lemma trim_spec (s : jsstring) :
  exists pre post,
    s = pre ++ trim s ++ post
    /\ forallb is_white_space pre = true
    /\ forallb is_white_space post = true
    /\ no_leading_space (trim s)
    /\ no_trailing_space (trim s).
Proof.
  destruct (trimStart_split s) as [pre [Hs Hpre]].
  destruct (trimEnd_split (trimStart s)) as [post [Ht Hpost]].
  exists pre, post. unfold trim. repeat split; try assumption.
  - rewrite <- Ht. exact Hs.
  - apply trimEnd_keeps_head, trimStart_no_leading.
  - apply trimEnd_no_trailing.
Qed.

Lemma trim_idempotent (s : jsstring) : trim (trim s) = trim s.
Proof.
  destruct (trim_spec s) as [_ [_ [_ [_ [_ [Hl Ht]]]]]].
  unfold trim at 1. rewrite (trimStart_fixed _ Hl). apply trimEnd_fixed, Ht.
Qed.

Lemma trim_blank (s : jsstring) :
  forallb is_white_space s = true -> trim s = [].
Proof.
  intros H. assert (Hs : trimStart s = []).
  { induction s as [|c r IH]; simpl in *; [reflexivity|].
    apply andb_prop in H. destruct H as [Hc Hr]. rewrite Hc. exact (IH Hr). }
  unfold trim. rewrite Hs. reflexivity.
Qed.

Lemma trim_empty_blank (s : jsstring) :
  trim s = [] -> forallb is_white_space s = true.
Proof.
  intros H. destruct (trim_spec s) as [pre [post [Heq [Hpre [Hpost _]]]]].
  rewrite H in Heq. simpl in Heq. rewrite Heq, forallb_app, Hpre, Hpost.
  reflexivity.
Qed.

Example trim_hello : trim (js "  hello  ") = js "hello".
Proof. reflexivity. Qed.

Example trim_wide_space : trim (js "　hello ") = js "hello".
Proof. vm_compute. reflexivity. Qed.

End JsStringFacts.

(** ** The Chat Relay *)

Module ChatRelayFacts.
Import ChatRelay Scenarios.

Section Facts.

Variable ToString_nonstring : jsval -> exn + jsstring.
Variable world : oracle.


(** Whatever the request and the backend do, the handler answers. *)
Lemma chat_POST_total (env : Env) (req : NextRequest) :
  exists res log, handle ToString_nonstring world env req = (inr res, log).
Proof.
  unfold handle, POST.
  destruct req as [body| |]; simpl; eauto.
  destruct (is_nullish body); simpl; eauto.
  destruct (negb (truthy (get body (js "message")))
            || negb (is_string (get body (js "message")))); simpl; eauto.
  destruct (LLM_SERVER_URL env) as [[|c url]|]; simpl; eauto.
  destruct (languageHint _ _) as [e|h]; simpl; eauto.
  destruct (world _ _) as [e|res]; simpl; eauto.
  destruct (negb (res_ok res)); simpl.
  - destruct (res_text res); simpl; eauto.
  - destruct (res_json res); simpl; eauto.
Qed.

(** A [message] that is a non-empty string passes validation; with a
    backend address exactly one request goes out, built from the hint. *)
Lemma POST_sends (env : Env) (body : jsval) (m url hint : jsstring) :
  get body (js "message") = JStr m ->
  m <> [] ->
  LLM_SERVER_URL env = Some url ->
  url <> [] ->
  languageHint ToString_nonstring (get body (js "language")) = inr hint ->
  snd (handle ToString_nonstring world env (ReqJSON body))
  = [chat_request url (chat_payload (model_name env) hint (JStr m))].
Proof.
  intros Hm Hne Hurl Hu Hh.
  assert (Hb : is_nullish body = false) by (destruct body; simpl in *; congruence).
  unfold handle, POST. simpl.
  rewrite Hb, Hm, Hurl. destruct m as [|c m]; [congruence|].
  destruct url as [|u url]; [congruence|]. simpl.
  rewrite Hh. simpl.
  destruct (world _ _) as [e|res]; simpl; [reflexivity|].
  destruct (negb (res_ok res)); simpl.
  - destruct (res_text res); reflexivity.
  - destruct (res_json res); reflexivity.
Qed.

(** C2, as amended: a request whose body is JSON other than null and
    whose [message] is missing (it reads as undefined) or is not a string
    is answered with status 400 and the error "Missing message", and no
    request is made to the backend. *)
Theorem missing_message_is_bad_request (env : Env) (body : jsval) :
  is_nullish body = false ->
  is_string (get body (js "message")) = false ->
  handle ToString_nonstring world env (ReqJSON body)
  = (inr (mkNextResponse 400 (JObj [(js "error", JStr (js "Missing message"))])), []).
Proof.
  intros Hb Hs. unfold handle, POST. simpl.
  rewrite Hb, Hs, orb_true_r. reflexivity.
Qed.

(** C1, as amended: for a request whose [message] is a non-empty string,
    with a backend address configured and a language hint [hint] computed
    from its [language] field, exactly one request is sent to the
    chat-completion service.  Its [stream] is false and its [messages]
    are the system message (persona prompt, blank line, hint), the six
    few-shot messages, alternating user and assistant, and the caller's
    message as the last user turn. *)
Theorem chat_request_shape (env : Env) (body : jsval) (m url hint : jsstring) :
  get body (js "message") = JStr m ->
  m <> [] ->
  LLM_SERVER_URL env = Some url ->
  url <> [] ->
  languageHint ToString_nonstring (get body (js "language")) = inr hint ->
  exists payload,
    snd (handle ToString_nonstring world env (ReqJSON body))
    = [Fetch (url ++ js "/api/chat")
         (mkInit (js "POST") [(js "Content-Type", js "application/json")]
            (BodyJSON payload))]
    /\ get payload (js "stream") = JBool false
    /\ get payload (js "messages")
       = JArr (chat_message (js "system") (SYSTEM_PROMPT ++ nl ++ nl ++ hint)
               :: fewShotMessages
               ++ [chat_message (js "user") m])
    /\ map (fun v => get v (js "role")) fewShotMessages
       = [JStr (js "user"); JStr (js "assistant");
          JStr (js "user"); JStr (js "assistant");
          JStr (js "user"); JStr (js "assistant")].
Proof.
  intros Hm Hne Hurl Hu Hh.
  exists (chat_payload (model_name env) hint (JStr m)).
  split; [| split; [| split]]; try reflexivity.
  exact (POST_sends env body Hm Hne Hurl Hu Hh).
Qed.



End Facts.

(** The specification's example: the reply of the backend is relayed. *)
Example relay_reply :
  handle no_ToString (replying "Bill higher because of extra data.") chat_env
    (ReqJSON (JObj [(js "message", JStr (js "Why my bill so high one?"))]))
  = (inr (mkNextResponse 200
            (JObj [(js "reply", JStr (js "Bill higher because of extra data."))])),
     [chat_request (js "http://localhost:11434")
        (chat_payload (js "qwen2.5:7b") AUTO_DETECT_HINT
           (JStr (js "Why my bill so high one?")))]).
Proof. vm_compute. reflexivity. Qed.

(** C2, as stated, fails: a request whose body is JSON null, is empty or
    is not JSON has no [message], yet it is answered with status 500.
    The handler throws before it looks at [message], in [req.json()] or
    in the destructuring of null, and its catch-all answers. *)
Lemma null_body_is_internal_error :
  handle no_ToString (replying "ok") chat_env (ReqJSON JNull)
  = (inr (mkNextResponse 500 (JObj [(js "error", JStr (js "Internal server error"))])),
     [])
  /\ handle no_ToString (replying "ok") chat_env ReqOther
     = (inr (mkNextResponse 500
               (JObj [(js "error", JStr (js "Internal server error"))])),
        []).
Proof. split; reflexivity. Qed.

Lemma missing_message_is_bad_request_witness :
  handle no_ToString (replying "ok") chat_env
    (ReqJSON (JObj [(js "language", JStr (js "hokkien"))]))
  = (inr (mkNextResponse 400 (JObj [(js "error", JStr (js "Missing message"))])), []).
Proof.
  apply (missing_message_is_bad_request no_ToString (replying "ok") chat_env
           (JObj [(js "language", JStr (js "hokkien"))])); reflexivity.
Defined.

(** C1, as stated, fails: the empty string is a string, yet a request
    that carries it is answered with status 400 and nothing is sent. *)
Lemma empty_message_sends_nothing :
  is_string (get (JObj [(js "message", JStr [])]) (js "message")) = true
  /\ LLM_SERVER_URL chat_env = Some (js "http://localhost:11434")
  /\ handle no_ToString (replying "ok") chat_env
       (ReqJSON (JObj [(js "message", JStr [])]))
     = (inr (mkNextResponse 400 (JObj [(js "error", JStr (js "Missing message"))])), []).
Proof. repeat split. Qed.

Lemma chat_request_shape_witness :
  exists payload,
    snd (handle no_ToString (replying "ok") chat_env
           (ReqJSON (JObj [(js "message", JStr (js "Why my bill so high one?"));
                           (js "language", JStr (js "hokkien"))])))
    = [Fetch (js "http://localhost:11434" ++ js "/api/chat")
         (mkInit (js "POST") [(js "Content-Type", js "application/json")]
            (BodyJSON payload))]
    /\ get payload (js "stream") = JBool false
    /\ get payload (js "messages")
       = JArr (chat_message (js "system")
                 (SYSTEM_PROMPT ++ nl ++ nl ++ selected_hint (js "hokkien"))
               :: fewShotMessages
               ++ [chat_message (js "user") (js "Why my bill so high one?")])
    /\ map (fun v => get v (js "role")) fewShotMessages
       = [JStr (js "user"); JStr (js "assistant");
          JStr (js "user"); JStr (js "assistant");
          JStr (js "user"); JStr (js "assistant")].
Proof.
  apply (chat_request_shape no_ToString (replying "ok") chat_env
           (JObj [(js "message", JStr (js "Why my bill so high one?"));
                  (js "language", JStr (js "hokkien"))])).
  - reflexivity.
  - vm_compute. discriminate.
  - reflexivity.
  - vm_compute. discriminate.
  - reflexivity.
Defined.


(** An unlisted language on its way: the hint line of the system message
    names it. *)
Example klingon_is_relayed :
  exists payload,
    snd (handle no_ToString (replying "ok") chat_env
           (ReqJSON (JObj [(js "message", JStr (js "hello"));
                           (js "language", JStr (js "klingon"))])))
    = [Fetch (js "http://localhost:11434/api/chat")
         (mkInit (js "POST") [(js "Content-Type", js "application/json")]
            (BodyJSON payload))]
    /\ get payload (js "messages")
       = JArr (chat_message (js "system")
                 (SYSTEM_PROMPT ++ nl ++ nl
                  ++ js "User selected language/dialect: klingon. Reply in this language or dialect if possible.")
               :: fewShotMessages
               ++ [chat_message (js "user") (js "hello")]).
Proof.
  exists (chat_payload (js "qwen2.5:7b") (selected_hint (js "klingon"))
            (JStr (js "hello"))).
  split; vm_compute; reflexivity.
Qed.

End ChatRelayFacts.

(** ** The Transcription Relay *)

Module AsrRelayFacts.
Import AsrRelay JsStringFacts Scenarios.

(** Whatever the request and the backend do, the handler answers. *)
Lemma asr_POST_total (world : oracle) (env : Env) (req : NextRequest) :
  exists res log, handle world env req = (inr res, log).
Proof.
  unfold handle, POST.
  destruct (ASR_SERVER_URL env) as [[|c url]|]; simpl; eauto.
  destruct req as [v|f|]; simpl; eauto.
  destruct (form_get (js "audio") f) as [[[|c0 t]|b name]|]; simpl; eauto.
  destruct (world _ _) as [e|res]; simpl; eauto.
  destruct (negb (res_ok res)); simpl; eauto.
  destruct (negb (truthy _) || negb (is_string _)); simpl; eauto.
  destruct (get _ _); simpl; eauto.
Qed.

(** A request without a usable audio field never reaches the backend. *)
Lemma no_blob_no_call (world : oracle) (env : Env) (form : FormData) :
  (forall b name, form_get (js "audio") form <> Some (FFile b name)) ->
  snd (handle world env (ReqForm form)) = [].
Proof.
  intros Hno. unfold handle, POST.
  destruct (ASR_SERVER_URL env) as [[|c url]|]; simpl; try reflexivity.
  destruct (form_get (js "audio") form) as [[[|c0 t]|b name]|]; simpl;
    try reflexivity.
  exfalso. exact (Hno b name eq_refl).
Qed.

(** An absent audio field is a bad request. *)
Lemma missing_audio_is_bad_request (world : oracle) (env : Env) (form : FormData)
  (url : jsstring) :
  ASR_SERVER_URL env = Some url -> url <> [] ->
  form_get (js "audio") form = None ->
  handle world env (ReqForm form)
  = (inr (mkNextResponse 400 (JObj [(js "error", JStr (js "Missing audio file"))])), []).
Proof.
  intros Hurl Hne Hnone. unfold handle, POST. rewrite Hurl.
  destruct url as [|c url]; [congruence|]. simpl. rewrite Hnone. reflexivity.
Qed.

(** C3, as amended: the handler of [app/api/asr/route.ts].  When the
    request carries an audio file, the backend address is configured and
    the backend answers with a success status and a JSON body whose
    [text] is a string [t], the relay answers 200 with
    [{ text: t.trim() }], after one request to the backend; the trimmed
    text is [t] without the white space at its two ends. *)
Theorem transcription_is_trimmed (world : oracle) (env : Env) (form : FormData)
  (url : jsstring) (b : Blob) (name : jsstring) (res : Response) (data : jsval)
  (t : jsstring) :
  ASR_SERVER_URL env = Some url -> url <> [] ->
  form_get (js "audio") form = Some (FFile b name) ->
  world (asr_request url [(js "file", FFile b (js "input.webm"))]) [] = inr res ->
  res_ok res = true ->
  res_json res = Some data ->
  get data (js "text") = JStr t ->
  handle world env (ReqForm form)
  = (inr (mkNextResponse 200 (JObj [(js "text", JStr (trim t))])),
     [asr_request url [(js "file", FFile b (js "input.webm"))]])
  /\ exists pre post,
       t = pre ++ trim t ++ post
       /\ forallb is_white_space pre = true
       /\ forallb is_white_space post = true
       /\ no_leading_space (trim t)
       /\ no_trailing_space (trim t).
Proof.
  intros Hurl Hne Haudio Hworld Hok Hjson Htext. split; [|apply trim_spec].
  assert (Hd : truthy data = true) by (destruct data; simpl in *; congruence).
  unfold handle, POST. rewrite Hurl.
  destruct url as [|c url]; [congruence|]. simpl.
  rewrite Haudio. simpl. rewrite Hworld. simpl.
  rewrite Hok, Hjson. simpl. rewrite Hd, Htext. reflexivity.
Qed.

(** The specification's example: [{ text: "  hello  " }] from the backend
    is relayed as [{ text: "hello" }]. *)
Lemma transcription_is_trimmed_witness :
  handle (transcribing_backend "  hello  ") asr_env
    (ReqForm [(js "audio", FFile clip (js "audio.webm"))])
  = (inr (mkNextResponse 200 (JObj [(js "text", JStr (trim (js "  hello  ")))])),
     [asr_request (js "http://localhost:9000/transcribe")
        [(js "file", FFile clip (js "input.webm"))]])
  /\ exists pre post,
       js "  hello  " = pre ++ trim (js "  hello  ") ++ post
       /\ forallb is_white_space pre = true
       /\ forallb is_white_space post = true
       /\ no_leading_space (trim (js "  hello  "))
       /\ no_trailing_space (trim (js "  hello  ")).
Proof.
  apply (@transcription_is_trimmed (transcribing_backend "  hello  ") asr_env
           [(js "audio", FFile clip (js "audio.webm"))]
           (js "http://localhost:9000/transcribe") clip (js "audio.webm")
           (mkResponse 200 None (Some (JObj [(js "text", JStr (js "  hello  "))])))
           (JObj [(js "text", JStr (js "  hello  "))]) (js "  hello  ")).
  - reflexivity.
  - vm_compute. discriminate.
  - reflexivity.
  - reflexivity.
  - reflexivity.
  - reflexivity.
  - reflexivity.
Defined.

Example hello_is_relayed :
  handle (transcribing_backend "  hello  ") asr_env
    (ReqForm [(js "audio", FFile clip (js "audio.webm"))])
  = (inr (mkNextResponse 200 (JObj [(js "text", JStr (js "hello"))])),
     [asr_request (js "http://localhost:9000/transcribe")
        [(js "file", FFile clip (js "input.webm"))]]).
Proof. vm_compute. reflexivity. Qed.

(** C3, as stated, fails on the second copy of the handler: it relays
    the text of the backend as it comes, so [{ text: "  hello  " }] is
    answered [{ text: "  hello  " }]. *)
Lemma second_copy_does_not_trim :
  AsrRelayFile.handle (transcribing_backend "  hello  ") asr_env
    (ReqForm [(js "file", FFile clip (js "audio.webm"))])
  = (inr (mkNextResponse 200 (JObj [(js "text", JStr (js "  hello  "))])),
     [asr_request (js "http://localhost:9000/transcribe")
        [(js "file", FFile clip (js "audio.webm"))]])
  /\ js "  hello  " <> js "hello".
Proof. split; [vm_compute; reflexivity | vm_compute; discriminate]. Qed.

(** A text value in the [audio] field that is not empty is answered with
    status 500, and nothing is sent. *)
Lemma text_audio_is_internal_error (world : oracle) (env : Env) (form : FormData)
  (url : jsstring) (c : N) (t : jsstring) :
  ASR_SERVER_URL env = Some url -> url <> [] ->
  form_get (js "audio") form = Some (FText (c :: t)) ->
  handle world env (ReqForm form)
  = (inr (mkNextResponse 500
            (JObj [(js "error", JStr (js "Internal server error in /api/asr"))])),
     []).
Proof.
  intros Hurl Hne Haudio. unfold handle, POST. rewrite Hurl.
  destruct url as [|u url]; [congruence|]. simpl. rewrite Haudio. reflexivity.
Qed.

(** The second copy of the handler has the test this one lacks: whatever
    its field [file] holds that is not a file, it answers 400 and sends
    nothing. *)
Lemma file_field_is_checked (world : oracle) (env : Env) (form : FormData)
  (url : jsstring) :
  ASR_SERVER_URL env = Some url -> url <> [] ->
  (forall b name, form_get (js "file") form <> Some (FFile b name)) ->
  AsrRelayFile.handle world env (ReqForm form)
  = (inr (mkNextResponse 400
            (JObj [(js "error", JStr (js "Missing audio file in 'file' field"))])),
     []).
Proof.
  intros Hurl Hne Hno. unfold AsrRelayFile.handle, AsrRelayFile.POST. rewrite Hurl.
  destruct url as [|u url]; [congruence|]. simpl.
  destruct (form_get (js "file") form) as [[t|b name]|]; try reflexivity.
  exfalso. exact (Hno b name eq_refl).
Qed.

(** C4 fails on the code: with the backend address configured, an
    [audio] field that holds plain text passes the [!audio] test, the
    three-argument [append] throws, and the handler answers 500 "Internal
    server error in /api/asr" where the claim has 400.  The backend is
    not called. *)
Theorem text_audio_field_is_internal_error :
  handle (transcribing_backend "hello") asr_env
    (ReqForm [(js "audio", FText (js "hello"))])
  = (inr (mkNextResponse 500
            (JObj [(js "error", JStr (js "Internal server error in /api/asr"))])),
     []).
Proof. vm_compute. reflexivity. Qed.

End AsrRelayFacts.

(** ** The chat page *)

Module ChatPageFacts.
Import ChatPage Recording JsStringFacts Scenarios.

Lemma is_empty_false (s : jsstring) : s <> [] -> is_empty s = false.
Proof. destruct s; [congruence | reflexivity]. Qed.

Lemma is_empty_true (s : jsstring) : is_empty s = true -> s = [].
Proof. destruct s; [reflexivity | discriminate]. Qed.

Lemma or_else_truthy (a b : jsval) : truthy b = true -> truthy (or_else a b) = true.
Proof. intros Hb. unfold or_else. destruct (truthy a) eqn:Ha; assumption. Qed.

Lemma messages_distinct :
  NETWORK_FAILED <> SERVER_BUSY
  /\ NETWORK_FAILED <> VOICE_FAILED
  /\ SERVER_BUSY <> VOICE_FAILED.
Proof. repeat split; vm_compute; discriminate. Qed.

(** Case analysis on everything a chat request can come back with. *)
Ltac chat_outcomes world req log :=
  let e := fresh "e" in
  let res := fresh "res" in
  let data := fresh "data" in
  destruct (world req log) as [e|res]; simpl;
  [ | destruct (negb (res_ok res)); simpl;
      [ | destruct (res_json res) as [data|]; simpl;
          [ destruct (is_nullish data); simpl | ] ] ].

(** An accepted submission makes exactly one chat request, appends the
    user entry at once and ends with the loading flag down. *)
Lemma submit_sends (world : oracle) (render : State)
  (overrideText : option jsstring) (w : World) (log : list request) :
  trim (submitted render overrideText) <> [] ->
  loading render = false ->
  exists w',
    run world (sendMessage render overrideText) w log
    = (inr tt, w',
       log ++ [chat_request (trim (submitted render overrideText)) (language render)])
    /\ loading (ui w') = false
    /\ exists rest,
         messages (ui w')
         = messages (ui w)
           ++ mkMessage user (JStr (trim (submitted render overrideText))) :: rest.
Proof.
  intros Hc Hl. unfold sendMessage. fold (submitted render overrideText).
  rewrite (is_empty_false Hc), Hl. simpl.
  set (req := chat_request _ _).
  destruct overrideText as [[|c t]|]; simpl; chat_outcomes world req log;
    eexists; (split; [reflexivity|]); (split; [reflexivity|]);
    eexists; simpl; try rewrite <- app_assoc; reflexivity.
Qed.

(** The guard of [sendMessage]: a call whose text
    ([overrideText ?? input]) is empty or only white space, or whose
    loading flag is up, does nothing: the state is the one before the
    call and no request is made.  The flag is the one the closure holds,
    that of the render that made it; it is not the flag of the page at
    the time of the call. *)
Lemma blank_or_busy_submit_is_noop (world : oracle) (render : State)
  (overrideText : option jsstring) (w : World) (log : list request) :
  forallb is_white_space (submitted render overrideText) = true
  \/ loading render = true ->
  run world (sendMessage render overrideText) w log = (inr tt, w, log).
Proof.
  intros H. unfold sendMessage. fold (submitted render overrideText).
  destruct H as [Hblank | Hbusy].
  - rewrite (trim_blank _ Hblank). reflexivity.
  - rewrite Hbusy, orb_true_r. reflexivity.
Qed.

(** Case analysis on everything a transcription request can come back
    with. *)
Ltac asr_outcomes world req log res data t :=
  let e := fresh "e" in
  let Hworld := fresh "Hworld" in
  let Hok := fresh "Hok" in
  let Hjson := fresh "Hjson" in
  let Hnull := fresh "Hnull" in
  let Htext := fresh "Htext" in
  let Htrim := fresh "Htrim" in
  destruct (world req log) as [e|res] eqn:Hworld; simpl;
  [ | destruct (res_ok res) eqn:Hok; simpl;
      [ destruct (res_json res) as [data|] eqn:Hjson; simpl;
        [ destruct (is_nullish data) eqn:Hnull; simpl;
          [ | destruct (get data (js "text")) as [ | | ? | ? |t| ? | ? ] eqn:Htext;
              simpl;
              [ | | | | destruct (trim t) eqn:Htrim; simpl | | ] ]
        | ]
      | ] ].

(** C5, as amended: a chat request that fails on the network shows
    "Network request failed. ...", a chat response outside 200-299 shows
    the error text it carries or else "Server is busy. ...", and an empty
    transcription shows "Voice recognition failed. ..."; the three fixed
    texts differ from one another.  A transcription request that fails on
    the network or is answered outside 200-299 shows the same text as an
    empty transcription. *)
Theorem failure_messages (world : oracle) (render : State)
  (overrideText : option jsstring) (blob : Blob) (w : World) (log : list request) :
  trim (submitted render overrideText) <> [] ->
  loading render = false ->
  (forall e,
     world (chat_request (trim (submitted render overrideText)) (language render)) log
     = inl e ->
     errorText (ui (final_state (run world (sendMessage render overrideText) w log)))
     = JStr NETWORK_FAILED)
  /\ (forall res,
        world (chat_request (trim (submitted render overrideText)) (language render)) log
        = inr res ->
        res_ok res = false ->
        errorText (ui (final_state (run world (sendMessage render overrideText) w log)))
        = or_else (get_opt (match res_json res with Some d => d | None => JObj [] end)
                     (js "error"))
            (JStr SERVER_BUSY))
  /\ (forall res data t,
        world (asr_request blob) log = inr res ->
        res_ok res = true ->
        res_json res = Some data ->
        get data (js "text") = JStr t ->
        trim t = [] ->
        recordingError (ui (final_state (run world (transcribeAudio blob) w log)))
        = VOICE_FAILED)
  /\ (forall e,
        world (asr_request blob) log = inl e ->
        recordingError (ui (final_state (run world (transcribeAudio blob) w log)))
        = VOICE_FAILED)
  /\ (forall res,
        world (asr_request blob) log = inr res ->
        res_ok res = false ->
        recordingError (ui (final_state (run world (transcribeAudio blob) w log)))
        = VOICE_FAILED)
  /\ NETWORK_FAILED <> SERVER_BUSY
  /\ NETWORK_FAILED <> VOICE_FAILED
  /\ SERVER_BUSY <> VOICE_FAILED.
Proof.
  intros Hc Hl.
  split; [| split; [| split; [| split; [| split; [| exact messages_distinct]]]]].
  - intros e He. unfold sendMessage. fold (submitted render overrideText).
    rewrite (is_empty_false Hc), Hl.
    remember (trim (submitted render overrideText)) as content eqn:Hcontent.
    destruct overrideText as [[|c t]|]; simpl; rewrite He; reflexivity.
  - intros res Hres Hok. unfold sendMessage. fold (submitted render overrideText).
    rewrite (is_empty_false Hc), Hl.
    remember (trim (submitted render overrideText)) as content eqn:Hcontent.
    destruct overrideText as [[|c t]|]; simpl; rewrite Hres; simpl; rewrite Hok;
      reflexivity.
  - intros res data t Hres Hok Hjson Htext Htrim.
    assert (Hd : is_nullish data = false) by (destruct data; simpl in *; congruence).
    unfold transcribeAudio. simpl. rewrite Hres. simpl.
    rewrite Hok, Hjson. simpl. rewrite Hd, Htext. simpl. rewrite Htrim. reflexivity.
  - intros e He. unfold transcribeAudio. simpl. rewrite He. reflexivity.
  - intros res Hres Hok. unfold transcribeAudio. simpl. rewrite Hres. simpl.
    rewrite Hok. reflexivity.
Qed.



(** *** Programs that leave the recorders alone *)
Lemma same_recording_refl (w : World) : same_recording w w.
Proof. repeat split. Qed.

Lemma same_recording_trans (w1 w2 w3 : World) :
  same_recording w1 w2 -> same_recording w2 w3 -> same_recording w1 w3.
Proof. unfold same_recording. intuition congruence. Qed.

Lemma quiet_bind {A B : Type} (p : prog World A) (f : A -> prog World B) :
  quiet p -> (forall a, quiet (f a)) -> quiet (bind p f).
Proof. intros Hp Hf. induction Hp; simpl; auto using quiet. Qed.

Lemma quiet_try_catch {A : Type} (p : prog World A) (h : exn -> prog World A) :
  quiet p -> (forall e, quiet (h e)) -> quiet (try_catch p h).
Proof. intros Hp Hh. induction Hp; simpl; auto using quiet. Qed.

Lemma quiet_try_finally {A : Type} (p : prog World A) (f : prog World unit) :
  quiet p -> quiet f -> quiet (try_finally p f).
Proof.
  intros Hp Hf. induction Hp; simpl; auto using quiet;
    (apply quiet_bind; [exact Hf | intros; constructor]).
Qed.

Lemma quiet_update (f : World -> World) :
  (forall w, same_recording (f w) w) -> quiet (update f).
Proof. intros Hf. unfold update. constructor; [exact Hf | constructor]. Qed.

Create HintDb quiet.
#[local] Hint Resolve quiet_bind quiet_try_catch quiet_try_finally quiet_update : quiet.
#[local] Hint Constructors quiet : quiet.

Ltac quiet_setter :=
  apply quiet_update; intro; repeat split.

Lemma quiet_sendMessage (render : State) (overrideText : option jsstring) :
  quiet (sendMessage render overrideText).
Proof.
  unfold sendMessage.
  destruct (is_empty _ || loading render); [constructor|].
  repeat (apply quiet_bind; [|intros]).
  - quiet_setter.
  - destruct overrideText as [[|c t]|]; [quiet_setter | constructor | quiet_setter].
  - quiet_setter.
  - quiet_setter.
  - apply quiet_try_finally; [|quiet_setter].
    apply quiet_try_catch; [|intros; quiet_setter].
    apply quiet_bind.
    + unfold await, chat_request. constructor. intros [e|v]; constructor.
    + intros res. destruct (negb (res_ok res)).
      * repeat (apply quiet_bind; [|intros]); try quiet_setter. constructor.
      * repeat (apply quiet_bind; [|intros]).
        -- destruct (res_json res); constructor.
        -- destruct (is_nullish _); constructor.
        -- quiet_setter.
Qed.

Lemma quiet_transcribeAudio (blob : Blob) : quiet (transcribeAudio blob).
Proof.
  unfold transcribeAudio.
  repeat (apply quiet_bind; [|intros]); try quiet_setter.
  apply quiet_try_finally; [|quiet_setter].
  apply quiet_try_catch.
  - apply quiet_bind.
    + unfold await, asr_request. constructor. intros [e|v]; constructor.
    + intros res. destruct (negb (res_ok res)); [constructor|].
      repeat (apply quiet_bind; [|intros]).
      * destruct (res_json res); constructor.
      * destruct (is_nullish _); [constructor|].
        destruct (is_nullish _); [constructor|].
        unfold call_trim. destruct (get _ _); constructor.
      * destruct (is_empty _); constructor.
  - intros e. apply quiet_bind; [quiet_setter | intros; constructor].
Qed.

Lemma quiet_handleAudioBlob (render : State) (blob : Blob) :
  quiet (handleAudioBlob render blob).
Proof.
  unfold handleAudioBlob. apply quiet_bind; [apply quiet_transcribeAudio|].
  intros text. destruct (is_empty text); [constructor | apply quiet_sendMessage].
Qed.

Lemma quiet_stopVolumeVisualization : quiet stopVolumeVisualization.
Proof.
  unfold stopVolumeVisualization.
  repeat (apply quiet_bind; [|intros]).
  - constructor. intros w. destruct (animationFrameRef w); [quiet_setter | constructor].
  - constructor. intros w. destruct (audioContextRef w); [quiet_setter | constructor].
  - quiet_setter.
  - quiet_setter.
Qed.

Lemma quiet_onstop (render : State) : quiet (onstop render).
Proof.
  unfold onstop. apply quiet_bind; [|intros _; apply quiet_bind].
  - constructor. intros w. destruct (mediaStreamRef w); [|constructor].
    apply quiet_bind; [|intros]; quiet_setter.
  - apply quiet_stopVolumeVisualization.
  - intros _. constructor. intros w. apply quiet_bind; [quiet_setter|].
    intros. apply quiet_handleAudioBlob.
Qed.

Lemma quiet_ondataavailable (data : Blob) : quiet (ondataavailable data).
Proof.
  unfold ondataavailable. destruct (blob_bytes data); [constructor|quiet_setter].
Qed.

(** Running a quiet program up to its next await. *)
Lemma advance_quiet (p : prog World unit) :
  quiet p ->
  forall w w' t,
    advance p w = (w', t) ->
    same_recording w' w
    /\ match t with
       | None => True
       | Some t0 => well_behaved t0 /\ is_media_task t0 = false
       end.
Proof.
  induction 1 as [a|e|f k Hf Hk IH|k Hk IH|url init k Hk IH]; simpl; intros w w' t Hadv.
  - inversion Hadv; subst. split; [apply same_recording_refl | exact I].
  - inversion Hadv; subst. split; [apply same_recording_refl | exact I].
  - destruct (IH _ _ _ Hadv) as [Hsame Ht]. split; [|exact Ht].
    eapply same_recording_trans; [exact Hsame | apply Hf].
  - exact (IH _ _ _ _ Hadv).
  - inversion Hadv; subst. split; [apply same_recording_refl|].
    split; [exact Hk | reflexivity].
Qed.

(** *** Lists of recorders and of pending tasks *)

Lemma nth_error_update_nth {A : Type} (f : A -> A) (l : list A) (id i : nat) (x : A) :
  nth_error (update_nth id f l) i = Some x ->
  (i = id /\ exists y, nth_error l id = Some y /\ x = f y)
  \/ (i <> id /\ nth_error l i = Some x).
Proof.
  revert id i. induction l as [|a l IH]; intros [|id] [|i]; simpl; try discriminate.
  - intros H. inversion H; subst. left. split; [reflexivity|]. exists a. auto.
  - intros H. right. split; [discriminate | exact H].
  - intros H. inversion H; subst. right. split; [discriminate | reflexivity].
  - intros H. destruct (IH id i H) as [[Hi [y [Hy Hx]]] | [Hi Hx]].
    + left. split; [congruence|]. exists y. auto.
    + right. split; [congruence | exact Hx].
Qed.

Lemma update_nth_last {A : Type} (f : A -> A) (l : list A) (x : A) :
  update_nth (List.length l) f (l ++ [x]) = l ++ [f x].
Proof. induction l as [|a l IH]; simpl; [reflexivity | now rewrite IH]. Qed.

Lemma deactivate_does_not_add (id : nat) (q : bool) (l : list MediaRecorder) :
  List.length (filter is_recording (update_nth id (set_rec_state inactive q) l))
  <= List.length (filter is_recording l).
Proof.
  revert id. induction l as [|r l IH]; intros [|id]; simpl; try lia.
  - destruct (is_recording r); simpl; lia.
  - specialize (IH id). destruct (is_recording r); simpl; lia.
Qed.

Lemma none_recording (l : list MediaRecorder) :
  (forall i r, nth_error l i = Some r -> rec_state r = recording -> False) ->
  filter is_recording l = [].
Proof.
  induction l as [|a l IH]; intros H; simpl; [reflexivity|].
  destruct (is_recording a) eqn:Ha.
  - exfalso. apply (H 0 a eq_refl). unfold is_recording in Ha.
    destruct (rec_state a); [discriminate | reflexivity].
  - apply IH. intros i r Hi Hr. exact (H (S i) r Hi Hr).
Qed.

Lemma some_recording (l : list MediaRecorder) (i : nat) (r : MediaRecorder) :
  nth_error l i = Some r -> rec_state r = recording ->
  1 <= List.length (filter is_recording l).
Proof.
  revert i. induction l as [|a l IH]; intros [|i]; simpl; try discriminate.
  - intros H Hr. inversion H; subst. unfold is_recording. rewrite Hr. simpl. lia.
  - intros H Hr. specialize (IH i H Hr). destruct (is_recording a); simpl; lia.
Qed.

Lemma media_count_remove (l : list Task) (i : nat) (t : Task) :
  nth_error l i = Some t ->
  List.length (filter is_media_task (firstn i l ++ skipn (S i) l))
  + (if is_media_task t then 1 else 0)
  = List.length (filter is_media_task l).
Proof.
  revert i. induction l as [|a l IH]; intros [|i] H; try discriminate.
  - simpl in H. inversion H; subst. simpl. destruct (is_media_task t); simpl; lia.
  - simpl in H. specialize (IH i H).
    change (firstn (S i) (a :: l) ++ skipn (S (S i)) (a :: l))
      with (a :: (firstn i l ++ skipn (S i) l)).
    cbn [filter]. destruct (is_media_task a); cbn [List.length]; lia.
Qed.

Lemma pending_last (tasks : list Task) (t : Task) :
  nth_error (tasks ++ [t]) (List.length tasks) = Some t
  /\ firstn (List.length tasks) (tasks ++ [t])
     ++ skipn (S (List.length tasks)) (tasks ++ [t]) = tasks.
Proof.
  split.
  - rewrite nth_error_app2 by lia. rewrite Nat.sub_diag. reflexivity.
  - induction tasks as [|a l IH]; simpl; [reflexivity|].
    simpl in IH. rewrite IH. reflexivity.
Qed.

Lemma Forall_remove {A : Type} (P : A -> Prop) (l : list A) (i : nat) :
  Forall P l -> Forall P (firstn i l ++ skipn (S i) l).
Proof.
  intros H. revert i. induction H as [|a l Ha Hl IH]; intros [|i]; simpl; auto.
Qed.

(** *** The two branches of the toggle *)

Lemma advance_startRecording (render : State) (w : World) :
  exists w' t,
    advance (startRecording render) w = (w', t)
    /\ same_recording w' w
    /\ match t with
       | None => True
       | Some t0 => well_behaved t0 /\ is_media_task t0 = true
       end.
Proof.
  unfold startRecording. simpl.
  destruct (isSecureContext (browser w)); simpl;
    [| do 2 eexists; split; [reflexivity|]; split; [repeat split | exact I]].
  destruct (hasGetUserMedia (browser w)); simpl;
    [| do 2 eexists; split; [reflexivity|]; split; [repeat split | exact I]].
  do 2 eexists. split; [reflexivity|]. split; [repeat split|].
  split; [|reflexivity].
  intros [e|stream] w0; simpl.
  - eexists. split; [reflexivity|]. left. repeat split.
  - destruct (hasAudioContext (browser w0)); simpl;
      (destruct (MediaRecorder_throws (browser w0)) as [e|]; simpl;
       [ eexists; split; [reflexivity|]; left; repeat split
       | destruct (start_throws (browser w0)) as [e|]; simpl;
         [ eexists; split; [reflexivity|]; right; right;
           exists (mkRecorder stream inactive false render); repeat split
         | eexists; split; [reflexivity|]; right; left;
           exists (mkRecorder stream recording false render); simpl;
           rewrite update_nth_last; repeat split ] ]).
Qed.

Lemma advance_stopRecording (w : World) :
  (forall i r,
     nth_error (recorders (browser w)) i = Some r ->
     rec_state r = recording ->
     mediaRecorderRef w = Some i) ->
  exists w',
    advance stopRecording w = (w', None)
    /\ mediaRecorderRef w' = mediaRecorderRef w
    /\ isRecording (ui w') = false
    /\ forall i r,
         nth_error (recorders (browser w')) i = Some r ->
         rec_state r = recording -> False.
Proof.
  intros Href. unfold stopRecording. simpl.
  destruct (mediaRecorderRef w) as [id|] eqn:Hid; simpl.
  - destruct (nth_error (recorders (browser w)) id) as [r0|] eqn:Hr0; simpl.
    + destruct (rec_state r0) eqn:Hs; simpl.
      * eexists. split; [reflexivity|]. split; [exact Hid|]. split; [reflexivity|].
        simpl. intros i r Hi Hr. pose proof (Href i r Hi Hr) as H.
        inversion H; subst. congruence.
      * eexists. split; [reflexivity|]. split; [exact Hid|]. split; [reflexivity|].
        simpl. intros i r Hi Hr.
        destruct (nth_error_update_nth _ _ _ _ Hi) as [[_ [y [_ Hy]]] | [Hne Hi']].
        -- subst r. simpl in Hr. discriminate.
        -- pose proof (Href i r Hi' Hr) as H. congruence.
    + eexists. split; [reflexivity|]. split; [exact Hid|]. split; [reflexivity|].
      simpl. intros i r Hi Hr. pose proof (Href i r Hi Hr) as H.
      inversion H; subst. congruence.
  - eexists. split; [reflexivity|]. split; [exact Hid|]. split; [reflexivity|].
    simpl. intros i r Hi Hr. pose proof (Href i r Hi Hr) as H. discriminate.
Qed.

(** *** Unmounted pages *)

Lemma commit_mounted (w w' : World) : renders (ui w) = true -> commit w w' = w'.
Proof. intros H. unfold commit. rewrite H. reflexivity. Qed.

Lemma commit_unmounted (w w' : World) :
  renders (ui w) = false -> ui (commit w w') = ui w.
Proof. intros H. unfold commit. rewrite H. reflexivity. Qed.

Lemma commit_browser (w w' : World) : browser (commit w w') = browser w'.
Proof. unfold commit. destruct (renders (ui w)); reflexivity. Qed.

Lemma commit_ref (w w' : World) :
  mediaRecorderRef (commit w w') = mediaRecorderRef w'.
Proof. unfold commit. destruct (renders (ui w)); reflexivity. Qed.

(** A page that is unmounted stays so. *)
Lemma unmounted_stays (w w' : World) :
  renders (ui (commit w w')) = true -> renders (ui w) = true.
Proof.
  unfold commit. destruct (renders (ui w)) eqn:H; [reflexivity|].
  simpl. rewrite H. intros X. exact X.
Qed.

Lemma same_recording_commit (w w' : World) :
  same_recording w' w -> same_recording (commit w w') w.
Proof.
  intros Hsame. unfold commit. destruct (renders (ui w)); [exact Hsame|].
  destruct Hsame as [Hr [Hm _]]. repeat split; simpl; assumption.
Qed.

(** *** The invariant *)

Lemma active_same (w' w : World) :
  same_recording w' w -> active_sessions w' = active_sessions w.
Proof. intros [H _]. unfold active_sessions. now rewrite H. Qed.

Lemma active_commit (w w' : World) :
  active_sessions (commit w w') = active_sessions w'.
Proof. unfold active_sessions. now rewrite commit_browser. Qed.

Lemma spawn_quiet (p : prog World unit) (w : World) (rest : list Task) :
  quiet p ->
  Forall well_behaved rest ->
  same_recording (world (spawn p w rest)) w
  /\ (mounted (spawn p w rest) = true -> renders (ui w) = true)
  /\ Forall well_behaved (pending (spawn p w rest))
  /\ List.length (filter is_media_task (pending (spawn p w rest)))
     = List.length (filter is_media_task rest).
Proof.
  intros Hp Hrest. unfold spawn, mounted.
  destruct (advance p w) as [w' [t|]] eqn:Hadv;
    destruct (advance_quiet Hp _ Hadv) as [Hsame Ht]; simpl.
  - destruct Ht as [Hwb Hmedia]. split; [exact (same_recording_commit Hsame)|].
    split; [apply unmounted_stays|]. split.
    + apply Forall_app. split; [exact Hrest | constructor; [exact Hwb | constructor]].
    + rewrite filter_app, length_app. simpl. rewrite Hmedia. simpl. lia.
  - split; [exact (same_recording_commit Hsame)|].
    split; [apply unmounted_stays|]. split; [exact Hrest | reflexivity].
Qed.

Lemma invariant_same (w' w : World) (tasks' tasks : list Task) :
  recording_invariant (mkSystem w tasks) ->
  same_recording w' w ->
  (renders (ui w') = true -> renders (ui w) = true) ->
  Forall well_behaved tasks' ->
  List.length (filter is_media_task tasks') = List.length (filter is_media_task tasks) ->
  recording_invariant (mkSystem w' tasks').
Proof.
  intros [Ht Hone Href] Hsame Hstay Ht' Hcount. constructor; simpl in *.
  - exact Ht'.
  - unfold media_pending in *. simpl in *. rewrite Hcount, (active_same Hsame). exact Hone.
  - destruct Hsame as [Hr [Hm Hi]]. rewrite Hr, Hm, Hi.
    intros i r Hn Hs. destruct (Href i r Hn Hs) as [H1 H2].
    split; [exact H1|]. intros Hmount. apply H2. apply Hstay. exact Hmount.
Qed.

(** No recorder records: the invariant asks nothing of the flag. *)
Lemma invariant_idle (w : World) (tasks : list Task) :
  Forall well_behaved tasks ->
  List.length (filter is_media_task tasks) <= 1 ->
  filter is_recording (recorders (browser w)) = [] ->
  recording_invariant (mkSystem w tasks).
Proof.
  intros Ht Hcount Hidle. constructor; simpl.
  - exact Ht.
  - unfold media_pending, active_sessions. simpl. rewrite Hidle. simpl. lia.
  - intros i r Hn Hs. pose proof (some_recording _ _ Hn Hs) as H.
    rewrite Hidle in H. simpl in H. lia.
Qed.

Lemma task_well_behaved (tasks : list Task) (i : nat) (t : Task) :
  Forall well_behaved tasks -> nth_error tasks i = Some t -> well_behaved t.
Proof.
  intros H Hi. rewrite Forall_forall in H. apply H. eapply nth_error_In; eauto.
Qed.

Lemma step_keeps_invariant (sys : System) (ev : event) :
  recording_invariant sys ->
  (ev = ClickMic -> media_pending sys = 0) ->
  recording_invariant (step sys ev).
Proof.
  intros Hinv Hpatient. destruct sys as [w tasks].
  pose proof Hinv as [Htasks Hone Href]. simpl in Htasks, Hone, Href.
  unfold media_pending in Hone. simpl in Hone.
  unfold step.
  destruct (user_event ev && negb (mounted (mkSystem w tasks))) eqn:Hguard;
    [exact Hinv|].
  destruct ev as [ | | |text|lang|i a|id data]; cbn [world pending];
    try (assert (Hm : renders (ui w) = true)
           by (simpl in Hguard; unfold mounted in Hguard; simpl in Hguard;
               destruct (renders (ui w)); [reflexivity | discriminate Hguard])).
  - (* ClickMic *)
    destruct (mic_disabled (ui w)); [exact Hinv|].
    specialize (Hpatient eq_refl). unfold media_pending in Hpatient. simpl in Hpatient.
    unfold handleToggleRecording, spawn.
    destruct (isRecording (ui w)) eqn:Hrec.
    + destruct (@advance_stopRecording w) as [w' [Hadv [Href' [Hi Hnone]]]].
      { intros i r Hi Hr. exact (proj1 (Href i r Hi Hr)). }
      rewrite Hadv, (@commit_mounted w _ Hm).
      apply invariant_idle; [exact Htasks | lia | exact (none_recording _ Hnone)].
    + assert (Hidle : filter is_recording (recorders (browser w)) = []).
      { apply none_recording.
        intros i r Hi Hr. destruct (Href i r Hi Hr) as [_ H].
        specialize (H Hm). congruence. }
      destruct (advance_startRecording (ui w) w) as [w' [t [Hadv [Hsame Ht]]]].
      rewrite Hadv, (@commit_mounted w _ Hm).
      assert (Hidle' : filter is_recording (recorders (browser w')) = [])
        by (destruct Hsame as [Hr _]; rewrite Hr; exact Hidle).
      destruct t as [t0|].
      * destruct Ht as [Hwb Hmedia]. apply invariant_idle; [| |exact Hidle'].
        -- apply Forall_app. split; [exact Htasks | constructor; [exact Hwb | constructor]].
        -- rewrite filter_app, length_app. simpl. rewrite Hmedia. simpl. lia.
      * apply invariant_idle; [exact Htasks | lia | exact Hidle'].
  - (* ClickSend *)
    destruct (send_disabled (ui w)); [exact Hinv|].
    destruct (@spawn_quiet (sendMessage (ui w) None) w tasks
                (quiet_sendMessage _ _) Htasks) as [Hsame [Hstay [Hwb Hcount]]].
    destruct (spawn _ w tasks) as [w' tasks']. simpl in *.
    exact (invariant_same Hinv Hsame Hstay Hwb Hcount).
  - (* PressEnter *)
    destruct (@spawn_quiet (sendMessage (ui w) None) w tasks
                (quiet_sendMessage _ _) Htasks) as [Hsame [Hstay [Hwb Hcount]]].
    destruct (spawn _ w tasks) as [w' tasks']. simpl in *.
    exact (invariant_same Hinv Hsame Hstay Hwb Hcount).
  - (* TypeInput *)
    apply (invariant_same Hinv);
      [repeat split | intros _; exact Hm | exact Htasks | reflexivity].
  - (* SelectLanguage *)
    apply (invariant_same Hinv);
      [repeat split | intros _; exact Hm | exact Htasks | reflexivity].
  - (* Settled *)
    destruct (nth_error tasks i) as [t|] eqn:Hi; [|exact Hinv].
    pose proof (task_well_behaved _ Htasks Hi) as Hwb.
    pose proof (media_count_remove _ _ Hi) as Hcount.
    pose proof (Forall_remove i Htasks) as Hrest.
    destruct t as [[url init|] k]; simpl in Hwb; cbn [resume].
    + (* a fetch is answered *)
      change (is_media_task (mkTask (Fetch url init) k)) with false in Hcount.
      cbv iota in Hcount.
      destruct a as [o|o]; [exact Hinv|].
      destruct (@spawn_quiet (k o) w (firstn i tasks ++ skipn (S i) tasks)
                  (Hwb o) Hrest) as [Hsame [Hstay [Hwb' Hcount']]].
      destruct (spawn _ w _) as [w' tasks'].
      cbn [world pending] in Hsame, Hwb', Hcount'. unfold mounted in Hstay.
      cbn [world] in Hstay.
      apply (invariant_same Hinv Hsame Hstay Hwb'). lia.
    + (* the microphone request is answered *)
      change (is_media_task (mkTask GetUserMedia k)) with true in Hcount.
      cbv iota in Hcount.
      destruct a as [o|o]; [|exact Hinv].
      destruct (Hwb o w) as [w' [Hadv Hend]]. unfold spawn. rewrite Hadv.
      assert (Hidle : filter is_recording (recorders (browser w)) = []).
      { unfold active_sessions in Hone.
        destruct (filter is_recording (recorders (browser w))); [reflexivity|].
        simpl in Hone. lia. }
      destruct Hend as [Hsame | [[r [Hrecs [Hstate [Href' Hrec]]]]
                                | [r [Hrecs [Hstate [Href' Hrec]]]]]].
      * apply invariant_idle; [exact Hrest | lia |].
        rewrite commit_browser. destruct Hsame as [Hr _]. rewrite Hr. exact Hidle.
      * constructor; cbn [world pending].
        -- exact Hrest.
        -- unfold media_pending; cbn [world pending].
           rewrite active_commit. unfold active_sessions.
           rewrite Hrecs, (filter_app is_recording), length_app, Hidle.
           unfold is_recording at 1. cbn [filter]. rewrite Hstate.
           cbn [List.length]. lia.
        -- rewrite commit_browser, commit_ref.
           intros j r' Hj Hs. rewrite Hrecs in Hj.
           destruct (Nat.lt_ge_cases j (List.length (recorders (browser w)))) as [Hlt|Hge].
           ++ rewrite nth_error_app1 in Hj by exact Hlt.
              pose proof (some_recording _ _ Hj Hs) as H. rewrite Hidle in H.
              simpl in H. lia.
           ++ rewrite nth_error_app2 in Hj by exact Hge.
              destruct (j - List.length (recorders (browser w))) as [|d] eqn:Hd.
              ** split; [rewrite Href'; f_equal; lia|].
                 unfold mounted. cbn [world]. intros Hmount.
                 rewrite (@commit_mounted w _ (unmounted_stays _ _ Hmount)).
                 exact Hrec.
              ** simpl in Hj. destruct d; discriminate.
      * apply invariant_idle; [exact Hrest | lia |].
        rewrite commit_browser, Hrecs, (filter_app is_recording), Hidle.
        unfold is_recording. cbn [filter]. rewrite Hstate. reflexivity.
  - (* RecorderStopped *)
    destruct (nth_error (recorders (browser w)) id) as [r|] eqn:Hr; [|exact Hinv].
    destruct (rec_stop_queued r); [|exact Hinv].
    set (w1 := with_browser _ w).
    assert (Hinv1 : recording_invariant (mkSystem w1 tasks)).
    { constructor; simpl.
      - exact Htasks.
      - unfold media_pending, active_sessions. simpl.
        pose proof (deactivate_does_not_add id false (recorders (browser w))) as H.
        unfold active_sessions in Hone. lia.
      - intros i r' Hi Hs.
        destruct (nth_error_update_nth _ _ _ _ Hi) as [[_ [y [_ Hy]]] | [_ Hi']].
        + subst r'. simpl in Hs. discriminate.
        + exact (Href i r' Hi' Hs). }
    assert (Hq : quiet (ondataavailable data ;; onstop (rec_render r))).
    { apply quiet_bind; [apply quiet_ondataavailable | intros; apply quiet_onstop]. }
    destruct (@spawn_quiet _ w1 tasks Hq Htasks) as [Hsame [Hstay [Hwb Hcount]]].
    destruct (spawn _ w1 tasks) as [w' tasks']. simpl in *.
    exact (invariant_same Hinv1 Hsame Hstay Hwb Hcount).
Qed.

Lemma initial_invariant : recording_invariant initial_system.
Proof.
  constructor; simpl.
  - constructor.
  - unfold media_pending, active_sessions. simpl. lia.
  - intros [|i] r H; discriminate.
Qed.

Lemma patient_keeps_invariant (evs : list event) (sys : System) :
  recording_invariant sys -> patient sys evs ->
  recording_invariant (run_events sys evs).
Proof.
  revert sys. induction evs as [|ev evs IH]; intros sys Hinv Hp; simpl; [exact Hinv|].
  destruct Hp as [Hev Hrest]. apply IH; [|exact Hrest].
  apply step_keeps_invariant; assumption.
Qed.

(** As long as the microphone button is not clicked while a microphone
    request is pending, at most one capture session is active, whatever
    else happens on the page. *)
Theorem patient_clicks_one_session (evs : list event) :
  patient initial_system evs ->
  active_sessions (world (run_events initial_system evs)) <= 1.
Proof.
  intros Hp.
  destruct (patient_keeps_invariant evs initial_invariant Hp) as [_ Hone _].
  lia.
Qed.

(** *** A submission and its answer, on the page *)

(** The answer to the request that was made last. *)
Lemma settle_last (w w' : World) (tasks : list Task) (r : request)
  (k : settled r -> prog World unit) (a : answer) (p : prog World unit) :
  renders (ui w) = true ->
  resume (mkTask r k) a = Some p ->
  advance p w = (w', None) ->
  step (mkSystem w (tasks ++ [mkTask r k])) (Settled (List.length tasks) a)
  = mkSystem w' tasks.
Proof.
  intros Hm Hres Hadv. unfold step. cbn [user_event andb world pending].
  destruct (pending_last tasks (mkTask r k)) as [Hnth Hrest].
  rewrite Hnth, Hres. unfold spawn. rewrite Hadv, Hrest.
  rewrite (@commit_mounted w w' Hm). reflexivity.
Qed.

(** A click on the enabled Send button of a mounted page, and a failure
    of its chat request.  The user entry stays at the end of the history,
    no assistant entry follows, the loading flag is down and nothing is
    left pending of the click.  The error text is "Network request
    failed. ..." for a rejected fetch, and for a response outside 200-299
    the [error] of its JSON body if that is truthy, else "Server is busy.
    ...".  The page stays mounted exactly when React can render that
    error text; it then accepts the next submission.  Otherwise no event
    of the user changes anything any more. *)
Lemma failed_chat_outcome (sys : System) (o : exn + Response) :
  mounted sys = true ->
  send_disabled (ui (world sys)) = false ->
  match o with inl _ => True | inr res => res_ok res = false end ->
  let content := trim (input (ui (world sys))) in
  let err :=
    match o with
    | inl _ => JStr NETWORK_FAILED
    | inr res =>
        or_else (get_opt (match res_json res with Some d => d | None => JObj [] end)
                   (js "error"))
          (JStr SERVER_BUSY)
    end in
  let s1 := step sys ClickSend in
  let s2 := step s1 (Settled (List.length (pending sys)) (FetchAnswer o)) in
  map task_request (pending s1)
  = map task_request (pending sys) ++ [chat_request content (language (ui (world sys)))]
  /\ pending s2 = pending sys
  /\ messages (ui (world s2))
     = messages (ui (world sys)) ++ [mkMessage user (JStr content)]
  /\ errorText (ui (world s2)) = err
  /\ loading (ui (world s2)) = false
  /\ mounted s2 = react_child err
  /\ (react_child err = true ->
      forall text, trim text <> [] ->
        map task_request (pending (step (step s2 (TypeInput text)) ClickSend))
        = map task_request (pending sys)
          ++ [chat_request (trim text) (language (ui (world sys)))])
  /\ (react_child err = false ->
      forall ev, user_event ev = true -> step s2 ev = s2).
Proof.
  intros Hmount Hsend Hfail content err s1 s2.
  destruct sys as [w tasks]. unfold mounted in Hmount. cbn [world pending] in *.
  pose proof Hmount as Hrender. unfold renders in Hrender.
  apply andb_true_iff in Hrender. destruct Hrender as [Hentries _].
  unfold send_disabled in Hsend. apply orb_false_iff in Hsend.
  destruct Hsend as [Hload Hempty]. fold content in Hempty.
  assert (Hs1 : exists k,
    s1 = mkSystem
           (with_ui (set_loading true)
              (with_ui (set_errorText (JStr []))
                 (with_ui (set_input [])
                    (with_ui (set_messages
                                (fun prev => prev ++ [mkMessage user (JStr content)]))
                       w))))
           (tasks ++ [mkTask (chat_request content (language (ui w))) k])
    /\ (forall w0, exists w',
          advance (k o) w0 = (w', None)
          /\ ui w' = set_loading false (set_errorText err (ui w0)))).
  { subst s1. unfold step, mounted. cbn [user_event andb world pending].
    rewrite Hmount. cbn [negb]. unfold send_disabled. fold content.
    rewrite Hload, Hempty. cbn [orb].
    unfold spawn, sendMessage, submitted. fold content.
    rewrite Hempty, Hload. cbn [orb]. simpl.
    rewrite (@commit_mounted w _ Hmount).
    eexists. split; [reflexivity|].
    intros w0. subst err. destruct o as [e|res]; simpl.
    - eexists. split; reflexivity.
    - rewrite Hfail. simpl. eexists. split; reflexivity. }
  destruct Hs1 as [k [Hs1 Hk]].
  set (w1 := with_ui (set_loading true) _) in Hs1.
  assert (Hm1 : renders (ui w1) = true).
  { unfold renders. simpl. rewrite forallb_app, Hentries. reflexivity. }
  destruct (Hk w1) as [w2 [Hadv Hui]].
  assert (Hs2 : s2 = mkSystem w2 tasks).
  { subst s2. rewrite Hs1. apply (@settle_last w1 w2 tasks _ k (FetchAnswer o) (k o) Hm1);
      [reflexivity | exact Hadv]. }
  assert (Hm2 : mounted (mkSystem w2 tasks) = react_child err).
  { unfold mounted, renders. cbn [world]. rewrite Hui. simpl.
    rewrite forallb_app, Hentries. reflexivity. }
  split; [rewrite Hs1; cbn [pending]; rewrite map_app; reflexivity|].
  rewrite Hs2. cbn [world pending]. rewrite Hui.
  split; [reflexivity|]. split; [reflexivity|]. split; [reflexivity|].
  split; [reflexivity|]. split; [exact Hm2|]. split.
  - intros Herr text Htext. rewrite Herr in Hm2.
    unfold step at 2. rewrite Hm2. cbn [user_event andb negb world pending].
    unfold step, mounted. cbn [user_event andb world pending].
    unfold mounted in Hm2. cbn [world] in Hm2.
    assert (Hm3 : renders (ui (with_ui (set_input text) w2)) = true) by exact Hm2.
    rewrite Hm3. cbn [negb]. unfold send_disabled.
    assert (Hl3 : loading (ui (with_ui (set_input text) w2)) = false)
      by (simpl; rewrite Hui; reflexivity).
    assert (Hi3 : input (ui (with_ui (set_input text) w2)) = text) by reflexivity.
    assert (Hg3 : language (ui (with_ui (set_input text) w2)) = language (ui w))
      by (simpl; rewrite Hui; reflexivity).
    rewrite Hl3, Hi3, (is_empty_false Htext). cbn [orb].
    unfold spawn, sendMessage, submitted.
    rewrite Hl3, Hi3, Hg3, (is_empty_false Htext). cbn [orb]. simpl.
    rewrite map_app. reflexivity.
  - intros Herr ev Hev. rewrite Herr in Hm2. unfold step. rewrite Hev, Hm2. reflexivity.
Qed.

(** The guard of the toggle: a click handled by a render that is
    recording stops, and starts nothing. *)
Lemma toggle_while_recording_stops (render : State) (w : World) :
  isRecording render = true ->
  exists w',
    advance (handleToggleRecording render) w = (w', None)
    /\ active_sessions w' <= active_sessions w
    /\ isRecording (ui w') = false.
Proof.
  intros Hrec. unfold handleToggleRecording. rewrite Hrec.
  unfold stopRecording, active_sessions. simpl.
  destruct (mediaRecorderRef w) as [id|]; simpl.
  - destruct (nth_error (recorders (browser w)) id) as [r|]; simpl.
    + destruct (rec_state r); simpl.
      * eexists. split; [reflexivity|]. split; [simpl; lia | reflexivity].
      * eexists. split; [reflexivity|]. split; [|reflexivity]. simpl.
        apply deactivate_does_not_add.
    + eexists. split; [reflexivity|]. split; [simpl; lia | reflexivity].
  - eexists. split; [reflexivity|]. split; [simpl; lia | reflexivity].
Qed.

(** C7 fails on the code: [isRecording] is set only after
    [getUserMedia] has resolved, so a second click on the enabled
    microphone button while the first request is pending starts a second
    [startRecording].  Once both requests are granted two recorders are
    in state recording at the same time.  The next click stops the one
    that [mediaRecorderRef] holds; the other keeps recording with
    [isRecording] down, and the click after that starts a third. *)
Theorem double_click_starts_two_sessions :
  let s1 := step initial_system ClickMic in
  let s2 := step s1 ClickMic in
  let s3 := step s2 (Settled 0 (MediaAnswer (inr (mkStream 1)))) in
  let s4 := step s3 (Settled 0 (MediaAnswer (inr (mkStream 2)))) in
  let s5 := step s4 ClickMic in
  let s6 := step s5 ClickMic in
  let s7 := step s6 (Settled 0 (MediaAnswer (inr (mkStream 3)))) in
  mic_disabled (ui (world initial_system)) = false
  /\ mic_disabled (ui (world s1)) = false
  /\ isRecording (ui (world s1)) = false
  /\ List.length (pending s2) = 2
  /\ active_sessions (world s3) = 1
  /\ active_sessions (world s4) = 2
  /\ List.length (pending s4) = 0
  /\ active_sessions (world s5) = 1
  /\ isRecording (ui (world s5)) = false
  /\ active_sessions (world s7) = 2.
Proof. vm_compute. repeat split. Qed.


(** A plain voice exchange: one recording, its transcription, the reply. *)
Example one_voice_exchange :
  let s := run_events initial_system
     [ClickMic; Settled 0 (MediaAnswer (inr (mkStream 1))); ClickMic;
      RecorderStopped 0 clip;
      Settled 0 (FetchAnswer (inr (mkResponse 200 None
                   (Some (JObj [(js "text", JStr (js " hi "))])))));
      Settled 0 (FetchAnswer (inr (mkResponse 200 None
                   (Some (JObj [(js "reply", JStr (js "hello"))])))))] in
  messages (ui (world s))
  = [mkMessage user (JStr (js "hi")); mkMessage assistant (JStr (js "hello"))]
  /\ active_sessions (world s) = 0
  /\ pending s = []
  /\ ended_streams (browser (world s)) = [1].
Proof. vm_compute. repeat split. Qed.

(** C6 fails on the code: the loading flag that [sendMessage] tests is
    the one of the render whose closure is called.  The buttons and the
    keyboard call the closure of the current render; [recorder.onstop]
    calls the closure of the render that started the recording, whose
    flag is down.  Here a clip is recorded and, while it is being
    transcribed, a text is typed and sent: its chat request is in flight
    and the loading flag of the page is up.  Then the transcription
    arrives.  The submission of its text is not ignored: a second user
    entry is appended and a second chat request is made while the first
    is still pending. *)
Theorem voice_submission_reads_old_flag :
  let s4 := run_events initial_system
     [ClickMic; Settled 0 (MediaAnswer (inr (mkStream 1))); ClickMic;
      RecorderStopped 0 clip] in
  let s6 := run_events s4 [TypeInput (js "typed"); PressEnter] in
  let s7 := step s6
     (Settled 0 (FetchAnswer (inr (mkResponse 200 None
                   (Some (JObj [(js "text", JStr (js " hi "))])))))) in
  map task_request (pending s6)
  = [asr_request clip; chat_request (js "typed") (js "auto")]
  /\ loading (ui (world s6)) = true
  /\ messages (ui (world s6)) = [mkMessage user (JStr (js "typed"))]
  /\ map task_request (pending s7)
     = [chat_request (js "typed") (js "auto"); chat_request (js "hi") (js "auto")]
  /\ messages (ui (world s7))
     = [mkMessage user (JStr (js "typed")); mkMessage user (JStr (js "hi"))]
  /\ loading (ui (world s7)) = true
  /\ mounted s7 = true.
Proof. vm_compute. repeat split. Qed.



(** With an error that is a string, as the Chat Relay of this repository
    sends it, the page stays mounted, shows the error and accepts the
    next submission. *)
Example string_error_is_shown :
  let s2 := run_events initial_system [TypeInput (js "hi"); ClickSend] in
  let failed := mkResponse 502 None
                  (Some (JObj [(js "error", JStr (js "LLM server error"))])) in
  let s3 := step s2 (Settled 0 (FetchAnswer (inr failed))) in
  let s5 := run_events s3 [TypeInput (js "again"); ClickSend] in
  option_map errorText (shown s3) = Some (JStr (js "LLM server error"))
  /\ option_map messages (shown s3) = Some [mkMessage user (JStr (js "hi"))]
  /\ option_map loading (shown s3) = Some false
  /\ map task_request (pending s5) = [chat_request (js "again") (js "auto")].
Proof. vm_compute. repeat split. Qed.

Example one_voice_exchange_is_patient :
  patient initial_system
    [ClickMic; Settled 0 (MediaAnswer (inr (mkStream 1))); ClickMic;
     RecorderStopped 0 clip;
     Settled 0 (FetchAnswer (inr (mkResponse 200 None
                  (Some (JObj [(js "text", JStr (js " hi "))])))));
     Settled 0 (FetchAnswer (inr (mkResponse 200 None
                  (Some (JObj [(js "reply", JStr (js "hello"))])))))].
Proof.
  vm_compute.
  repeat split; intros H; first [discriminate H | reflexivity].
Qed.

(** The double click is not: the second click comes while the first
    microphone request is pending. *)
Example double_click_is_not_patient :
  ~ patient initial_system [ClickMic; ClickMic].
Proof. vm_compute. intros [_ [H _]]. specialize (H eq_refl). discriminate H. Qed.

Lemma blank_or_busy_submit_is_noop_witness :
  run offline (sendMessage (typing "   ") None) initial_world []
  = (inr tt, initial_world, []).
Proof.
  apply (@blank_or_busy_submit_is_noop offline (typing "   ") None initial_world []).
  left. reflexivity.
Defined.

(** C5, as stated, fails: in the voice flow a network failure, a response
    outside 200-299 and an empty transcription all show one and the same
    text. *)
Lemma voice_failures_share_one_text :
  recordingError (ui (final_state
    (run offline (transcribeAudio clip) initial_world [])))
  = VOICE_FAILED
  /\ recordingError (ui (final_state
       (run (answering 500 (JObj [(js "error", JStr (js "ASR backend error"))]))
          (transcribeAudio clip) initial_world [])))
     = VOICE_FAILED
  /\ recordingError (ui (final_state
       (run (transcribing_backend "   ") (transcribeAudio clip) initial_world [])))
     = VOICE_FAILED.
Proof. repeat split. Qed.

Lemma failure_messages_witness :
  errorText (ui (final_state
    (run offline (sendMessage (typing "hello") None) initial_world [])))
  = JStr NETWORK_FAILED
  /\ recordingError (ui (final_state
       (run offline (transcribeAudio clip) initial_world [])))
     = VOICE_FAILED
  /\ NETWORK_FAILED <> SERVER_BUSY
  /\ NETWORK_FAILED <> VOICE_FAILED
  /\ SERVER_BUSY <> VOICE_FAILED.
Proof.
  assert (Hc : trim (submitted (typing "hello") None) <> [])
    by (vm_compute; discriminate).
  destruct (@failure_messages offline (typing "hello") None clip initial_world []
              Hc eq_refl)
    as [Hnet [_ [_ [Hvoice [_ Hdistinct]]]]].
  split; [exact (Hnet _ eq_refl) | split; [exact (Hvoice _ eq_refl) | exact Hdistinct]].
Defined.

(** A voice exchange, run: the text " hi " of the transcription is sent
    as "hi" and answered. *)
Example voice_text_is_answered :
  let r := run (always (inr (mkResponse 200 None
                               (Some (JObj [(js "text", JStr (js " hi "));
                                            (js "reply", JStr (js "hello"))]))))
                       (inl (Error "no microphone")))
             (handleAudioBlob initial_state clip) initial_world [] in
  requests_of r = [asr_request clip; chat_request (js "hi") (js "auto")]
  /\ messages (ui (final_state r))
     = [mkMessage user (JStr (js "hi")); mkMessage assistant (JStr (js "hello"))].
Proof. vm_compute. split; reflexivity. Qed.

End ChatPageFacts.

(** * Further properties *)

(** ** The Chat Relay, case by case *)

Module ChatRelayCases.
Import ChatRelay Scenarios MoreScenarios.

Section Cases.

Variable ToString_nonstring : jsval -> exn + jsstring.
Variable world : oracle.

(** X1: whatever the request, the environment and the backend, the Chat
    Relay answers: no exception leaves the handler.  Its status is 200,
    400, 500 or 502, it makes at most one request to the backend, and it
    answers 200 or 502 only after that one request. *)
Theorem chat_relay_always_answers (env : Env) (req : NextRequest) :
  exists res log,
    handle ToString_nonstring world env req = (inr res, log)
    /\ (status res = 200 \/ status res = 400 \/ status res = 500 \/ status res = 502)%N
    /\ List.length log <= 1
    /\ ((status res = 200 \/ status res = 502)%N -> List.length log = 1).
Proof.
  assert (Hdone : forall (st : N) (body : jsval) (log : list request),
    (st = 400 \/ st = 500)%N -> log = [] ->
    exists res log',
      (@inr exn NextResponse (NextResponse_json body st), log) = (inr res, log')
      /\ (status res = 200 \/ status res = 400 \/ status res = 500 \/ status res = 502)%N
      /\ List.length log' <= 1
      /\ ((status res = 200 \/ status res = 502)%N -> List.length log' = 1)).
  { intros st body log Hst ->. do 2 eexists. split; [reflexivity|]. simpl.
    split; [tauto|]. split; [lia|]. intros [H|H]; destruct Hst; subst; discriminate. }
  unfold handle, POST.
  destruct req as [body| |]; simpl; try (apply Hdone; [tauto | reflexivity]).
  destruct (is_nullish body); simpl; try (apply Hdone; [tauto | reflexivity]).
  destruct (negb (truthy (get body (js "message")))
            || negb (is_string (get body (js "message")))); simpl;
    try (apply Hdone; [tauto | reflexivity]).
  destruct (LLM_SERVER_URL env) as [[|c url]|]; simpl; try (apply Hdone; [tauto | reflexivity]).
  destruct (languageHint _ _) as [e|h]; simpl; try (apply Hdone; [tauto | reflexivity]).
  destruct (world _ _) as [e|res]; simpl.
  - do 2 eexists. split; [reflexivity|]. simpl. split; [tauto|]. split; [lia|]. reflexivity.
  - destruct (negb (res_ok res)); simpl.
    + destruct (res_text res); simpl; do 2 eexists; (split; [reflexivity|]); simpl;
        (split; [tauto|]); (split; [lia|]); reflexivity.
    + destruct (res_json res); simpl; do 2 eexists; (split; [reflexivity|]); simpl;
        (split; [tauto|]); (split; [lia|]); reflexivity.
Qed.

(** X2: a request with a valid message is answered with status 500 and
    the error "LLM_SERVER_URL is not configured" when that variable is
    unset or empty, and nothing is sent. *)
Theorem chat_relay_misconfigured (env : Env) (body : jsval) (c : N) (m : jsstring) :
  get body (js "message") = JStr (c :: m) ->
  LLM_SERVER_URL env = None \/ LLM_SERVER_URL env = Some [] ->
  handle ToString_nonstring world env (ReqJSON body)
  = (inr (mkNextResponse 500
            (JObj [(js "error", JStr (js "LLM_SERVER_URL is not configured"))])),
     []).
Proof.
  intros Hm Hurl.
  assert (Hb : is_nullish body = false) by (destruct body; simpl in *; congruence).
  unfold handle, POST. simpl. rewrite Hb, Hm. simpl.
  destruct Hurl as [-> | ->]; reflexivity.
Qed.

(** X3: when the backend answers outside 200-299, the relay answers 502
    with the error "LLM server error" and, as [detail], the text of the
    backend's answer as it is. *)
Theorem chat_relay_upstream_error (env : Env) (body : jsval)
  (m url hint text : jsstring) (res : Response) :
  get body (js "message") = JStr m -> m <> [] ->
  LLM_SERVER_URL env = Some url -> url <> [] ->
  languageHint ToString_nonstring (get body (js "language")) = inr hint ->
  world (chat_request url (chat_payload (model_name env) hint (JStr m))) [] = inr res ->
  res_ok res = false ->
  res_text res = Some text ->
  handle ToString_nonstring world env (ReqJSON body)
  = (inr (mkNextResponse 502
            (JObj [(js "error", JStr (js "LLM server error"));
                   (js "detail", JStr text)])),
     [chat_request url (chat_payload (model_name env) hint (JStr m))]).
Proof.
  intros Hm Hne Hurl Hu Hh Hw Hok Htext.
  assert (Hb : is_nullish body = false) by (destruct body; simpl in *; congruence).
  unfold handle, POST. simpl. rewrite Hb, Hm, Hurl.
  destruct m as [|c m]; [congruence|]. destruct url as [|u url]; [congruence|].
  simpl. rewrite Hh. simpl. rewrite Hw. simpl. rewrite Hok. simpl.
  rewrite Htext. reflexivity.
Qed.

(** X4: when the backend answers within 200-299 with JSON [data], the
    relay answers 200 with [{ reply }].  The reply is
    [data.message.content] whenever that is neither null nor undefined,
    the empty string included; it is the fixed apology when [data], its
    [message] or its [content] is null or undefined. *)
Theorem chat_relay_reply (env : Env) (body : jsval)
  (m url hint : jsstring) (res : Response) (data : jsval) :
  get body (js "message") = JStr m -> m <> [] ->
  LLM_SERVER_URL env = Some url -> url <> [] ->
  languageHint ToString_nonstring (get body (js "language")) = inr hint ->
  world (chat_request url (chat_payload (model_name env) hint (JStr m))) [] = inr res ->
  res_ok res = true ->
  res_json res = Some data ->
  exists reply,
    handle ToString_nonstring world env (ReqJSON body)
    = (inr (mkNextResponse 200 (JObj [(js "reply", reply)])),
       [chat_request url (chat_payload (model_name env) hint (JStr m))])
    /\ (is_nullish data = false ->
        is_nullish (get data (js "message")) = false ->
        is_nullish (get (get data (js "message")) (js "content")) = false ->
        reply = get (get data (js "message")) (js "content"))
    /\ (is_nullish data = true
        \/ is_nullish (get data (js "message")) = true
        \/ is_nullish (get (get data (js "message")) (js "content")) = true ->
        reply = JStr FALLBACK_REPLY).
Proof.
  intros Hm Hne Hurl Hu Hh Hw Hok Hjson.
  assert (Hb : is_nullish body = false) by (destruct body; simpl in *; congruence).
  eexists. split; [|split].
  - unfold handle, POST. simpl. rewrite Hb, Hm, Hurl.
    destruct m as [|c m]; [congruence|]. destruct url as [|u url]; [congruence|].
    simpl. rewrite Hh. simpl. rewrite Hw. simpl. rewrite Hok. simpl.
    rewrite Hjson. reflexivity.
  - intros H1 H2 H3. unfold get_opt. rewrite H1, H2. unfold coalesce. rewrite H3.
    reflexivity.
  - intros H. unfold get_opt, coalesce.
    destruct (is_nullish data) eqn:H1; [reflexivity|].
    destruct (is_nullish (get data (js "message"))) eqn:H2; [reflexivity|].
    destruct H as [H|[H|H]]; try discriminate. rewrite H. reflexivity.
Qed.

(** X5: when the request to the backend fails on the network, or the
    backend answers within 200-299 with a body that is not JSON, the
    relay answers 500 "Internal server error"; it does not try again. *)
Theorem chat_relay_backend_unreachable (env : Env) (body : jsval)
  (m url hint : jsstring) :
  get body (js "message") = JStr m -> m <> [] ->
  LLM_SERVER_URL env = Some url -> url <> [] ->
  languageHint ToString_nonstring (get body (js "language")) = inr hint ->
  match world (chat_request url (chat_payload (model_name env) hint (JStr m))) [] with
  | inl _ => True
  | inr res => res_ok res = true /\ res_json res = None
  end ->
  handle ToString_nonstring world env (ReqJSON body)
  = (inr (mkNextResponse 500 (JObj [(js "error", JStr (js "Internal server error"))])),
     [chat_request url (chat_payload (model_name env) hint (JStr m))]).
Proof.
  intros Hm Hne Hurl Hu Hh Hw.
  assert (Hb : is_nullish body = false) by (destruct body; simpl in *; congruence).
  unfold handle, POST. simpl. rewrite Hb, Hm, Hurl.
  destruct m as [|c m]; [congruence|]. destruct url as [|u url]; [congruence|].
  simpl. rewrite Hh. simpl.
  destruct (world _ _) as [e|res]; simpl; [reflexivity|].
  destruct Hw as [Hok Hjson]. rewrite Hok, Hjson. reflexivity.
Qed.

End Cases.

Lemma chat_relay_misconfigured_witness :
  handle no_ToString (replying "ok") (mkEnv None (Some (js "llama3")))
    (ReqJSON (JObj [(js "message", JStr (js "hello"))]))
  = (inr (mkNextResponse 500
            (JObj [(js "error", JStr (js "LLM_SERVER_URL is not configured"))])),
     []).
Proof.
  apply (@chat_relay_misconfigured no_ToString (replying "ok")
           (mkEnv None (Some (js "llama3")))
           (JObj [(js "message", JStr (js "hello"))]) 104%N (js "ello")).
  - reflexivity.
  - left. reflexivity.
Defined.

Lemma chat_relay_upstream_error_witness :
  handle no_ToString
    (answering_text 503 "model is loading")
    chat_env (ReqJSON hello_body)
  = (inr (mkNextResponse 502
            (JObj [(js "error", JStr (js "LLM server error"));
                   (js "detail", JStr (js "model is loading"))])),
     [chat_request (js "http://localhost:11434")
        (chat_payload (model_name chat_env) AUTO_DETECT_HINT (JStr (js "hello")))]).
Proof.
  apply (@chat_relay_upstream_error no_ToString
           (answering_text 503 "model is loading")
           chat_env hello_body (js "hello") (js "http://localhost:11434")
           AUTO_DETECT_HINT (js "model is loading")
           (mkResponse 503 (Some (js "model is loading")) None)).
  - reflexivity.
  - vm_compute. discriminate.
  - reflexivity.
  - vm_compute. discriminate.
  - reflexivity.
  - reflexivity.
  - reflexivity.
  - reflexivity.
Defined.

Lemma chat_relay_reply_witness :
  exists reply,
    handle no_ToString (replying "Bill higher because of extra data.") chat_env
      (ReqJSON hello_body)
    = (inr (mkNextResponse 200 (JObj [(js "reply", reply)])),
       [chat_request (js "http://localhost:11434")
          (chat_payload (model_name chat_env) AUTO_DETECT_HINT (JStr (js "hello")))])
    /\ reply = JStr (js "Bill higher because of extra data.").
Proof.
  destruct (@chat_relay_reply no_ToString
              (replying "Bill higher because of extra data.") chat_env hello_body
              (js "hello") (js "http://localhost:11434") AUTO_DETECT_HINT
              (mkResponse 200 None
                 (Some (JObj [(js "message",
                               JObj [(js "content",
                                      JStr (js "Bill higher because of extra data."))])])))
              (JObj [(js "message",
                     JObj [(js "content",
                            JStr (js "Bill higher because of extra data."))])]))
    as [reply [Hrun [Hsome _]]].
  - reflexivity.
  - vm_compute. discriminate.
  - reflexivity.
  - vm_compute. discriminate.
  - reflexivity.
  - reflexivity.
  - reflexivity.
  - reflexivity.
  - exists reply. split; [exact Hrun|].
    rewrite (Hsome eq_refl eq_refl eq_refl). reflexivity.
Defined.

Lemma chat_relay_backend_unreachable_witness :
  handle no_ToString offline chat_env (ReqJSON hello_body)
  = (inr (mkNextResponse 500 (JObj [(js "error", JStr (js "Internal server error"))])),
     [chat_request (js "http://localhost:11434")
        (chat_payload (model_name chat_env) AUTO_DETECT_HINT (JStr (js "hello")))]).
Proof.
  apply (@chat_relay_backend_unreachable no_ToString offline chat_env hello_body
           (js "hello") (js "http://localhost:11434") AUTO_DETECT_HINT).
  - reflexivity.
  - vm_compute. discriminate.
  - reflexivity.
  - vm_compute. discriminate.
  - reflexivity.
  - exact I.
Defined.

(** X6: the request names the model of [LLM_MODEL_NAME]; when that
    variable is unset or empty it names "qwen2.5:7b". *)
Theorem chat_relay_model (ToString_nonstring : jsval -> exn + jsstring)
  (world : oracle) (env : Env) (body : jsval) (m url hint : jsstring) :
  get body (js "message") = JStr m -> m <> [] ->
  LLM_SERVER_URL env = Some url -> url <> [] ->
  languageHint ToString_nonstring (get body (js "language")) = inr hint ->
  exists payload,
    snd (handle ToString_nonstring world env (ReqJSON body))
    = [Fetch (url ++ js "/api/chat")
         (mkInit (js "POST") [(js "Content-Type", js "application/json")]
            (BodyJSON payload))]
    /\ (LLM_MODEL_NAME env = None \/ LLM_MODEL_NAME env = Some [] ->
        get payload (js "model") = JStr (js "qwen2.5:7b"))
    /\ (forall name, LLM_MODEL_NAME env = Some name -> name <> [] ->
        get payload (js "model") = JStr name).
Proof.
  intros Hm Hne Hurl Hu Hh.
  exists (chat_payload (model_name env) hint (JStr m)). split; [|split].
  - exact (ChatRelayFacts.POST_sends ToString_nonstring world env body Hm Hne Hurl Hu Hh).
  - intros [H|H]; unfold model_name; rewrite H; reflexivity.
  - intros name H Hname. unfold model_name. rewrite H.
    destruct name as [|c r]; [congruence | reflexivity].
Qed.

Lemma chat_relay_model_witness :
  exists payload,
    snd (handle no_ToString (replying "ok")
           (mkEnv (Some (js "http://localhost:11434")) (Some []))
           (ReqJSON hello_body))
    = [Fetch (js "http://localhost:11434" ++ js "/api/chat")
         (mkInit (js "POST") [(js "Content-Type", js "application/json")]
            (BodyJSON payload))]
    /\ get payload (js "model") = JStr (js "qwen2.5:7b").
Proof.
  destruct (@chat_relay_model no_ToString (replying "ok")
              (mkEnv (Some (js "http://localhost:11434")) (Some []))
              hello_body (js "hello") (js "http://localhost:11434") AUTO_DETECT_HINT)
    as [payload [Hrun [Hdefault _]]].
  - reflexivity.
  - vm_compute. discriminate.
  - reflexivity.
  - vm_compute. discriminate.
  - reflexivity.
  - exists payload. split; [exact Hrun | apply Hdefault; right; reflexivity].
Defined.

End ChatRelayCases.

(** ** The Transcription Relay, case by case *)

Module AsrRelayCases.
Import AsrRelay JsStringFacts Scenarios MoreScenarios.

(** X7: whatever the request, the environment and the backend, the
    Transcription Relay answers: no exception leaves the handler.  Its
    status is 200, 400 or 500, it makes at most one request to the
    backend, and it answers 200 only after that one request. *)
Theorem asr_relay_always_answers (world : oracle) (env : Env) (req : NextRequest) :
  exists res log,
    handle world env req = (inr res, log)
    /\ (status res = 200 \/ status res = 400 \/ status res = 500)%N
    /\ List.length log <= 1
    /\ (status res = 200%N -> List.length log = 1).
Proof.
  assert (Hdone : forall (st : N) (body : jsval) (log : list request),
    (st = 400 \/ st = 500)%N -> List.length log <= 1 ->
    exists res log',
      (@inr exn NextResponse (NextResponse_json body st), log) = (inr res, log')
      /\ (status res = 200 \/ status res = 400 \/ status res = 500)%N
      /\ List.length log' <= 1
      /\ (status res = 200%N -> List.length log' = 1)).
  { intros st body log Hst Hlog. do 2 eexists. split; [reflexivity|]. simpl.
    split; [tauto|]. split; [exact Hlog|]. intros H; destruct Hst; subst; discriminate. }
  unfold handle, POST.
  destruct (ASR_SERVER_URL env) as [[|c url]|]; simpl; try (apply Hdone; [tauto | simpl; lia]).
  destruct req as [v|f|]; simpl; try (apply Hdone; [tauto | simpl; lia]).
  destruct (form_get (js "audio") f) as [[[|c0 t]|b name]|]; simpl;
    try (apply Hdone; [tauto | simpl; lia]).
  destruct (world _ _) as [e|res]; simpl; try (apply Hdone; [tauto | simpl; lia]).
  destruct (negb (res_ok res)); simpl; try (apply Hdone; [tauto | simpl; lia]).
  destruct (negb (truthy _) || negb (is_string _)); simpl;
    try (apply Hdone; [tauto | simpl; lia]).
  destruct (get _ _); simpl; try (apply Hdone; [tauto | simpl; lia]).
  do 2 eexists. split; [reflexivity|]. simpl. split; [tauto|]. split; [lia|]. reflexivity.
Qed.

(** X8: with [ASR_SERVER_URL] unset or empty every request, whatever it
    holds, is answered with status 500 and the error "ASR_SERVER_URL is
    not configured"; the request is not even read and nothing is sent. *)
Theorem asr_relay_misconfigured (world : oracle) (env : Env) (req : NextRequest) :
  ASR_SERVER_URL env = None \/ ASR_SERVER_URL env = Some [] ->
  handle world env req
  = (inr (mkNextResponse 500
            (JObj [(js "error", JStr (js "ASR_SERVER_URL is not configured"))])),
     []).
Proof. intros [H|H]; unfold handle, POST; rewrite H; reflexivity. Qed.

Lemma asr_relay_misconfigured_witness :
  handle (transcribing_backend "hello") (mkEnv None) ReqOther
  = (inr (mkNextResponse 500
            (JObj [(js "error", JStr (js "ASR_SERVER_URL is not configured"))])),
     []).
Proof.
  apply (@asr_relay_misconfigured (transcribing_backend "hello") (mkEnv None) ReqOther).
  left. reflexivity.
Defined.

(** X9: a request that carries a file under [audio] makes, whatever the
    backend then does, exactly one request: a POST to the configured
    address with one form field, [file], that holds the same blob under
    the file name "input.webm". *)
Theorem asr_relay_forwards_clip (world : oracle) (env : Env) (form : FormData)
  (url : jsstring) (b : Blob) (name : jsstring) :
  ASR_SERVER_URL env = Some url -> url <> [] ->
  form_get (js "audio") form = Some (FFile b name) ->
  snd (handle world env (ReqForm form))
  = [Fetch url (mkInit (js "POST") []
                  (BodyForm [(js "file", FFile b (js "input.webm"))]))].
Proof.
  intros Hurl Hne Haudio. unfold handle, POST. rewrite Hurl.
  destruct url as [|c url]; [congruence|]. simpl. rewrite Haudio. simpl.
  destruct (world _ _) as [e|res]; simpl; [reflexivity|].
  destruct (negb (res_ok res)); simpl; [reflexivity|].
  destruct (negb (truthy _) || negb (is_string _)); simpl; [reflexivity|].
  destruct (get _ _); reflexivity.
Qed.

Lemma asr_relay_forwards_clip_witness :
  snd (handle offline asr_env (ReqForm [(js "audio", FFile clip (js "audio.webm"))]))
  = [Fetch (js "http://localhost:9000/transcribe")
       (mkInit (js "POST") [] (BodyForm [(js "file", FFile clip (js "input.webm"))]))].
Proof.
  apply (@asr_relay_forwards_clip offline asr_env
           [(js "audio", FFile clip (js "audio.webm"))]
           (js "http://localhost:9000/transcribe") clip (js "audio.webm")).
  - reflexivity.
  - vm_compute. discriminate.
  - reflexivity.
Defined.

(** X10: when the backend answers outside 200-299, the relay answers 500
    with the error "ASR backend error", the backend's status as
    [backendStatus] and the backend's text as [backendDetail], the empty
    string if that text cannot be read. *)
Theorem asr_relay_upstream_error (world : oracle) (env : Env) (form : FormData)
  (url : jsstring) (b : Blob) (name : jsstring) (res : Response) :
  ASR_SERVER_URL env = Some url -> url <> [] ->
  form_get (js "audio") form = Some (FFile b name) ->
  world (asr_request url [(js "file", FFile b (js "input.webm"))]) [] = inr res ->
  res_ok res = false ->
  fst (handle world env (ReqForm form))
  = inr (mkNextResponse 500
           (JObj [(js "error", JStr (js "ASR backend error"));
                  (js "backendStatus", JNum (number_of_N (res_status res)));
                  (js "backendDetail",
                   JStr (match res_text res with Some t => t | None => [] end))])).
Proof.
  intros Hurl Hne Haudio Hw Hok. unfold handle, POST. rewrite Hurl.
  destruct url as [|c url]; [congruence|]. simpl. rewrite Haudio. simpl.
  rewrite Hw. simpl. rewrite Hok. reflexivity.
Qed.

Lemma asr_relay_upstream_error_witness :
  fst (handle (answering_text 503 "warming up") asr_env
         (ReqForm [(js "audio", FFile clip (js "audio.webm"))]))
  = inr (mkNextResponse 500
           (JObj [(js "error", JStr (js "ASR backend error"));
                  (js "backendStatus", JNum (number_of_N 503));
                  (js "backendDetail", JStr (js "warming up"))])).
Proof.
  apply (@asr_relay_upstream_error (answering_text 503 "warming up") asr_env
           [(js "audio", FFile clip (js "audio.webm"))]
           (js "http://localhost:9000/transcribe") clip (js "audio.webm")
           (mkResponse 503 (Some (js "warming up")) None)).
  - reflexivity.
  - vm_compute. discriminate.
  - reflexivity.
  - reflexivity.
  - reflexivity.
Defined.

(** X11: when the backend answers within 200-299 but its body is not
    JSON, or is JSON that is falsy (null, false, 0, the empty string), or
    has no [text] that is a string, the relay answers 500 with the error
    "Invalid response from ASR backend". *)
Theorem asr_relay_invalid_response (world : oracle) (env : Env) (form : FormData)
  (url : jsstring) (b : Blob) (name : jsstring) (res : Response) :
  ASR_SERVER_URL env = Some url -> url <> [] ->
  form_get (js "audio") form = Some (FFile b name) ->
  world (asr_request url [(js "file", FFile b (js "input.webm"))]) [] = inr res ->
  res_ok res = true ->
  match res_json res with
  | None => True
  | Some data => truthy data = false \/ is_string (get data (js "text")) = false
  end ->
  fst (handle world env (ReqForm form))
  = inr (mkNextResponse 500
           (JObj [(js "error", JStr (js "Invalid response from ASR backend"))])).
Proof.
  intros Hurl Hne Haudio Hw Hok Hbad. unfold handle, POST. rewrite Hurl.
  destruct url as [|c url]; [congruence|]. simpl. rewrite Haudio. simpl.
  rewrite Hw. simpl. rewrite Hok. simpl.
  destruct (res_json res) as [data|]; simpl; [|reflexivity].
  destruct Hbad as [H|H]; rewrite H; simpl; [reflexivity|].
  rewrite orb_true_r. reflexivity.
Qed.

Lemma asr_relay_invalid_response_witness :
  fst (handle (answering 200 (JObj [(js "text", JNull)])) asr_env
         (ReqForm [(js "audio", FFile clip (js "audio.webm"))]))
  = inr (mkNextResponse 500
           (JObj [(js "error", JStr (js "Invalid response from ASR backend"))])).
Proof.
  apply (@asr_relay_invalid_response (answering 200 (JObj [(js "text", JNull)])) asr_env
           [(js "audio", FFile clip (js "audio.webm"))]
           (js "http://localhost:9000/transcribe") clip (js "audio.webm")
           (mkResponse 200 None (Some (JObj [(js "text", JNull)])))).
  - reflexivity.
  - vm_compute. discriminate.
  - reflexivity.
  - reflexivity.
  - reflexivity.
  - right. reflexivity.
Defined.

(** X12: with the backend address configured, a form in which the field
    [audio] is absent, or holds the empty text, is answered with status
    400 and the error "Missing audio file"; nothing is sent. *)
Theorem asr_relay_missing_audio (world : oracle) (env : Env) (form : FormData)
  (url : jsstring) :
  ASR_SERVER_URL env = Some url -> url <> [] ->
  form_get (js "audio") form = None \/ form_get (js "audio") form = Some (FText []) ->
  handle world env (ReqForm form)
  = (inr (mkNextResponse 400 (JObj [(js "error", JStr (js "Missing audio file"))])), []).
Proof.
  intros Hurl Hne Haudio. unfold handle, POST. rewrite Hurl.
  destruct url as [|c url]; [congruence|]. simpl.
  destruct Haudio as [H|H]; rewrite H; reflexivity.
Qed.

Lemma asr_relay_missing_audio_witness :
  handle (transcribing_backend "hello") asr_env
    (ReqForm [(js "file", FFile clip (js "audio.webm"))])
  = (inr (mkNextResponse 400 (JObj [(js "error", JStr (js "Missing audio file"))])), []).
Proof.
  apply (@asr_relay_missing_audio (transcribing_backend "hello") asr_env
           [(js "file", FFile clip (js "audio.webm"))]
           (js "http://localhost:9000/transcribe")).
  - reflexivity.
  - vm_compute. discriminate.
  - left. reflexivity.
Defined.

(** X13: a transcription that is only white space is not an error for
    the relay: it answers 200 with the empty text. *)
Theorem asr_relay_blank_text (world : oracle) (env : Env) (form : FormData)
  (url : jsstring) (b : Blob) (name : jsstring) (res : Response) (data : jsval)
  (t : jsstring) :
  ASR_SERVER_URL env = Some url -> url <> [] ->
  form_get (js "audio") form = Some (FFile b name) ->
  world (asr_request url [(js "file", FFile b (js "input.webm"))]) [] = inr res ->
  res_ok res = true ->
  res_json res = Some data ->
  get data (js "text") = JStr t ->
  forallb is_white_space t = true ->
  fst (handle world env (ReqForm form))
  = inr (mkNextResponse 200 (JObj [(js "text", JStr [])])).
Proof.
  intros Hurl Hne Haudio Hw Hok Hjson Htext Hblank.
  assert (Hd : truthy data = true) by (destruct data; simpl in *; congruence).
  unfold handle, POST. rewrite Hurl.
  destruct url as [|c url]; [congruence|]. simpl. rewrite Haudio. simpl.
  rewrite Hw. simpl. rewrite Hok, Hjson. simpl. rewrite Hd, Htext. simpl.
  rewrite (trim_blank _ Hblank). reflexivity.
Qed.

Lemma asr_relay_blank_text_witness :
  fst (handle (transcribing_backend "   ") asr_env
         (ReqForm [(js "audio", FFile clip (js "audio.webm"))]))
  = inr (mkNextResponse 200 (JObj [(js "text", JStr [])])).
Proof.
  apply (@asr_relay_blank_text (transcribing_backend "   ") asr_env
           [(js "audio", FFile clip (js "audio.webm"))]
           (js "http://localhost:9000/transcribe") clip (js "audio.webm")
           (mkResponse 200 None (Some (JObj [(js "text", JStr (js "   "))])))
           (JObj [(js "text", JStr (js "   "))]) (js "   ")).
  - reflexivity.
  - vm_compute. discriminate.
  - reflexivity.
  - reflexivity.
  - reflexivity.
  - reflexivity.
  - reflexivity.
  - reflexivity.
Defined.

(** X14: the backend is called only for a form that holds a file under
    [audio]: any other request, whatever the environment, is answered
    without a request to the backend. *)
Theorem asr_relay_calls_only_for_files (world : oracle) (env : Env)
  (req : NextRequest) :
  (forall form b name,
     req = ReqForm form -> form_get (js "audio") form <> Some (FFile b name)) ->
  snd (handle world env req) = [].
Proof.
  intros Hno. unfold handle, POST.
  destruct (ASR_SERVER_URL env) as [[|c url]|]; simpl; try reflexivity.
  destruct req as [v|f|]; simpl; try reflexivity.
  destruct (form_get (js "audio") f) as [[[|c0 t]|b name]|] eqn:Hf; simpl;
    try reflexivity.
  exfalso. exact (Hno f b name eq_refl Hf).
Qed.

Lemma asr_relay_calls_only_for_files_witness :
  snd (handle (transcribing_backend "hello") asr_env
         (ReqForm [(js "audio", FText (js "hello"))])) = [].
Proof.
  apply (@asr_relay_calls_only_for_files (transcribing_backend "hello") asr_env
           (ReqForm [(js "audio", FText (js "hello"))])).
  intros form b name Hreq. inversion Hreq; subst. vm_compute. discriminate.
Defined.

End AsrRelayCases.

(** ** The chat page, case by case *)

Module ChatPageCases.
Import ChatPage Recording JsStringFacts Scenarios MoreScenarios.
Import ChatPageFacts.

(** X15: an accepted submission updates the page before any answer
    arrives.  When [sendMessage] reaches its [await], the chat request is
    pending, the user entry (the trimmed text) is the last of the
    history, the loading flag is up, the error text is cleared, and the
    text box is emptied unless the text came as an argument. *)
Theorem accepted_submit_is_optimistic (render : State)
  (overrideText : option jsstring) (w : World) :
  trim (submitted render overrideText) <> [] ->
  loading render = false ->
  exists w1 k,
    advance (sendMessage render overrideText) w
    = (w1, Some (mkTask (chat_request (trim (submitted render overrideText))
                           (language render)) k))
    /\ messages (ui w1)
       = messages (ui w)
         ++ [mkMessage user (JStr (trim (submitted render overrideText)))]
    /\ loading (ui w1) = true
    /\ errorText (ui w1) = JStr []
    /\ input (ui w1)
       = match overrideText with Some (_ :: _) => input (ui w) | _ => [] end.
Proof.
  intros Hc Hl. unfold sendMessage. rewrite (is_empty_false Hc), Hl.
  remember (trim (submitted render overrideText)) as content eqn:Hcontent.
  destruct overrideText as [[|c t]|]; simpl; do 2 eexists;
    (split; [reflexivity|]); repeat split.
Qed.

Lemma accepted_submit_is_optimistic_witness :
  exists w1 k,
    advance (sendMessage (typing " hello ") None) initial_world
    = (w1, Some (mkTask (chat_request (trim (submitted (typing " hello ") None))
                           (language (typing " hello "))) k))
    /\ messages (ui w1)
       = messages (ui initial_world)
         ++ [mkMessage user (JStr (trim (submitted (typing " hello ") None)))]
    /\ loading (ui w1) = true
    /\ errorText (ui w1) = JStr []
    /\ input (ui w1) = [].
Proof.
  apply (@accepted_submit_is_optimistic (typing " hello ") None initial_world).
  - vm_compute. discriminate.
  - reflexivity.
Defined.

(** X16: when the chat request of an accepted submission is answered
    within 200-299 with JSON that is not null, the history ends with the
    user entry and one assistant entry, no error text is left and the
    loading flag is down.  The assistant entry holds [data.reply] if that
    is truthy; if it is missing or empty it holds the fixed apology. *)
Theorem answered_submit_appends_reply (world : oracle) (render : State)
  (overrideText : option jsstring) (w : World) (log : list request)
  (res : Response) (data : jsval) :
  trim (submitted render overrideText) <> [] ->
  loading render = false ->
  world (chat_request (trim (submitted render overrideText)) (language render)) log
  = inr res ->
  res_ok res = true ->
  res_json res = Some data ->
  is_nullish data = false ->
  exists w' reply,
    run world (sendMessage render overrideText) w log
    = (inr tt, w',
       log ++ [chat_request (trim (submitted render overrideText)) (language render)])
    /\ messages (ui w')
       = messages (ui w)
         ++ [mkMessage user (JStr (trim (submitted render overrideText)));
             mkMessage assistant reply]
    /\ (truthy (get data (js "reply")) = true -> reply = get data (js "reply"))
    /\ (truthy (get data (js "reply")) = false -> reply = JStr FALLBACK_REPLY)
    /\ errorText (ui w') = JStr []
    /\ loading (ui w') = false.
Proof.
  intros Hc Hl Hw Hok Hjson Hd. unfold sendMessage. rewrite (is_empty_false Hc), Hl.
  remember (trim (submitted render overrideText)) as content eqn:Hcontent.
  destruct overrideText as [[|c t]|]; simpl; rewrite Hw; simpl; rewrite Hok; simpl;
    rewrite Hjson; simpl; rewrite Hd; simpl;
    do 2 eexists; (split; [reflexivity|]); simpl;
    (split; [rewrite <- app_assoc; reflexivity|]);
    unfold or_else; (split; [intros ->; reflexivity|]);
    (split; [intros ->; reflexivity|]); split; reflexivity.
Qed.

Lemma answered_submit_appends_reply_witness :
  exists w' reply,
    run (answering 200 (JObj [(js "reply", JStr [])]))
      (sendMessage (typing "hello") None) initial_world []
    = (inr tt, w',
       [] ++ [chat_request (trim (submitted (typing "hello") None))
                (language (typing "hello"))])
    /\ messages (ui w')
       = messages (ui initial_world)
         ++ [mkMessage user (JStr (trim (submitted (typing "hello") None)));
             mkMessage assistant reply]
    /\ reply = JStr FALLBACK_REPLY.
Proof.
  destruct (@answered_submit_appends_reply
              (answering 200 (JObj [(js "reply", JStr [])]))
              (typing "hello") None initial_world []
              (mkResponse 200 None (Some (JObj [(js "reply", JStr [])])))
              (JObj [(js "reply", JStr [])]))
    as [w' [reply [Hrun [Hmsg [_ [Hfallback _]]]]]].
  - vm_compute. discriminate.
  - reflexivity.
  - reflexivity.
  - reflexivity.
  - reflexivity.
  - reflexivity.
  - exists w', reply. split; [exact Hrun|]. split; [exact Hmsg|].
    apply Hfallback. reflexivity.
Defined.

(** X17: when the chat request is answered within 200-299 but the body is
    not JSON, or is JSON null, the page treats it as a network failure:
    the user entry stays, no assistant entry is added, the error text is
    "Network request failed. ..." and the loading flag is down. *)
Theorem garbled_answer_is_network_failure (world : oracle) (render : State)
  (overrideText : option jsstring) (w : World) (log : list request)
  (res : Response) :
  trim (submitted render overrideText) <> [] ->
  loading render = false ->
  world (chat_request (trim (submitted render overrideText)) (language render)) log
  = inr res ->
  res_ok res = true ->
  match res_json res with None => True | Some data => is_nullish data = true end ->
  exists w',
    run world (sendMessage render overrideText) w log
    = (inr tt, w',
       log ++ [chat_request (trim (submitted render overrideText)) (language render)])
    /\ messages (ui w')
       = messages (ui w)
         ++ [mkMessage user (JStr (trim (submitted render overrideText)))]
    /\ errorText (ui w') = JStr NETWORK_FAILED
    /\ loading (ui w') = false.
Proof.
  intros Hc Hl Hw Hok Hbad. unfold sendMessage. rewrite (is_empty_false Hc), Hl.
  remember (trim (submitted render overrideText)) as content eqn:Hcontent.
  destruct overrideText as [[|c t]|]; simpl; rewrite Hw; simpl; rewrite Hok; simpl;
    (destruct (res_json res) as [data|]; simpl; [rewrite Hbad; simpl|]);
    eexists; (split; [reflexivity|]); repeat split.
Qed.

Lemma garbled_answer_is_network_failure_witness :
  exists w',
    run garbled (sendMessage (typing "hello") None) initial_world []
    = (inr tt, w',
       [] ++ [chat_request (trim (submitted (typing "hello") None))
                (language (typing "hello"))])
    /\ messages (ui w')
       = messages (ui initial_world)
         ++ [mkMessage user (JStr (trim (submitted (typing "hello") None)))]
    /\ errorText (ui w') = JStr NETWORK_FAILED
    /\ loading (ui w') = false.
Proof.
  apply (@garbled_answer_is_network_failure garbled (typing "hello") None
           initial_world [] (mkResponse 200 (Some (js "<html>")) None)).
  - vm_compute. discriminate.
  - reflexivity.
  - reflexivity.
  - reflexivity.
  - exact I.
Defined.

(** X18: [transcribeAudio] never throws and makes exactly one request,
    the upload of the clip under [audio].  It ends with the transcribing
    flag down and the history untouched, and returns either the empty
    string, with the error "Voice recognition failed. ..." set, or a
    text that is not empty and has no white space at its ends, with the
    recording error cleared. *)
Theorem transcribeAudio_contract (world : oracle) (blob : Blob) (w : World)
  (log : list request) :
  exists text w',
    run world (transcribeAudio blob) w log
    = (inr text, w', log ++ [asr_request blob])
    /\ isTranscribing (ui w') = false
    /\ messages (ui w') = messages (ui w)
    /\ ((text = [] /\ recordingError (ui w') = VOICE_FAILED)
        \/ (text <> [] /\ trim text = text /\ recordingError (ui w') = [])).
Proof.
  unfold transcribeAudio. simpl.
  asr_outcomes world (asr_request blob) log res data t;
    try (do 2 eexists; split; [reflexivity|]; split; [reflexivity|];
         split; [reflexivity|]; left; split; reflexivity).
  do 2 eexists. split; [reflexivity|]. split; [reflexivity|]. split; [reflexivity|].
  right. split; [discriminate|]. split; [|reflexivity].
  match goal with H : trim t = _ |- _ => rewrite <- H end. apply trim_idempotent.
Qed.

(** A quiet program, run to its end, leaves the recording state as it
    was. *)
Lemma run_quiet {A : Type} (world : oracle) (p : prog World A) :
  quiet p ->
  forall w log, same_recording (final_state (run world p w log)) w.
Proof.
  induction 1 as [a|e|f k Hf Hk IH|k Hk IH|url init k Hk IH]; intros w log; simpl.
  - apply same_recording_refl.
  - apply same_recording_refl.
  - eapply same_recording_trans; [apply IH | apply Hf].
  - apply IH.
  - apply IH.
Qed.

(** X19: submitting a message and handling a recorded clip never touch
    the recording: whatever the servers answer, the recorders of the
    browser, [mediaRecorderRef] and the recording flag are after the run
    what they were before it. *)
Theorem messaging_leaves_recording_alone (world : oracle) (render : State)
  (overrideText : option jsstring) (blob : Blob) (w : World) (log : list request) :
  same_recording (final_state (run world (sendMessage render overrideText) w log)) w
  /\ same_recording (final_state (run world (handleAudioBlob render blob) w log)) w.
Proof.
  split; apply run_quiet; [apply quiet_sendMessage | apply quiet_handleAudioBlob].
Qed.

(** X20: where the microphone cannot be asked for, [startRecording] stops
    at once: no request for the microphone is made and no recorder is
    created.  On a page that is not in a secure context the recording
    error says that HTTPS or localhost is required; in a browser without
    [getUserMedia] it says that the microphone is not supported. *)
Theorem startRecording_blocked (render : State) (w : World) :
  isSecureContext (browser w) = false \/ hasGetUserMedia (browser w) = false ->
  exists w',
    advance (startRecording render) w = (w', None)
    /\ same_recording w' w
    /\ mediaStreamRef w' = mediaStreamRef w
    /\ recordingError (ui w')
       = (if isSecureContext (browser w)
          then js "Microphone is not supported in this browser."
          else js "Browser requires HTTPS or localhost for microphone access. Please open this demo on http://localhost:3000 or via HTTPS.").
Proof.
  intros H. unfold startRecording. simpl.
  destruct (isSecureContext (browser w)); simpl.
  - destruct H as [H|H]; [discriminate|]. rewrite H. simpl.
    eexists. split; [reflexivity|]. repeat split.
  - eexists. split; [reflexivity|]. repeat split.
Qed.

Lemma startRecording_blocked_witness :
  exists w',
    advance (startRecording initial_state) insecure_world = (w', None)
    /\ same_recording w' insecure_world
    /\ mediaStreamRef w' = mediaStreamRef insecure_world
    /\ recordingError (ui w')
       = (if isSecureContext (browser insecure_world)
          then js "Microphone is not supported in this browser."
          else js "Browser requires HTTPS or localhost for microphone access. Please open this demo on http://localhost:3000 or via HTTPS.").
Proof.
  apply (@startRecording_blocked initial_state insecure_world). left. reflexivity.
Defined.

(** Where the microphone can be asked for, [startRecording] suspends on
    the request; what it does next depends on the answer and on the
    browser alone. *)
Lemma startRecording_suspends (render : State) (w : World) :
  isSecureContext (browser w) = true ->
  hasGetUserMedia (browser w) = true ->
  exists k,
    advance (startRecording render) w
    = (with_ui (set_recordingError []) w, Some (mkTask GetUserMedia k))
    /\ (forall e w0,
          advance (k (@inl exn MediaStream e)) w0
          = (with_ui (set_recordingError (microphone_error (exn_name e))) w0, None))
    /\ (forall stream w0, exists w',
          advance (k (@inr exn MediaStream stream)) w0 = (w', None)
          /\ after_grant render stream w' w0).
Proof.
  intros Hsec Hsup. unfold startRecording. simpl. rewrite Hsec, Hsup. simpl.
  eexists. split; [reflexivity|]. split.
  - intros e w0. reflexivity.
  - intros stream w0. unfold after_grant. simpl.
    destruct (hasAudioContext (browser w0)); simpl;
      (destruct (MediaRecorder_throws (browser w0)) as [e|]; simpl;
       [ | destruct (start_throws (browser w0)) as [e|]; simpl ]);
      (eexists; split; [reflexivity|]); simpl; rewrite ?update_nth_last;
      repeat split.
Qed.

Lemma mounted_event (sys : System) (ev : event) :
  mounted sys = true -> user_event ev && negb (mounted sys) = false.
Proof. intros H. rewrite H. apply andb_false_r. Qed.

Lemma click_starts (sys : System) :
  mounted sys = true ->
  mic_disabled (ui (world sys)) = false ->
  isRecording (ui (world sys)) = false ->
  isSecureContext (browser (world sys)) = true ->
  hasGetUserMedia (browser (world sys)) = true ->
  exists k,
    step sys ClickMic
    = mkSystem (with_ui (set_recordingError []) (world sys))
        (pending sys ++ [mkTask GetUserMedia k])
    /\ (forall e w0,
          advance (k (@inl exn MediaStream e)) w0
          = (with_ui (set_recordingError (microphone_error (exn_name e))) w0, None))
    /\ (forall stream w0, exists w',
          advance (k (@inr exn MediaStream stream)) w0 = (w', None)
          /\ after_grant (ui (world sys)) stream w' w0).
Proof.
  intros Hmount Hmic Hrec Hsec Hsup.
  destruct (startRecording_suspends (ui (world sys)) (world sys) Hsec Hsup)
    as [k [Hadv [Hno Hyes]]].
  exists k. split; [|split; assumption].
  unfold step. rewrite (@mounted_event sys ClickMic Hmount), Hmic.
  unfold handleToggleRecording. rewrite Hrec.
  unfold spawn. rewrite Hadv, (@commit_mounted (world sys) _ Hmount). reflexivity.
Qed.

(** The answer to the microphone request of the click: the step runs
    what is left of [startRecording] on the page as the click left it. *)
Lemma answer_resumes (sys : System) (k : exn + MediaStream -> prog World unit)
  (o : exn + MediaStream) (w' : World) :
  mounted sys = true ->
  advance (k o) (with_ui (set_recordingError []) (world sys)) = (w', None) ->
  step (mkSystem (with_ui (set_recordingError []) (world sys))
          (pending sys ++ [mkTask GetUserMedia k]))
    (Settled (List.length (pending sys)) (MediaAnswer o))
  = mkSystem w' (pending sys).
Proof.
  intros Hmount Hadv. unfold step. cbn [user_event andb world pending].
  destruct (pending_last (pending sys) (mkTask GetUserMedia k)) as [Hnth Hrest].
  rewrite Hnth. cbn [resume]. unfold spawn. rewrite Hadv, Hrest.
  rewrite commit_mounted; [reflexivity | exact Hmount].
Qed.

(** X21: a click on the enabled microphone button of a mounted page that
    is not recording, in a browser that can be asked, leaves one
    microphone request pending.  If the request is refused, the recording error
    names the exception (the word "error" if it has no name), no recorder
    is created and the recording flag stays down. *)
Theorem microphone_refused (sys : System) (e : exn) :
  mounted sys = true ->
  mic_disabled (ui (world sys)) = false ->
  isRecording (ui (world sys)) = false ->
  isSecureContext (browser (world sys)) = true ->
  hasGetUserMedia (browser (world sys)) = true ->
  let s1 := step sys ClickMic in
  let s2 := step s1 (Settled (List.length (pending sys)) (MediaAnswer (inl e))) in
  map task_request (pending s1) = map task_request (pending sys) ++ [GetUserMedia]
  /\ pending s2 = pending sys
  /\ recordingError (ui (world s2)) = microphone_error (exn_name e)
  /\ same_recording (world s2) (world sys).
Proof.
  intros Hmount Hmic Hrec Hsec Hsup s1 s2. subst s1 s2.
  destruct (click_starts sys Hmount Hmic Hrec Hsec Hsup) as [k [Hstep [Hno _]]].
  rewrite Hstep. split; [cbn [pending]; rewrite map_app; reflexivity|].
  rewrite (@answer_resumes sys k (inl e) _ Hmount (Hno e _)).
  cbn [world pending]. repeat split.
Qed.

Lemma microphone_refused_witness :
  recordingError (ui (world
    (step (step initial_system ClickMic)
       (Settled (List.length (pending initial_system))
          (MediaAnswer (inl (mkExn (js "NotAllowedError") (js "Permission denied"))))))))
  = microphone_error (exn_name (mkExn (js "NotAllowedError") (js "Permission denied"))).
Proof.
  destruct (@microphone_refused initial_system
              (mkExn (js "NotAllowedError") (js "Permission denied"))
              eq_refl eq_refl eq_refl eq_refl eq_refl) as [_ [_ [H _]]].
  exact H.
Defined.

(** X22: if the microphone request of such a click is granted, nothing
    is left pending of the click, [mediaStreamRef] holds the granted
    stream and the chunks are reset; what follows is up to the browser.
    If [new MediaRecorder(stream)] and [recorder.start()] succeed, one
    more recorder exists: it records the granted stream,
    [mediaRecorderRef] holds it and the recording flag is up.  If the
    constructor throws, no recorder is created; if [start()] throws, the
    new recorder stays inactive.  In both cases the recording flag stays
    down, the recording error names the exception, and the granted
    stream is not released: its tracks are not stopped. *)
Theorem microphone_granted (sys : System) (stream : MediaStream) :
  mounted sys = true ->
  mic_disabled (ui (world sys)) = false ->
  isRecording (ui (world sys)) = false ->
  isSecureContext (browser (world sys)) = true ->
  hasGetUserMedia (browser (world sys)) = true ->
  let s2 := step (step sys ClickMic)
              (Settled (List.length (pending sys)) (MediaAnswer (inr stream))) in
  pending s2 = pending sys
  /\ mediaStreamRef (world s2) = Some stream
  /\ audioChunksRef (world s2) = []
  /\ ended_streams (browser (world s2)) = ended_streams (browser (world sys))
  /\ messages (ui (world s2)) = messages (ui (world sys))
  /\ match MediaRecorder_throws (browser (world sys)),
           start_throws (browser (world sys)) with
     | None, None =>
         recorders (browser (world s2))
         = recorders (browser (world sys))
           ++ [mkRecorder stream recording false (ui (world sys))]
         /\ mediaRecorderRef (world s2)
            = Some (List.length (recorders (browser (world sys))))
         /\ isRecording (ui (world s2)) = true
         /\ recordingError (ui (world s2)) = []
     | None, Some e =>
         recorders (browser (world s2))
         = recorders (browser (world sys))
           ++ [mkRecorder stream inactive false (ui (world sys))]
         /\ mediaRecorderRef (world s2)
            = Some (List.length (recorders (browser (world sys))))
         /\ isRecording (ui (world s2)) = false
         /\ recordingError (ui (world s2)) = microphone_error (exn_name e)
     | Some e, _ =>
         same_recording (world s2) (world sys)
         /\ recordingError (ui (world s2)) = microphone_error (exn_name e)
     end.
Proof.
  intros Hmount Hmic Hrec Hsec Hsup s2. subst s2.
  destruct (click_starts sys Hmount Hmic Hrec Hsec Hsup) as [k [Hstep [_ Hyes]]].
  rewrite Hstep.
  destruct (Hyes stream (with_ui (set_recordingError []) (world sys)))
    as [w' [Hadv [H1 [H2 [H3 [H4 [_ H5]]]]]]].
  rewrite (@answer_resumes sys k (inr stream) _ Hmount Hadv).
  cbn [world pending]. simpl in H3, H4, H5.
  split; [reflexivity|]. split; [exact H1|]. split; [exact H2|].
  split; [exact H3|]. split; [exact H4|].
  destruct (MediaRecorder_throws (browser (world sys))) as [e|].
  - destruct H5 as [[Ha [Hb Hc]] Hd]. simpl in Ha, Hb, Hc.
    split; [repeat split; assumption | exact Hd].
  - destruct (start_throws (browser (world sys))) as [e|];
      destruct H5 as [Ha [Hb [Hc Hd]]]; simpl in Hc; rewrite ?Hrec in Hc;
      repeat split; assumption.
Qed.

Lemma microphone_granted_witness :
  isRecording (ui (world
    (step (step initial_system ClickMic)
       (Settled (List.length (pending initial_system))
          (MediaAnswer (inr (mkStream 1))))))) = true.
Proof.
  destruct (@microphone_granted initial_system (mkStream 1)
              eq_refl eq_refl eq_refl eq_refl eq_refl) as [_ [_ [_ [_ [_ [_ [_ [H _]]]]]]]].
  exact H.
Defined.

(** X23: when a recorder has stopped, [onstop] releases the microphone
    before anything is sent.  By the time the upload is pending the
    tracks of the stream in [mediaStreamRef] are stopped and the
    reference is cleared, the volume meter is shut down and reads zero,
    the chunks are emptied, and the clip being uploaded is the
    concatenation of the chunks, in order, typed "audio/webm". *)
Theorem onstop_releases_microphone (render : State) (w : World) :
  exists w1 k,
    advance (onstop render) w
    = (w1, Some (mkTask
                   (asr_request
                      (mkBlob (List.concat (map blob_bytes (audioChunksRef w)))
                         (js "audio/webm"))) k))
    /\ mediaStreamRef w1 = None
    /\ (forall s, mediaStreamRef w = Some s ->
          In (stream_id s) (ended_streams (browser w1)))
    /\ audioChunksRef w1 = []
    /\ audioContextRef w1 = None
    /\ analyserRef w1 = None
    /\ animationFrameRef w1 = None
    /\ volumeLevel (ui w1) = 0%float
    /\ isTranscribing (ui w1) = true
    /\ same_recording w1 w.
Proof.
  unfold onstop, stopVolumeVisualization, handleAudioBlob, transcribeAudio. simpl.
  destruct (mediaStreamRef w) as [s|] eqn:Hs; simpl;
    destruct (animationFrameRef w) eqn:Hf; simpl;
    destruct (audioContextRef w) eqn:Hc; simpl;
    do 2 eexists; (split; [reflexivity|]); simpl;
    repeat split; try reflexivity; try assumption;
    try (intros s0 H0; first [discriminate H0 | inversion H0; subst; left; reflexivity]).
Qed.

Lemma patient_prefix (evs : list event) (n : nat) (sys : System) :
  patient sys evs -> patient sys (firstn n evs).
Proof.
  revert n sys. induction evs as [|ev evs IH]; intros [|n] sys H; simpl; auto.
  destruct H as [Hev Hrest]. split; [exact Hev | apply IH; exact Hrest].
Qed.

(** X24: as long as the microphone button is not clicked while a
    microphone request is pending, at most one recorder is recording at
    every moment of a run of the page, whatever the other events are and
    however the requests are answered. *)
Theorem one_session_at_every_step (evs : list event) (n : nat) :
  patient initial_system evs ->
  active_sessions (world (run_events initial_system (firstn n evs))) <= 1.
Proof.
  intros Hp.
  destruct (patient_keeps_invariant (firstn n evs) initial_invariant
              (patient_prefix evs n initial_system Hp)) as [_ Hone _].
  lia.
Qed.

Lemma one_session_at_every_step_witness :
  active_sessions (world (run_events initial_system
    (firstn 2
       [ClickMic; Settled 0 (MediaAnswer (inr (mkStream 1))); ClickMic;
        RecorderStopped 0 clip]))) <= 1.
Proof.
  apply (@one_session_at_every_step
           [ClickMic; Settled 0 (MediaAnswer (inr (mkStream 1))); ClickMic;
            RecorderStopped 0 clip] 2).
  vm_compute. repeat split; intros H; first [discriminate H | reflexivity].
Defined.

(** X25: in every state of the page, pressing Enter without Shift in the
    text box does what a click on the Send button does: the guard of
    [sendMessage] refuses what the disabled button refuses.  Any other
    key, and Enter with Shift, starts nothing and changes nothing. *)
Theorem enter_is_send (sys : System) (key : jsstring) (shiftKey : bool) :
  Keyboard.keydown sys key shiftKey
  = (if str_eqb key (js "Enter") && negb shiftKey then step sys ClickSend else sys)
  /\ step sys PressEnter = step sys ClickSend.
Proof.
  destruct sys as [w tasks].
  assert (Hsame : step (mkSystem w tasks) PressEnter = step (mkSystem w tasks) ClickSend).
  { unfold step, mounted. cbn [user_event andb world pending].
    destruct (renders (ui w)) eqn:Hm; [|reflexivity]. cbn [negb].
    destruct (send_disabled (ui w)) eqn:Hd; [|reflexivity].
    unfold send_disabled in Hd. unfold sendMessage, submitted.
    rewrite orb_comm, Hd. unfold spawn. cbn [advance].
    rewrite (@commit_mounted w w Hm). reflexivity. }
  split; [|exact Hsame].
  unfold Keyboard.keydown, Keyboard.handleKeyDown.
  destruct (mounted (mkSystem w tasks)) eqn:Hm.
  - destruct (str_eqb key (js "Enter") && negb shiftKey).
    + rewrite <- Hsame. unfold step. rewrite Hm. reflexivity.
    + cbn [snd world pending]. unfold spawn. cbn [advance].
      rewrite (@commit_mounted w w Hm). reflexivity.
  - unfold step. rewrite Hm.
    destruct (str_eqb key (js "Enter") && negb shiftKey); reflexivity.
Qed.

End ChatPageCases.

(** ** The history of the conversation *)
Module HistoryFacts.
Import ChatPage Recording History JsStringFacts ChatPageFacts.

Lemma steady_bind (R : World -> World -> Prop) {A B : Type}
  (p : prog World A) (f : A -> prog World B) :
  steady R p -> (forall a, steady R (f a)) -> steady R (bind p f).
Proof. intros Hp Hf. induction Hp; simpl; auto using steady. Qed.

Lemma steady_try_catch (R : World -> World -> Prop) {A : Type}
  (p : prog World A) (h : exn -> prog World A) :
  steady R p -> (forall e, steady R (h e)) -> steady R (try_catch p h).
Proof. intros Hp Hh. induction Hp; simpl; auto using steady. Qed.

Lemma steady_try_finally (R : World -> World -> Prop) {A : Type}
  (p : prog World A) (f : prog World unit) :
  steady R p -> steady R f -> steady R (try_finally p f).
Proof.
  intros Hp Hf. induction Hp; simpl; auto using steady;
    (apply steady_bind; [exact Hf | intros; constructor]).
Qed.

Lemma steady_update (R : World -> World -> Prop) (f : World -> World) :
  (forall w, R (f w) w) -> steady R (update f).
Proof. intros Hf. unfold update. constructor; [exact Hf | constructor]. Qed.

Lemma grows_refl (w : World) : grows w w.
Proof. exists []. split; [now rewrite app_nil_r | constructor]. Qed.

Lemma grows_trans (w1 w2 w3 : World) : grows w1 w2 -> grows w2 w3 -> grows w1 w3.
Proof.
  intros [r1 [H1 F1]] [r2 [H2 F2]]. exists (r2 ++ r1). split.
  - rewrite H1, H2, app_assoc. reflexivity.
  - apply Forall_app. split; assumption.
Qed.

Lemma grows_same (w' w : World) : messages (ui w') = messages (ui w) -> grows w' w.
Proof. intros H. exists []. split; [now rewrite app_nil_r | constructor]. Qed.

Lemma grows_entry (w : World) (m : ChatMessage) :
  well_formed m -> grows (with_ui (set_messages (fun prev => prev ++ [m])) w) w.
Proof. intros Hm. exists [m]. split; [reflexivity | constructor; [exact Hm | constructor]]. Qed.

(** One step of the decomposition of a page function into its state
    updates. *)
Ltac steady_step :=
  match goal with
  | |- steady _ (bind _ _) => apply steady_bind; [|intros]
  | |- steady _ (try_catch _ _) => apply steady_try_catch; [|intros]
  | |- steady _ (try_finally _ _) => apply steady_try_finally
  | |- steady _ (Ret _) => constructor
  | |- steady _ (Throw _) => constructor
  | |- steady _ (Read _) => constructor; intros
  | |- steady _ (Await _ _) => constructor; intros
  | |- steady _ (await _) => unfold await
  | |- steady _ (update _) => apply steady_update; intros
  | |- steady _ (settle ?o _) => destruct o; simpl
  | |- steady _ (call_trim ?v) => destruct v; simpl
  | |- steady _ (if ?b then _ else _) => destruct b
  | |- steady _ (match ?x with _ => _ end) => destruct x
  end.

Ltac unchanged := apply grows_same; reflexivity.

Lemma steady_sendMessage (render : State) (overrideText : option jsstring) :
  steady grows (sendMessage render overrideText).
Proof.
  unfold sendMessage.
  destruct (is_empty (trim (submitted render overrideText))) eqn:Hempty;
    [constructor|].
  destruct (loading render); [constructor|]. cbn [orb].
  unfold setMessages, setInput, setErrorText, setLoading.
  repeat steady_step; try unchanged.
  - apply grows_entry. split.
    + simpl. rewrite Hempty. reflexivity.
    + intros _. eexists. split; [reflexivity|]. split; [|apply trim_idempotent].
      intros H. rewrite H in Hempty. discriminate Hempty.
  - apply grows_entry. split.
    + apply or_else_truthy. reflexivity.
    + intros Hrole. discriminate Hrole.
Qed.

Lemma steady_transcribeAudio (blob : Blob) : steady grows (transcribeAudio blob).
Proof.
  unfold transcribeAudio, setRecordingError, setIsTranscribing.
  repeat steady_step; unchanged.
Qed.

Lemma steady_handleAudioBlob (render : State) (blob : Blob) :
  steady grows (handleAudioBlob render blob).
Proof.
  unfold handleAudioBlob. apply steady_bind; [apply steady_transcribeAudio|].
  intros text. destruct (is_empty text); [constructor | apply steady_sendMessage].
Qed.

Lemma steady_stopVolumeVisualization : steady grows stopVolumeVisualization.
Proof.
  unfold stopVolumeVisualization, setVolumeLevel. repeat steady_step; unchanged.
Qed.

Lemma steady_startVolumeVisualization (stream : MediaStream) :
  steady grows (startVolumeVisualization stream).
Proof.
  unfold startVolumeVisualization, setVolumeLevel. repeat steady_step; unchanged.
Qed.

Lemma steady_onstop (render : State) : steady grows (onstop render).
Proof.
  unfold onstop. apply steady_bind; [|intros _; apply steady_bind].
  - repeat steady_step; unchanged.
  - apply steady_stopVolumeVisualization.
  - intros _. constructor. intros w. apply steady_bind.
    + apply steady_update. intros; unchanged.
    + intros _. apply steady_handleAudioBlob.
Qed.

Lemma steady_ondataavailable (data : Blob) : steady grows (ondataavailable data).
Proof. unfold ondataavailable. repeat steady_step; unchanged. Qed.

Lemma steady_startRecording (render : State) : steady grows (startRecording render).
Proof.
  unfold startRecording, setRecordingError, setIsRecording.
  apply steady_try_catch; [|intros; apply steady_update; intros; unchanged].
  apply steady_bind; [apply steady_update; intros; unchanged|]. intros _.
  constructor. intros w.
  destruct (negb (isSecureContext (browser w)));
    [apply steady_update; intros; unchanged|].
  destruct (negb (hasGetUserMedia (browser w)));
    [apply steady_update; intros; unchanged|].
  apply steady_bind; [repeat steady_step|]. intros stream.
  apply steady_bind; [apply steady_update; intros; unchanged|]. intros _.
  apply steady_bind; [apply steady_startVolumeVisualization|]. intros _.
  repeat steady_step; unchanged.
Qed.

Lemma steady_stopRecording : steady grows stopRecording.
Proof. unfold stopRecording, setIsRecording. repeat steady_step; unchanged. Qed.

Lemma steady_handleToggleRecording (render : State) :
  steady grows (handleToggleRecording render).
Proof.
  unfold handleToggleRecording.
  destruct (isRecording render); [apply steady_stopRecording | apply steady_startRecording].
Qed.

(** Running a steady program up to its next await. *)
Lemma advance_steady (p : prog World unit) :
  steady grows p ->
  forall w w' t,
    advance p w = (w', t) ->
    grows w' w
    /\ match t with None => True | Some t0 => steady_task grows t0 end.
Proof.
  induction 1 as [a|e|f k Hf Hk IH|k Hk IH|r k Hk IH]; simpl; intros w w' t Hadv.
  - inversion Hadv; subst. split; [apply grows_refl | exact I].
  - inversion Hadv; subst. split; [apply grows_refl | exact I].
  - destruct (IH _ _ _ Hadv) as [Hsame Ht]. split; [|exact Ht].
    eapply grows_trans; [exact Hsame | apply Hf].
  - exact (IH _ _ _ _ Hadv).
  - inversion Hadv; subst. split; [apply grows_refl | exact Hk].
Qed.

Lemma grows_commit (w w' : World) : grows w' w -> grows (commit w w') w.
Proof.
  intros Hg. unfold commit. destruct (renders (ui w)); [exact Hg|].
  apply grows_same. reflexivity.
Qed.

Lemma spawn_steady (p : prog World unit) (w : World) (rest : list Task) :
  steady grows p -> Forall (steady_task grows) rest ->
  grows (world (spawn p w rest)) w
  /\ (mounted (spawn p w rest) = true -> renders (ui w) = true)
  /\ steady_system (spawn p w rest).
Proof.
  intros Hp Hrest. unfold spawn, steady_system, mounted.
  destruct (advance p w) as [w' [t|]] eqn:Hadv;
    destruct (advance_steady Hp _ Hadv) as [Hg Ht]; simpl.
  - split; [exact (grows_commit Hg)|]. split; [apply unmounted_stays|].
    apply Forall_app. split; [exact Hrest | constructor; [exact Ht | constructor]].
  - split; [exact (grows_commit Hg)|]. split; [apply unmounted_stays | exact Hrest].
Qed.

Lemma resume_steady (t : Task) (a : answer) (p : prog World unit) :
  steady_task grows t -> resume t a = Some p -> steady grows p.
Proof.
  destruct t as [r k]. unfold steady_task. simpl.
  destruct r; destruct a; intros Hk H; inversion H; subst; apply Hk.
Qed.

(** One event: the history grows, an unmounted page stays unmounted, and
    what is pending keeps the history growing. *)
Lemma step_steady (sys : System) (ev : event) :
  steady_system sys ->
  grows (world (step sys ev)) (world sys)
  /\ (mounted (step sys ev) = true -> mounted sys = true)
  /\ steady_system (step sys ev).
Proof.
  intros Hsys. destruct sys as [w tasks]. unfold steady_system in Hsys.
  simpl in Hsys.
  assert (Hstay : grows w w
                  /\ (mounted (mkSystem w tasks) = true
                      -> mounted (mkSystem w tasks) = true)
                  /\ steady_system (mkSystem w tasks))
    by (split; [apply grows_refl | split; [auto | exact Hsys]]).
  unfold step.
  destruct (user_event ev && negb (mounted (mkSystem w tasks))) eqn:Hguard;
    [exact Hstay|].
  destruct ev; cbn [world pending];
    try (assert (Hm : mounted (mkSystem w tasks) = true)
           by (simpl in Hguard;
               destruct (mounted (mkSystem w tasks)); [reflexivity | discriminate Hguard])).
  - destruct (mic_disabled (ui w)); [exact Hstay|].
    apply spawn_steady; [apply steady_handleToggleRecording | exact Hsys].
  - destruct (send_disabled (ui w)); [exact Hstay|].
    apply spawn_steady; [apply steady_sendMessage | exact Hsys].
  - apply spawn_steady; [apply steady_sendMessage | exact Hsys].
  - split; [unchanged | split; [intros _; exact Hm | exact Hsys]].
  - split; [unchanged | split; [intros _; exact Hm | exact Hsys]].
  - destruct (nth_error tasks i) as [t|] eqn:Hi; [|exact Hstay].
    destruct (resume t a) as [p|] eqn:Hres; [|exact Hstay].
    apply spawn_steady.
    + apply (@resume_steady t a p); [|exact Hres].
      rewrite Forall_forall in Hsys. apply Hsys. eapply nth_error_In. exact Hi.
    + apply Forall_remove. exact Hsys.
  - destruct (nth_error (recorders (browser w)) id) as [r|]; [|exact Hstay].
    destruct (rec_stop_queued r); [|exact Hstay].
    match goal with
    | |- grows (world (spawn ?p ?w1 _)) _ /\ _ =>
        destruct (@spawn_steady p w1 tasks) as [Hg [Hst Hs]]
    end.
    + apply steady_bind; [apply steady_ondataavailable | intros; apply steady_onstop].
    + exact Hsys.
    + split; [|split; [exact Hst | exact Hs]].
      eapply grows_trans; [exact Hg | unchanged].
Qed.

Lemma run_steady (evs : list event) (sys : System) :
  steady_system sys ->
  grows (world (run_events sys evs)) (world sys)
  /\ (mounted (run_events sys evs) = true -> mounted sys = true)
  /\ steady_system (run_events sys evs).
Proof.
  revert sys. induction evs as [|ev evs IH]; intros sys Hsys; simpl.
  - split; [apply grows_refl | split; [auto | exact Hsys]].
  - destruct (step_steady ev Hsys) as [Hg [Hst Hs]].
    destruct (IH _ Hs) as [Hg' [Hst' Hs']]. split; [|split; [auto | exact Hs']].
    eapply grows_trans; [exact Hg' | exact Hg].
Qed.

(** X26: what the page shows of the conversation is append-only.
    Whatever the user does and however the requests are answered, if the
    page is still mounted after some events, it was mounted at every
    earlier moment, and the entries it shows are the entries it showed
    then with further entries after them.  The content of every entry
    shown is truthy, and a user entry holds a string that is not empty
    and has no white space at its ends.  Once a render has thrown,
    nothing is shown any more. *)
Theorem history_is_append_only (before after : list event) :
  match shown (run_events initial_system (before ++ after)) with
  | Some now =>
      exists earlier rest,
        shown (run_events initial_system before) = Some earlier
        /\ messages now = messages earlier ++ rest
        /\ Forall well_formed (messages now)
  | None => True
  end.
Proof.
  assert (Hinit : steady_system initial_system) by constructor.
  unfold shown.
  destruct (mounted (run_events initial_system (before ++ after))) eqn:Hnow;
    [|exact I].
  destruct (run_steady (before ++ after) Hinit) as [[all [Hall Hwf]] _].
  unfold run_events in *. rewrite fold_left_app in *.
  destruct (run_steady before Hinit) as [_ [_ Hs]].
  destruct (run_steady after Hs) as [[rest [Hrest _]] [Hst _]].
  unfold run_events in *.
  exists (ui (world (fold_left step before initial_system))), rest.
  rewrite (Hst Hnow). split; [reflexivity|]. split; [exact Hrest|].
  rewrite Hall. exact Hwf.
Qed.

End HistoryFacts.

(** ** The renders that the recorders hold *)
Module RecorderFacts.
Import ChatPage Recording History JsStringFacts ChatPageFacts HistoryFacts.




















End RecorderFacts.

(** ** The page and the relays together *)

Module EndToEnd.
Import JsStringFacts Scenarios MoreScenarios Wire.

(** X27: the second copy of the Transcription Relay relays the text of the
    backend as it comes, white space included, and forwards the upload
    under the file name "audio.webm". *)
Theorem second_copy_relays_text_as_is (world : oracle) (env : AsrRelay.Env)
  (form : FormData) (url : jsstring) (b : Blob) (name : jsstring)
  (res : Response) (data : jsval) (t : jsstring) :
  AsrRelay.ASR_SERVER_URL env = Some url -> url <> [] ->
  form_get (js "file") form = Some (FFile b name) ->
  world (AsrRelay.asr_request url [(js "file", FFile b (js "audio.webm"))]) []
  = inr res ->
  res_ok res = true ->
  res_json res = Some data ->
  get data (js "text") = JStr t ->
  AsrRelayFile.handle world env (ReqForm form)
  = (inr (mkNextResponse 200 (JObj [(js "text", JStr t)])),
     [AsrRelay.asr_request url [(js "file", FFile b (js "audio.webm"))]]).
Proof.
  intros Hurl Hne Hfile Hw Hok Hjson Htext.
  unfold AsrRelayFile.handle, AsrRelayFile.POST. rewrite Hurl.
  destruct url as [|c url]; [congruence|]. simpl. rewrite Hfile. simpl.
  rewrite Hw. simpl. rewrite Hok, Hjson. simpl.
  assert (Ht : truthy data = true)
    by (destruct data; simpl in Htext; try discriminate Htext; reflexivity).
  rewrite Ht, Htext. reflexivity.
Qed.

Lemma second_copy_relays_text_as_is_witness :
  AsrRelayFile.handle (transcribing_backend "  hello ") asr_env
    (ReqForm [(js "file", FFile clip (js "audio.webm"))])
  = (inr (mkNextResponse 200 (JObj [(js "text", JStr (js "  hello "))])),
     [AsrRelay.asr_request (js "http://localhost:9000/transcribe")
        [(js "file", FFile clip (js "audio.webm"))]]).
Proof.
  apply (@second_copy_relays_text_as_is (transcribing_backend "  hello ") asr_env
           [(js "file", FFile clip (js "audio.webm"))]
           (js "http://localhost:9000/transcribe") clip (js "audio.webm")
           (mkResponse 200 None (Some (JObj [(js "text", JStr (js "  hello "))])))
           (JObj [(js "text", JStr (js "  hello "))]) (js "  hello ")).
  - reflexivity.
  - vm_compute. discriminate.
  - reflexivity.
  - reflexivity.
  - reflexivity.
  - reflexivity.
  - reflexivity.
Defined.

(** X28: each page goes with its own copy of the Transcription Relay.
    The upload of [page.tsx] reaches the backend through the relay that
    reads [audio], with the same clip; the relay that reads [file]
    answers it 400 and sends nothing.  The upload of the page that
    posts the clip under [file] is answered 400 by the relay that reads
    [audio], and forwarded by the other. *)
Theorem pages_and_relays_pair_up (world : oracle) (env : AsrRelay.Env)
  (url : jsstring) (blob : Blob) :
  AsrRelay.ASR_SERVER_URL env = Some url -> url <> [] ->
  exists req_audio req_file,
    received (ChatPage.asr_request blob) = Some req_audio
    /\ received (ChatPageFile.asr_request blob) = Some req_file
    /\ snd (AsrRelay.handle world env req_audio)
       = [AsrRelay.asr_request url [(js "file", FFile blob (js "input.webm"))]]
    /\ AsrRelayFile.handle world env req_audio
       = (inr (mkNextResponse 400
                 (JObj [(js "error", JStr (js "Missing audio file in 'file' field"))])),
          [])
    /\ AsrRelay.handle world env req_file
       = (inr (mkNextResponse 400 (JObj [(js "error", JStr (js "Missing audio file"))])),
          [])
    /\ snd (AsrRelayFile.handle world env req_file)
       = [AsrRelay.asr_request url [(js "file", FFile blob (js "audio.webm"))]].
Proof.
  intros Hurl Hne.
  exists (ReqForm [(js "audio", FFile blob (js "audio.webm"))]),
         (ReqForm [(js "file", FFile blob (js "audio.webm"))]).
  split; [reflexivity|]. split; [reflexivity|].
  destruct url as [|c url]; [congruence|].
  repeat split.
  - unfold AsrRelay.handle, AsrRelay.POST. rewrite Hurl. simpl. simpl.
    destruct (world _ _) as [e|res]; simpl; [reflexivity|].
    destruct (negb (res_ok res)); simpl; [reflexivity|].
    destruct (negb (truthy _) || negb (is_string _)); simpl; [reflexivity|].
    destruct (get _ _); reflexivity.
  - unfold AsrRelayFile.handle, AsrRelayFile.POST. rewrite Hurl. simpl.
    reflexivity.
  - unfold AsrRelay.handle, AsrRelay.POST. rewrite Hurl. simpl.
    reflexivity.
  - unfold AsrRelayFile.handle, AsrRelayFile.POST. rewrite Hurl. simpl.
    simpl.
    destruct (world _ _) as [e|res]; simpl; [reflexivity|].
    destruct (negb (res_ok res)); simpl; [reflexivity|].
    destruct (negb (truthy _) || negb (is_string _)); simpl; reflexivity.
Qed.

Lemma pages_and_relays_pair_up_witness :
  exists req_audio req_file,
    received (ChatPage.asr_request clip) = Some req_audio
    /\ received (ChatPageFile.asr_request clip) = Some req_file
    /\ snd (AsrRelay.handle offline asr_env req_audio)
       = [AsrRelay.asr_request (js "http://localhost:9000/transcribe")
            [(js "file", FFile clip (js "input.webm"))]]
    /\ AsrRelayFile.handle offline asr_env req_audio
       = (inr (mkNextResponse 400
                 (JObj [(js "error", JStr (js "Missing audio file in 'file' field"))])),
          [])
    /\ AsrRelay.handle offline asr_env req_file
       = (inr (mkNextResponse 400 (JObj [(js "error", JStr (js "Missing audio file"))])),
          [])
    /\ snd (AsrRelayFile.handle offline asr_env req_file)
       = [AsrRelay.asr_request (js "http://localhost:9000/transcribe")
            [(js "file", FFile clip (js "audio.webm"))]].
Proof.
  apply (@pages_and_relays_pair_up offline asr_env
           (js "http://localhost:9000/transcribe") clip).
  - reflexivity.
  - vm_compute. discriminate.
Defined.

(** X29: a message the page accepts passes the validation of the Chat
    Relay and reaches the model.  The relay, once configured, makes
    exactly one request.  The last of its messages is the user turn with
    the trimmed text; the first is the system message, whose content is
    the persona prompt, a blank line and the hint line.  The hint line
    names the language selected on the page, between "User selected
    language/dialect: " and ". Reply in this language or dialect if
    possible."; when "auto" (or nothing) is selected it is "User language
    may change; auto-detect and match the user.". *)
Theorem accepted_message_reaches_model (ToString_nonstring : jsval -> exn + jsstring)
  (world : oracle) (env : ChatRelay.Env) (url : jsstring)
  (render : ChatPage.State) (overrideText : option jsstring) :
  trim (ChatPage.submitted render overrideText) <> [] ->
  ChatRelay.LLM_SERVER_URL env = Some url -> url <> [] ->
  exists req payload,
    received (ChatPage.chat_request (trim (ChatPage.submitted render overrideText))
                (ChatPage.language render)) = Some req
    /\ snd (ChatRelay.handle ToString_nonstring world env req)
       = [Fetch (url ++ js "/api/chat")
            (mkInit (js "POST") [(js "Content-Type", js "application/json")]
               (BodyJSON payload))]
    /\ get payload (js "messages")
       = JArr (ChatRelay.chat_message (js "system")
                 (ChatRelay.SYSTEM_PROMPT ++ nl ++ nl
                  ++ (if str_eqb (ChatPage.language render) (js "auto")
                         || is_empty (ChatPage.language render)
                      then js "User language may change; auto-detect and match the user."
                      else js "User selected language/dialect: "
                           ++ ChatPage.language render
                           ++ js ". Reply in this language or dialect if possible."))
               :: ChatRelay.fewShotMessages
               ++ [ChatRelay.chat_message (js "user")
                     (trim (ChatPage.submitted render overrideText))]).
Proof.
  intros Hne Hurl Hu.
  set (content := trim (ChatPage.submitted render overrideText)) in *.
  generalize (ChatPage.language render). intros lang.
  assert (Hget1 : forall m rest,
    get (JObj ((js "message", JStr m) :: rest)) (js "message") = JStr m)
    by (intros; vm_compute; reflexivity).
  assert (Hget2 : forall m v rest,
    get (JObj ((js "message", m) :: (js "language", v) :: rest)) (js "language") = v)
    by (intros; vm_compute; reflexivity).
  assert (Hget3 : forall m,
    get (JObj [(js "message", m)]) (js "language") = JUndefined)
    by (intros; vm_compute; reflexivity).
  unfold received, ChatPage.chat_request. cbn [init_body].
  destruct (str_eqb lang (js "auto")) eqn:Hauto.
  - exists (ReqJSON (JObj [(js "message", JStr content)])),
           (ChatRelay.chat_payload (ChatRelay.model_name env)
              ChatRelay.AUTO_DETECT_HINT (JStr content)).
    split; [reflexivity|]. split.
    + apply ChatRelayFacts.POST_sends; try assumption; [apply Hget1|].
      rewrite Hget3. unfold ChatRelay.languageHint. simpl. reflexivity.
    + cbn [orb]. unfold ChatRelay.AUTO_DETECT_HINT. reflexivity.
  - destruct lang as [|c lang].
    + exists (ReqJSON (JObj [(js "message", JStr content); (js "language", JStr [])])),
             (ChatRelay.chat_payload (ChatRelay.model_name env)
                ChatRelay.AUTO_DETECT_HINT (JStr content)).
      split; [reflexivity|]. split.
      * apply ChatRelayFacts.POST_sends; try assumption; [apply Hget1|].
        rewrite Hget2. unfold ChatRelay.languageHint. simpl. reflexivity.
      * cbn [orb is_empty]. unfold ChatRelay.AUTO_DETECT_HINT. reflexivity.
    + exists (ReqJSON (JObj [(js "message", JStr content);
                             (js "language", JStr (c :: lang))])),
             (ChatRelay.chat_payload (ChatRelay.model_name env)
                (ChatRelay.selected_hint (c :: lang)) (JStr content)).
      split; [reflexivity|]. split.
      * apply ChatRelayFacts.POST_sends; try assumption; [apply Hget1|].
        rewrite Hget2. unfold ChatRelay.languageHint. simpl. reflexivity.
      * cbn [orb is_empty]. unfold ChatRelay.selected_hint. reflexivity.
Qed.

Lemma accepted_message_reaches_model_witness :
  exists req payload,
    received (ChatPage.chat_request (trim (ChatPage.submitted (typing " hello ") None))
                (ChatPage.language (typing " hello "))) = Some req
    /\ snd (ChatRelay.handle no_ToString offline chat_env req)
       = [Fetch (js "http://localhost:11434" ++ js "/api/chat")
            (mkInit (js "POST") [(js "Content-Type", js "application/json")]
               (BodyJSON payload))]
    /\ get payload (js "messages")
       = JArr (ChatRelay.chat_message (js "system")
                 (ChatRelay.SYSTEM_PROMPT ++ nl ++ nl
                  ++ (if str_eqb (ChatPage.language (typing " hello ")) (js "auto")
                         || is_empty (ChatPage.language (typing " hello "))
                      then js "User language may change; auto-detect and match the user."
                      else js "User selected language/dialect: "
                           ++ ChatPage.language (typing " hello ")
                           ++ js ". Reply in this language or dialect if possible."))
               :: ChatRelay.fewShotMessages
               ++ [ChatRelay.chat_message (js "user")
                     (trim (ChatPage.submitted (typing " hello ") None))]).
Proof.
  apply (@accepted_message_reaches_model no_ToString offline chat_env
           (js "http://localhost:11434") (typing " hello ") None).
  - vm_compute. discriminate.
  - reflexivity.
  - vm_compute. discriminate.
Defined.

(** X30: from the backend to the page.  When the speech backend answers
    the relay within 200-299 with a string [text], and the page gets
    what the relay answers, [transcribeAudio] returns that text trimmed:
    trimmed once by the relay, and left as it is by the page.  If
    nothing is left of it the page reports "Voice recognition failed.
    ...", otherwise no error. *)
Theorem transcription_round_trip (backend page_net : oracle) (env : AsrRelay.Env)
  (url : jsstring) (blob : Blob) (w : ChatPage.World) (log : list request)
  (req : NextRequest) (answer : NextResponse) (bres res : Response)
  (data : jsval) (t : jsstring) :
  AsrRelay.ASR_SERVER_URL env = Some url -> url <> [] ->
  received (ChatPage.asr_request blob) = Some req ->
  backend (AsrRelay.asr_request url [(js "file", FFile blob (js "input.webm"))]) []
  = inr bres ->
  res_ok bres = true ->
  res_json bres = Some data ->
  get data (js "text") = JStr t ->
  fst (AsrRelay.handle backend env req) = inr answer ->
  page_net (ChatPage.asr_request blob) log = inr res ->
  carries res answer ->
  outcome_of (run page_net (ChatPage.transcribeAudio blob) w log) = inr (trim t)
  /\ ChatPage.recordingError
       (ChatPage.ui (final_state (run page_net (ChatPage.transcribeAudio blob) w log)))
     = (if is_empty (trim t) then ChatPage.VOICE_FAILED else []).
Proof.
  intros Hurl Hne Hreq Hback Hok Hjson Htext Hanswer Hpage [Hstatus Hbody].
  inversion Hreq; subst req; clear Hreq.
  assert (Ht : truthy data = true)
    by (destruct data; simpl in Htext; try discriminate Htext; reflexivity).
  unfold AsrRelay.handle, AsrRelay.POST in Hanswer. rewrite Hurl in Hanswer.
  destruct url as [|c url]; [congruence|]. simpl in Hanswer.
  rewrite Hback in Hanswer. simpl in Hanswer.
  rewrite Hok, Hjson in Hanswer. simpl in Hanswer.
  rewrite Ht, Htext in Hanswer. simpl in Hanswer.
  inversion Hanswer; subst answer; clear Hanswer. simpl in Hstatus, Hbody.
  assert (Hres : res_ok res = true) by (unfold res_ok; rewrite Hstatus; reflexivity).
  unfold ChatPage.transcribeAudio, outcome_of, final_state. simpl.
  rewrite Hpage. simpl. rewrite Hres, Hbody. simpl.
  rewrite trim_idempotent.
  destruct (trim t); simpl; split; reflexivity.
Qed.

Lemma transcription_round_trip_witness :
  outcome_of (run (transcribing_backend "hello") (ChatPage.transcribeAudio clip)
                ChatPage.initial_world [])
  = inr (trim (js "  hello "))
  /\ ChatPage.recordingError
       (ChatPage.ui
          (final_state (run (transcribing_backend "hello")
                          (ChatPage.transcribeAudio clip) ChatPage.initial_world [])))
     = (if is_empty (trim (js "  hello ")) then ChatPage.VOICE_FAILED else []).
Proof.
  apply (@transcription_round_trip (transcribing_backend "  hello ")
           (transcribing_backend "hello") asr_env
           (js "http://localhost:9000/transcribe") clip ChatPage.initial_world []
           (ReqForm [(js "audio", FFile clip (js "audio.webm"))])
           (mkNextResponse 200 (JObj [(js "text", JStr (js "hello"))]))
           (mkResponse 200 None (Some (JObj [(js "text", JStr (js "  hello "))])))
           (mkResponse 200 None (Some (JObj [(js "text", JStr (js "hello"))])))
           (JObj [(js "text", JStr (js "  hello "))]) (js "  hello ")).
  - reflexivity.
  - vm_compute. discriminate.
  - reflexivity.
  - reflexivity.
  - reflexivity.
  - reflexivity.
  - vm_compute. reflexivity.
  - vm_compute. reflexivity.
  - reflexivity.
  - split; reflexivity.
Defined.

End EndToEnd.
